(** * Execution statistics of distributed queries: [pkg/sql/execstats/traceanalyzer.go]

    A shallow embedding of the trace analyzer: the topology built from a
    physical plan ([NewFlowMetadata]), the ingestion of a trace
    ([AddTrace]), the node-level and query-level reduction
    ([ProcessStats]), the fold on query-level scalars ([Accumulate]) and
    the driver over several topologies ([GetQueryLevelStats]); then the
    vocabulary in which their properties are stated, and the properties.

    Conventions of the embedding:
    - [int64] and [time.Duration] values are integers of [Z]; every Go
      addition on them is written with its two's-complement wrap-around
      ([int64], [add64]), and so is every conversion of a [uint64];
    - Go maps are [gmap]s; reading a missing key gives the zero value
      ([get]); the order in which [range] visits a map is not fixed by
      the language and is a parameter of the model ([MapRange]);
    - [*FlowMetadata] values live in a heap, so that two analyzers built
      over the same pointer see each other's writes; a nil or dangling
      pointer makes the dereferencing operation panic ([None]);
    - the flow specifications of a plan and the bags extracted from a
      trace are only read, through pointers that the planner and the
      extraction never leave nil: they are values here;
    - Go's [error] is [option error], [nil] being [None]. *)

From stdpp Require Import gmap strings list fin_maps.

Local Open Scope Z_scope.

(** ** Machine integers *)

(** The conversion [int64(z)]: the representative of [z] modulo [2^64] in
    [-2^63, 2^63). *)
Definition int64 (z : Z) : Z := (z + 2 ^ 63) `mod` 2 ^ 64 - 2 ^ 63.

(** [a + b] on [int64] (and on [time.Duration], which is an [int64]). *)
Definition add64 (a b : Z) : Z := int64 (a + b).

(** The sum and the running maximum (from a base) of a list of integers,
    used to state what the loops compute. *)
Definition Zsum (l : list Z) : Z := foldr Z.add 0 l.
Definition Zmax_from (base : Z) (l : list Z) : Z := foldr Z.max base l.
Global Arguments Zsum : simpl never.
Global Arguments Zmax_from : simpl never.

(** ** Iteration order of [range] over a map *)

(** Go does not specify the order in which [for k, v := range m] visits
    the entries of [m], and it may differ from one loop to the next.  The
    model takes the order as a parameter: for each loop (identified by
    the source line of its [for] statement) an enumeration of the map,
    which must be a permutation of its entries. *)
Class MapRange := {
  range_order :
    ∀ (site : nat) (K : Type) `{Countable K} (A : Type), gmap K A → list (K * A);
  range_order_perm :
    ∀ (site : nat) (K : Type) `{Countable K} (A : Type) (m : gmap K A),
      range_order site K A m ≡ₚ map_to_list m
}.

Definition range `{MapRange} (site : nat) {K : Type} `{Countable K} {A : Type}
    (m : gmap K A) : list (K * A) :=
  range_order site K A m.

(** Two orders, used to run the model: the enumeration of [map_to_list]
    and its reverse. *)
Definition canonical_range : MapRange :=
  {| range_order := λ _ K _ _ A m, map_to_list m;
     range_order_perm := λ _ K _ _ A m, reflexivity (map_to_list m) |}.

Definition reversed_range : MapRange :=
  {| range_order := λ _ K _ _ A m, reverse (map_to_list m);
     range_order_perm := λ _ K _ _ A m, reverse_Permutation (map_to_list m) |}.

(** Reading [m[k]] in a Go map of integers: the zero value when the key is
    missing. *)
Definition get (m : gmap Z Z) (k : Z) : Z := default 0 (m !! k).

(** ** Errors ([github.com/cockroachdb/errors]) *)

(** The error values the analyzer builds with the errors library:
    [Errorf] keeps its format string and arguments; [Wrap] prefixes a
    message to a cause; [WithSecondaryError] attaches a secondary error
    to a primary one. *)
Inductive error : Type :=
  | Errorf (format : string) (args : list Z)
  | Wrap (err : error) (msg : string)
  | WithSecondaryError (err secondary : error).

(** [errors.CombineErrors(err, otherErr)]: the other error when [err] is
    nil, [err] when the other is nil, else [err] with the other attached
    as secondary. *)
Definition CombineErrors (err otherErr : option error) : option error :=
  match err, otherErr with
  | None, _ => otherErr
  | Some e, None => Some e
  | Some e, Some o => Some (WithSecondaryError e o)
  end.

(** [wraps e c]: [c] is [e] or is reached from [e] through causes of
    [Wrap] and primaries of [WithSecondaryError]. *)
Inductive wraps : error → error → Prop :=
  | wraps_refl e : wraps e e
  | wraps_Wrap e msg c : wraps e c → wraps (Wrap e msg) c
  | wraps_primary e s c : wraps e c → wraps (WithSecondaryError e s) c.

(** [occurs_in e c]: [c] is reachable from [e] through causes, primaries
    and secondaries. *)
Inductive occurs_in : error → error → Prop :=
  | occurs_refl e : occurs_in e e
  | occurs_Wrap e msg c : occurs_in e c → occurs_in (Wrap e msg) c
  | occurs_primary e s c : occurs_in e c → occurs_in (WithSecondaryError e s) c
  | occurs_secondary e s c : occurs_in s c → occurs_in (WithSecondaryError e s) c.

(** ** Package [optional] *)

(** Modelled from the spec: the optional numeric fields of a statistics
    bag ([optional.Uint], [optional.Duration]) are declared outside the
    analyzer; a field is present with a value or absent.  [Value] reads
    zero from an absent field: the analyzer reads the four key-value
    fields of a present processor bag without testing their presence. *)
Module optional.
Definition Uint : Type := option Z.
Definition Duration : Type := option Z.
Definition HasValue (i : option Z) : bool :=
  match i with Some _ => true | None => false end.
Definition Value (i : option Z) : Z := default 0 i.
End optional.

(** ** Package [execinfrapb]: statistics bags, component references, plans *)

(** Modelled from the spec: the declarations of package [execinfrapb]
    that the analyzer uses are outside it.  A statistics bag has the
    optional fields of four namespaces: network-receive, network-transmit,
    key-value and flow-level.  A component reference is tagged processor,
    stream or flow and carries an id, a node id and a flow id.  A plan
    maps a node to its flow specification: processors, each with outputs
    that hold stream descriptors tagged local or remote, a remote one
    with its target node. *)
Module execinfrapb.

(** *** Statistics bags ([ComponentStats]) *)

Record NetworkRxStats := mkNetworkRxStats {
  BytesReceived : optional.Uint;
  MessagesReceived : optional.Uint
}.

Record NetworkTxStats := mkNetworkTxStats {
  BytesSent : optional.Uint;
  MessagesSent : optional.Uint
}.

Record KVStats := mkKVStats {
  BytesRead : optional.Uint;
  TuplesRead : optional.Uint;
  KVTime : optional.Duration;
  ContentionTime : optional.Duration
}.

Record FlowStatsBag := mkFlowStatsBag {
  MaxMemUsage : optional.Uint
}.

Record ComponentStats := mkComponentStats {
  NetRx : NetworkRxStats;
  NetTx : NetworkTxStats;
  KV : KVStats;
  FlowStats : FlowStatsBag
}.

(** The bag with every field absent. *)
Definition empty_bag : ComponentStats :=
  mkComponentStats (mkNetworkRxStats None None) (mkNetworkTxStats None None)
                   (mkKVStats None None None None) (mkFlowStatsBag None).

(** *** Component references ([ComponentID]) *)

(** [ComponentID_UNSET] is the zero value of the enumeration: a reference
    that is neither a processor, a stream nor a flow. *)
Inductive ComponentID_Type := ComponentID_UNSET | ComponentID_PROCESSOR
  | ComponentID_STREAM | ComponentID_FLOW.

Record ComponentID := mkComponentID {
  FlowID : Z;
  cid_Type : ComponentID_Type;
  ID : Z;
  NodeID : Z
}.

Global Instance ComponentID_Type_eq_dec : EqDecision ComponentID_Type.
Proof. solve_decision. Defined.

Global Instance ComponentID_eq_dec : EqDecision ComponentID.
Proof. solve_decision. Defined.

Definition ComponentID_Type_code (t : ComponentID_Type) : Z :=
  match t with
  | ComponentID_UNSET => 0 | ComponentID_PROCESSOR => 1
  | ComponentID_STREAM => 2 | ComponentID_FLOW => 3
  end.

Definition ComponentID_Type_of_code (z : Z) : ComponentID_Type :=
  if decide (z = 1) then ComponentID_PROCESSOR
  else if decide (z = 2) then ComponentID_STREAM
  else if decide (z = 3) then ComponentID_FLOW
  else ComponentID_UNSET.

Global Instance ComponentID_countable : Countable ComponentID.
Proof.
  refine (inj_countable'
    (λ c, (FlowID c, ComponentID_Type_code (cid_Type c), ID c, NodeID c))
    (λ t, let '(f, ty, i, n) := t in
          mkComponentID f (ComponentID_Type_of_code ty) i n) _).
  intros [f [] i n]; reflexivity.
Defined.

(** *** Physical plans ([FlowSpec]) *)

(** [StreamEndpointSpec_SYNC_RESPONSE] stands for the values of the
    enumeration that are neither local nor remote. *)
Inductive StreamEndpointSpec_Type := StreamEndpointSpec_LOCAL
  | StreamEndpointSpec_REMOTE | StreamEndpointSpec_SYNC_RESPONSE.

Record StreamEndpointSpec := mkStreamEndpointSpec {
  ses_Type : StreamEndpointSpec_Type;
  StreamID : Z;
  TargetNodeID : Z
}.

Record OutputRouterSpec := mkOutputRouterSpec {
  Streams : list StreamEndpointSpec
}.

Record ProcessorSpec := mkProcessorSpec {
  Output : list OutputRouterSpec;
  ProcessorID : Z
}.

Record FlowSpec := mkFlowSpec {
  Processors : list ProcessorSpec
}.

End execinfrapb.

(** ** The topology ([FlowMetadata]) *)

(** [stats] is the statistics bag found in a trace, [None] (a nil pointer
    in the source) when none was found. *)
Record processorStats := mkProcessorStats {
  ps_nodeID : Z;
  ps_stats : option execinfrapb.ComponentStats
}.

Record streamStats := mkStreamStats {
  ss_originNodeID : Z;
  ss_destinationNodeID : Z;
  ss_stats : option execinfrapb.ComponentStats
}.

(** The slice of flow-level bags of a node, in the order of [append]. *)
Record flowStats := mkFlowStats {
  fs_stats : list execinfrapb.ComponentStats
}.

(** The three maps hold pointers in the source; each pointer is created
    by [NewFlowMetadata] and stored under one key of one map, so the
    pointees are kept in the maps themselves. *)
Record FlowMetadata := mkFlowMetadata {
  fm_processorStats : gmap Z processorStats;
  fm_streamStats : gmap Z streamStats;
  fm_flowStats : gmap Z flowStats
}.

Definition NewFlowMetadata_stream (nodeID : Z) (a : FlowMetadata)
    (stream : execinfrapb.StreamEndpointSpec) : FlowMetadata :=
  match execinfrapb.ses_Type stream with
  | execinfrapb.StreamEndpointSpec_REMOTE =>
      mkFlowMetadata (fm_processorStats a)
        (<[execinfrapb.StreamID stream :=
             mkStreamStats nodeID (execinfrapb.TargetNodeID stream) None]> (fm_streamStats a))
        (fm_flowStats a)
  | _ => a
  end.

Definition NewFlowMetadata_output (nodeID : Z) (a : FlowMetadata)
    (output : execinfrapb.OutputRouterSpec) : FlowMetadata :=
  foldl (NewFlowMetadata_stream nodeID) a (execinfrapb.Streams output).

Definition NewFlowMetadata_proc (nodeID : Z) (a : FlowMetadata)
    (proc : execinfrapb.ProcessorSpec) : FlowMetadata :=
  let a :=
    mkFlowMetadata
      (<[execinfrapb.ProcessorID proc := mkProcessorStats nodeID None]> (fm_processorStats a))
      (fm_streamStats a) (fm_flowStats a) in
  foldl (NewFlowMetadata_output nodeID) a (execinfrapb.Output proc).

Definition NewFlowMetadata_flow (a : FlowMetadata) (entry : Z * execinfrapb.FlowSpec)
    : FlowMetadata :=
  let '(nodeID, flow) := entry in
  let a :=
    mkFlowMetadata (fm_processorStats a) (fm_streamStats a)
      (<[nodeID := mkFlowStats []]> (fm_flowStats a)) in
  foldl (NewFlowMetadata_proc nodeID) a (execinfrapb.Processors flow).

(** [NewFlowMetadata(flows)]: the value the returned pointer points to. *)
Definition NewFlowMetadata `{MapRange} (flows : gmap Z execinfrapb.FlowSpec) : FlowMetadata :=
  foldl NewFlowMetadata_flow (mkFlowMetadata ∅ ∅ ∅) (range 65 flows).

(** [NewFlowMetadata] returns a pointer to a fresh [FlowMetadata]: the
    heap of topologies and the allocation of a new one. *)
Abbreviation heap := (gmap nat FlowMetadata).

Definition alloc_FlowMetadata (h : heap) (fm : FlowMetadata) : heap * nat :=
  let p := fresh (dom h) in (<[p := fm]> h, p).

(** ** Node-level and query-level statistics *)

Record NodeLevelStats := mkNodeLevelStats {
  NetworkBytesSentGroupedByNode : gmap Z Z;
  MaxMemoryUsageGroupedByNode : gmap Z Z;
  KVBytesReadGroupedByNode : gmap Z Z;
  KVRowsReadGroupedByNode : gmap Z Z;
  KVTimeGroupedByNode : gmap Z Z;
  NetworkMessagesGroupedByNode : gmap Z Z;
  ContentionTimeGroupedByNode : gmap Z Z
}.

Record QueryLevelStats := mkQueryLevelStats {
  NetworkBytesSent : Z;
  MaxMemUsage : Z;
  KVBytesRead : Z;
  KVRowsRead : Z;
  KVTime : Z;
  NetworkMessages : Z;
  ContentionTime : Z
}.

(** The zero values of the two structs (nil maps read as empty maps). *)
Definition NodeLevelStats_zero : NodeLevelStats :=
  mkNodeLevelStats ∅ ∅ ∅ ∅ ∅ ∅ ∅.
Definition QueryLevelStats_zero : QueryLevelStats :=
  mkQueryLevelStats 0 0 0 0 0 0 0.

(** [s.Accumulate(other)]: the receiver after the call. *)
Definition Accumulate (s other : QueryLevelStats) : QueryLevelStats :=
  mkQueryLevelStats
    (add64 (NetworkBytesSent s) (NetworkBytesSent other))
    (if MaxMemUsage other >? MaxMemUsage s then MaxMemUsage other else MaxMemUsage s)
    (add64 (KVBytesRead s) (KVBytesRead other))
    (add64 (KVRowsRead s) (KVRowsRead other))
    (add64 (KVTime s) (KVTime other))
    (add64 (NetworkMessages s) (NetworkMessages other))
    (add64 (ContentionTime s) (ContentionTime other)).

(** ** The analyzer *)

(** [FlowMetadata] is embedded by pointer: [ta_FlowMetadata] is its
    address in the heap. *)
Record TraceAnalyzer := mkTraceAnalyzer {
  ta_FlowMetadata : nat;
  nodeLevelStats : NodeLevelStats;
  queryLevelStats : QueryLevelStats
}.

Definition MakeTraceAnalyzer (flowMetadata : nat) : TraceAnalyzer :=
  mkTraceAnalyzer flowMetadata NodeLevelStats_zero QueryLevelStats_zero.

Definition GetNodeLevelStats (a : TraceAnalyzer) : NodeLevelStats := nodeLevelStats a.
Definition TraceAnalyzer_GetQueryLevelStats (a : TraceAnalyzer) : QueryLevelStats :=
  queryLevelStats a.

(** *** Ingestion *)

Definition unknown_processor (id : Z) : error :=
  Errorf "trace has span for processor %d but the processor does not exist in the physical plan" [id].
Definition unknown_stream (id : Z) : error :=
  Errorf "trace has span for stream %d but the stream does not exist in the physical plan" [id].
Definition unknown_flow (flowID nodeID : Z) : error :=
  Errorf "trace has span for flow %s on node %s but the flow does not exist in the physical plan"
         [flowID; nodeID].

(** One iteration of the loop of [AddTrace] on the topology at address
    [p]: the heap after it and the error it returns with, if any.  The
    topology is dereferenced in the three cases that read one of its
    maps. *)
Definition AddTrace_entry (h : heap) (p : nat)
    (entry : execinfrapb.ComponentID * execinfrapb.ComponentStats)
    : option (heap * option error) :=
  let '(component, componentStats) := entry in
  match execinfrapb.cid_Type component with
  | execinfrapb.ComponentID_PROCESSOR =>
      fm ← h !! p;
      let id := execinfrapb.ID component in
      match fm_processorStats fm !! id with
      | None => Some (h, Some (unknown_processor id))
      | Some processorStats =>
          Some (<[p := mkFlowMetadata
                         (<[id := mkProcessorStats (ps_nodeID processorStats)
                                                   (Some componentStats)]>
                            (fm_processorStats fm))
                         (fm_streamStats fm) (fm_flowStats fm)]> h, None)
      end
  | execinfrapb.ComponentID_STREAM =>
      fm ← h !! p;
      let id := execinfrapb.ID component in
      match fm_streamStats fm !! id with
      | None => Some (h, Some (unknown_stream id))
      | Some streamStats =>
          Some (<[p := mkFlowMetadata
                         (fm_processorStats fm)
                         (<[id := mkStreamStats (ss_originNodeID streamStats)
                                                (ss_destinationNodeID streamStats)
                                                (Some componentStats)]>
                            (fm_streamStats fm))
                         (fm_flowStats fm)]> h, None)
      end
  | execinfrapb.ComponentID_FLOW =>
      fm ← h !! p;
      let nodeID := execinfrapb.NodeID component in
      match fm_flowStats fm !! nodeID with
      | None => Some (h, Some (unknown_flow (execinfrapb.FlowID component) nodeID))
      | Some flowStats =>
          Some (<[p := mkFlowMetadata
                         (fm_processorStats fm) (fm_streamStats fm)
                         (<[nodeID := mkFlowStats (fs_stats flowStats ++ [componentStats])]>
                            (fm_flowStats fm))]> h, None)
      end
  | execinfrapb.ComponentID_UNSET => Some (h, None)
  end.

(** The loop of [AddTrace] over the entries of the extracted map, in the
    order the loop visits them: it returns at the first error. *)
Fixpoint AddTrace_loop (h : heap) (p : nat)
    (m : list (execinfrapb.ComponentID * execinfrapb.ComponentStats))
    : option (heap * option error) :=
  match m with
  | [] => Some (h, None)
  | entry :: rest =>
      match AddTrace_entry h p entry with
      | None => None
      | Some (h', Some err) => Some (h', Some err)
      | Some (h', None) => AddTrace_loop h' p rest
      end
  end.

(** *** Node-level reduction *)

(** [m[k] += v] and [if v > m[k] { m[k] = v }] on a map of integers. *)
Definition incr (m : gmap Z Z) (k v : Z) : gmap Z Z := <[k := add64 (get m k) v]> m.
Definition raise (m : gmap Z Z) (k v : Z) : gmap Z Z :=
  if v >? get m k then <[k := v]> m else m.

Definition getNetworkBytesFromComponentStats (v : execinfrapb.ComponentStats)
    : Z * option error :=
  if optional.HasValue (execinfrapb.BytesReceived (execinfrapb.NetRx v)) then
    if optional.HasValue (execinfrapb.BytesSent (execinfrapb.NetTx v)) then
      (0, Some (Errorf "could not get network bytes; both BytesReceived and BytesSent are set" []))
    else
      (int64 (optional.Value (execinfrapb.BytesReceived (execinfrapb.NetRx v))), None)
  else if optional.HasValue (execinfrapb.BytesSent (execinfrapb.NetTx v)) then
    (int64 (optional.Value (execinfrapb.BytesSent (execinfrapb.NetTx v))), None)
  else
    (0, Some (Errorf "could not get network bytes; neither BytesReceived and BytesSent is set" [])).

Definition getNumNetworkMessagesFromComponentsStats (v : execinfrapb.ComponentStats)
    : Z * option error :=
  if optional.HasValue (execinfrapb.MessagesReceived (execinfrapb.NetRx v)) then
    if optional.HasValue (execinfrapb.MessagesSent (execinfrapb.NetTx v)) then
      (0, Some (Errorf "could not get network messages; both MessagesReceived and MessagesSent are set" []))
    else
      (int64 (optional.Value (execinfrapb.MessagesReceived (execinfrapb.NetRx v))), None)
  else if optional.HasValue (execinfrapb.MessagesSent (execinfrapb.NetTx v)) then
    (int64 (optional.Value (execinfrapb.MessagesSent (execinfrapb.NetTx v))), None)
  else
    (0, Some (Errorf "could not get network messages; neither MessagesReceived and MessagesSent is set" [])).

(** Body of the loop over [a.processorStats]. *)
Definition ProcessStats_processor (nls : NodeLevelStats) (entry : Z * processorStats)
    : NodeLevelStats :=
  let stats := entry.2 in
  match ps_stats stats with
  | None => nls
  | Some s =>
      mkNodeLevelStats
        (NetworkBytesSentGroupedByNode nls)
        (MaxMemoryUsageGroupedByNode nls)
        (incr (KVBytesReadGroupedByNode nls) (ps_nodeID stats)
              (int64 (optional.Value (execinfrapb.BytesRead (execinfrapb.KV s)))))
        (incr (KVRowsReadGroupedByNode nls) (ps_nodeID stats)
              (int64 (optional.Value (execinfrapb.TuplesRead (execinfrapb.KV s)))))
        (incr (KVTimeGroupedByNode nls) (ps_nodeID stats)
              (optional.Value (execinfrapb.KVTime (execinfrapb.KV s))))
        (NetworkMessagesGroupedByNode nls)
        (incr (ContentionTimeGroupedByNode nls) (ps_nodeID stats)
              (optional.Value (execinfrapb.ContentionTime (execinfrapb.KV s))))
  end.

(** The three parts of the body of the loop over [a.streamStats], for a
    stream whose bag [v] is present. *)
Definition ProcessStats_stream_bytes (origin : Z) (v : execinfrapb.ComponentStats)
    (st : NodeLevelStats * option error) : NodeLevelStats * option error :=
  let '(nls, errs) := st in
  match getNetworkBytesFromComponentStats v with
  | (_, Some err) =>
      (nls, CombineErrors errs (Some (Wrap err "error calculating network bytes sent")))
  | (bytes, None) =>
      (mkNodeLevelStats
         (incr (NetworkBytesSentGroupedByNode nls) origin bytes)
         (MaxMemoryUsageGroupedByNode nls) (KVBytesReadGroupedByNode nls)
         (KVRowsReadGroupedByNode nls) (KVTimeGroupedByNode nls)
         (NetworkMessagesGroupedByNode nls) (ContentionTimeGroupedByNode nls), errs)
  end.

Definition ProcessStats_maxMemUsage (node : Z) (v : execinfrapb.ComponentStats)
    (nls : NodeLevelStats) : NodeLevelStats :=
  if optional.HasValue (execinfrapb.MaxMemUsage (execinfrapb.FlowStats v)) then
    mkNodeLevelStats
      (NetworkBytesSentGroupedByNode nls)
      (raise (MaxMemoryUsageGroupedByNode nls) node
             (int64 (optional.Value (execinfrapb.MaxMemUsage (execinfrapb.FlowStats v)))))
      (KVBytesReadGroupedByNode nls)
      (KVRowsReadGroupedByNode nls) (KVTimeGroupedByNode nls)
      (NetworkMessagesGroupedByNode nls) (ContentionTimeGroupedByNode nls)
  else nls.

Definition ProcessStats_stream_messages (origin : Z) (v : execinfrapb.ComponentStats)
    (st : NodeLevelStats * option error) : NodeLevelStats * option error :=
  let '(nls, errs) := st in
  match getNumNetworkMessagesFromComponentsStats v with
  | (_, Some err) =>
      (nls, CombineErrors errs (Some (Wrap err "error calculating number of network messages")))
  | (numMessages, None) =>
      (mkNodeLevelStats
         (NetworkBytesSentGroupedByNode nls)
         (MaxMemoryUsageGroupedByNode nls) (KVBytesReadGroupedByNode nls)
         (KVRowsReadGroupedByNode nls) (KVTimeGroupedByNode nls)
         (incr (NetworkMessagesGroupedByNode nls) origin numMessages)
         (ContentionTimeGroupedByNode nls), errs)
  end.

(** Body of the loop over [a.streamStats]. *)
Definition ProcessStats_stream (st : NodeLevelStats * option error)
    (entry : Z * streamStats) : NodeLevelStats * option error :=
  let stats := entry.2 in
  match ss_stats stats with
  | None => st
  | Some v =>
      let st := ProcessStats_stream_bytes (ss_originNodeID stats) v st in
      let st := (ProcessStats_maxMemUsage (ss_originNodeID stats) v st.1, st.2) in
      ProcessStats_stream_messages (ss_originNodeID stats) v st
  end.

(** Body of the loop over [a.flowStats]; a nil slice is an empty list. *)
Definition ProcessStats_flow (nls : NodeLevelStats) (entry : Z * flowStats)
    : NodeLevelStats :=
  let '(nodeID, stats) := entry in
  foldl (λ nls v, ProcessStats_maxMemUsage nodeID v nls) nls (fs_stats stats).

(** *** Query-level reduction *)

Definition sum_loop (l : list (Z * Z)) : Z := foldl (λ acc e, add64 acc e.2) 0 l.
Definition max_loop (l : list (Z * Z)) : Z :=
  foldl (λ acc e, if e.2 >? acc then e.2 else acc) 0 l.

Definition ProcessStats_query `{MapRange} (nls : NodeLevelStats) : QueryLevelStats :=
  mkQueryLevelStats
    (sum_loop (range 278 (NetworkBytesSentGroupedByNode nls)))
    (max_loop (range 282 (MaxMemoryUsageGroupedByNode nls)))
    (sum_loop (range 288 (KVBytesReadGroupedByNode nls)))
    (sum_loop (range 292 (KVRowsReadGroupedByNode nls)))
    (sum_loop (range 296 (KVTimeGroupedByNode nls)))
    (sum_loop (range 300 (NetworkMessagesGroupedByNode nls)))
    (sum_loop (range 304 (KVTimeGroupedByNode nls))).

(** The node-level series and the combined error computed from a
    topology. *)
Definition ProcessStats_node `{MapRange} (fm : FlowMetadata)
    : NodeLevelStats * option error :=
  let nls := foldl ProcessStats_processor NodeLevelStats_zero
                   (range 205 (fm_processorStats fm)) in
  let st := foldl ProcessStats_stream (nls, None) (range 216 (fm_streamStats fm)) in
  (foldl ProcessStats_flow st.1 (range 251 (fm_flowStats fm)), st.2).

(** [a.ProcessStats()]: the analyzer after the call and the returned
    error; the heap is only read. *)
Definition ProcessStats `{MapRange} (h : heap) (a : TraceAnalyzer)
    : option (TraceAnalyzer * option error) :=
  fm ← h !! ta_FlowMetadata a;
  let '(nls, errs) := ProcessStats_node fm in
  Some (mkTraceAnalyzer (ta_FlowMetadata a) nls (ProcessStats_query nls), errs).

(** ** Trace extraction and the driver *)

Section Driver.

(** The extraction of per-component bags from the spans of a trace is
    done by [execinfrapb.ExtractStatsFromSpans], outside the analyzer; it
    is a parameter here. *)
Context {RecordedSpan : Type}.
Variable ExtractStatsFromSpans :
  list RecordedSpan → bool → gmap execinfrapb.ComponentID execinfrapb.ComponentStats.

(** [a.AddTrace(trace, makeDeterministic)]: the heap after the call and
    the returned error. *)
Definition AddTrace `{MapRange} (h : heap) (a : TraceAnalyzer)
    (trace : list RecordedSpan) (makeDeterministic : bool)
    : option (heap * option error) :=
  let m := ExtractStatsFromSpans trace makeDeterministic in
  AddTrace_loop h (ta_FlowMetadata a) (range 154 m).

(** Body of the loop of [GetQueryLevelStats] for one topology: the heap,
    the scalars and the combined error after it. *)
Definition GetQueryLevelStats_body `{MapRange}
    (trace : list RecordedSpan) (deterministicExplainAnalyze : bool)
    (st : heap * QueryLevelStats * option error) (metadata : nat)
    : option (heap * QueryLevelStats * option error) :=
  let '(h, queryLevelStats, errs) := st in
  let analyzer := MakeTraceAnalyzer metadata in
  match AddTrace h analyzer trace deterministicExplainAnalyze with
  | None => None
  | Some (h, Some err) =>
      Some (h, queryLevelStats,
            CombineErrors errs (Some (Wrap err "error analyzing trace statistics")))
  | Some (h, None) =>
      match ProcessStats h analyzer with
      | None => None
      | Some (_, Some err) => Some (h, queryLevelStats, CombineErrors errs (Some err))
      | Some (analyzer, None) =>
          Some (h, TraceAnalyzer_GetQueryLevelStats analyzer, errs)
      end
  end.

(** The loop over the topologies; [orders i] is the iteration order of
    the map loops run for the topology of index [i]. *)
Fixpoint GetQueryLevelStats_loop (orders : nat → MapRange) (i : nat)
    (trace : list RecordedSpan) (deterministicExplainAnalyze : bool)
    (flowMetadata : list nat) (st : heap * QueryLevelStats * option error)
    : option (heap * QueryLevelStats * option error) :=
  match flowMetadata with
  | [] => Some st
  | metadata :: rest =>
      st ← GetQueryLevelStats_body (H := orders i) trace deterministicExplainAnalyze
             st metadata;
      GetQueryLevelStats_loop orders (S i) trace deterministicExplainAnalyze rest st
  end.

Definition GetQueryLevelStats (orders : nat → MapRange) (h : heap)
    (trace : list RecordedSpan) (deterministicExplainAnalyze : bool)
    (flowMetadata : list nat) : option (heap * QueryLevelStats * option error) :=
  GetQueryLevelStats_loop orders 0 trace deterministicExplainAnalyze flowMetadata
    (h, QueryLevelStats_zero, None).

End Driver.

(** * Vocabulary of the statements *)

(** ** Plans *)

(** The processors of a plan with their node, and its streams with the
    node of the processor they leave, in the order the loops visit
    them. *)
Definition plan_processors (l : list (Z * execinfrapb.FlowSpec))
    : list (Z * execinfrapb.ProcessorSpec) :=
  l ≫= λ e, (λ proc, (e.1, proc)) <$> execinfrapb.Processors e.2.

Definition processor_streams (e : Z * execinfrapb.ProcessorSpec)
    : list (Z * execinfrapb.StreamEndpointSpec) :=
  execinfrapb.Output e.2 ≫= λ output, (λ stream, (e.1, stream)) <$> execinfrapb.Streams output.

Definition is_remote (e : Z * execinfrapb.StreamEndpointSpec) : bool :=
  match execinfrapb.ses_Type e.2 with
  | execinfrapb.StreamEndpointSpec_REMOTE => true
  | _ => false
  end.

Definition plan_remote_streams (l : list (Z * execinfrapb.FlowSpec))
    : list (Z * execinfrapb.StreamEndpointSpec) :=
  filter (λ e, is_remote e = true) (plan_processors l ≫= processor_streams).

(** The processors and the remote streams of a plan. *)
Definition processors_of_plan (flows : gmap Z execinfrapb.FlowSpec)
    : list (Z * execinfrapb.ProcessorSpec) :=
  plan_processors (map_to_list flows).
Definition remote_streams_of_plan (flows : gmap Z execinfrapb.FlowSpec)
    : list (Z * execinfrapb.StreamEndpointSpec) :=
  plan_remote_streams (map_to_list flows).

(** The identity stored for a stream and for a processor, and the key
    it is stored under. *)
Definition stream_entry (e : Z * execinfrapb.StreamEndpointSpec) : streamStats :=
  mkStreamStats e.1 (execinfrapb.TargetNodeID e.2) None.
Definition stream_key (e : Z * execinfrapb.StreamEndpointSpec) : Z :=
  execinfrapb.StreamID e.2.
Definition processor_entry (e : Z * execinfrapb.ProcessorSpec) : processorStats :=
  mkProcessorStats e.1 None.
Definition processor_key (e : Z * execinfrapb.ProcessorSpec) : Z :=
  execinfrapb.ProcessorID e.2.

(** The topology [a] has one flow-slot per node of the plan, one
    processor identity per processor, owned by its node, and one stream
    identity per remote stream, from the node of its processor to its
    target node, and none for another stream; every bag is absent. *)
Definition one_identity_per_component (a : FlowMetadata)
    (flows : gmap Z execinfrapb.FlowSpec) : Prop :=
  dom (fm_flowStats a) = dom flows ∧
  size (fm_flowStats a) = size flows ∧
  (∀ n fs, fm_flowStats a !! n = Some fs → fs_stats fs = []) ∧
  size (fm_processorStats a) = length (processors_of_plan flows) ∧
  (∀ n proc, (n, proc) ∈ processors_of_plan flows →
     fm_processorStats a !! execinfrapb.ProcessorID proc = Some (mkProcessorStats n None)) ∧
  (∀ id ps, fm_processorStats a !! id = Some ps →
     ps_stats ps = None ∧
     ∃ proc, (ps_nodeID ps, proc) ∈ processors_of_plan flows ∧
             execinfrapb.ProcessorID proc = id) ∧
  size (fm_streamStats a) = length (remote_streams_of_plan flows) ∧
  (∀ n stream, (n, stream) ∈ remote_streams_of_plan flows →
     fm_streamStats a !! execinfrapb.StreamID stream
       = Some (mkStreamStats n (execinfrapb.TargetNodeID stream) None)) ∧
  (∀ id ss, fm_streamStats a !! id = Some ss →
     ss_stats ss = None ∧
     ∃ stream, (ss_originNodeID ss, stream) ∈ remote_streams_of_plan flows ∧
               execinfrapb.StreamID stream = id ∧
               execinfrapb.ses_Type stream = execinfrapb.StreamEndpointSpec_REMOTE ∧
               ss_destinationNodeID ss = execinfrapb.TargetNodeID stream).

(** ** Topologies, node by node *)

(** The bags of the processors owned by node [n] whose bag is present. *)
Definition processor_bags (fm : FlowMetadata) (n : Z) : list execinfrapb.ComponentStats :=
  omap (λ e : Z * processorStats, if decide (ps_nodeID e.2 = n) then ps_stats e.2 else None)
       (map_to_list (fm_processorStats fm)).

(** The bags of the streams originating at node [n] whose bag is
    present. *)
Definition stream_bags (fm : FlowMetadata) (n : Z) : list execinfrapb.ComponentStats :=
  omap (λ e : Z * streamStats, if decide (ss_originNodeID e.2 = n) then ss_stats e.2 else None)
       (map_to_list (fm_streamStats fm)).

(** The entries of the flow-slot list of node [n]. *)
Definition flow_bags (fm : FlowMetadata) (n : Z) : list execinfrapb.ComponentStats :=
  default [] (fs_stats <$> fm_flowStats fm !! n).

(** The stream bags of a topology that are present. *)
Definition present_stream_bags (fm : FlowMetadata) : list execinfrapb.ComponentStats :=
  omap (λ e : Z * streamStats, ss_stats e.2) (map_to_list (fm_streamStats fm)).

(** The four processor-sourced values of a bag, as the loop reads them. *)
Definition kv_bytes_read (s : execinfrapb.ComponentStats) : Z :=
  int64 (optional.Value (execinfrapb.BytesRead (execinfrapb.KV s))).
Definition kv_rows_read (s : execinfrapb.ComponentStats) : Z :=
  int64 (optional.Value (execinfrapb.TuplesRead (execinfrapb.KV s))).
Definition kv_time (s : execinfrapb.ComponentStats) : Z :=
  optional.Value (execinfrapb.KVTime (execinfrapb.KV s)).
Definition contention_time (s : execinfrapb.ComponentStats) : Z :=
  optional.Value (execinfrapb.ContentionTime (execinfrapb.KV s)).

(** The exclusivity rule: the value of the one field that is present, as
    an [int64], when exactly one of the two is. *)
Definition exactly_one (received sent : option Z) : option Z :=
  match received, sent with
  | Some x, None => Some (int64 x)
  | None, Some y => Some (int64 y)
  | Some _, Some _ | None, None => None
  end.

Definition network_bytes (v : execinfrapb.ComponentStats) : option Z :=
  exactly_one (execinfrapb.BytesReceived (execinfrapb.NetRx v))
              (execinfrapb.BytesSent (execinfrapb.NetTx v)).
Definition network_messages (v : execinfrapb.ComponentStats) : option Z :=
  exactly_one (execinfrapb.MessagesReceived (execinfrapb.NetRx v))
              (execinfrapb.MessagesSent (execinfrapb.NetTx v)).

(** The peak memory of a bag, as an [int64], when it is present. *)
Definition peak_memory (v : execinfrapb.ComponentStats) : option Z :=
  int64 <$> execinfrapb.MaxMemUsage (execinfrapb.FlowStats v).

(** The errors one stream bag adds to the combined error, in order. *)
Definition stream_errors (v : execinfrapb.ComponentStats) : list error :=
  match (getNetworkBytesFromComponentStats v).2 with
  | Some err => [Wrap err "error calculating network bytes sent"]
  | None => []
  end ++
  match (getNumNetworkMessagesFromComponentsStats v).2 with
  | Some err => [Wrap err "error calculating number of network messages"]
  | None => []
  end.

Definition combine_all (errs : option error) (l : list error) : option error :=
  foldl (λ errs e, CombineErrors errs (Some e)) errs l.

(** The values of a map, in the order of [map_to_list]. *)
Definition values (m : gmap Z Z) : list Z := (map_to_list m).*2.

(** ** Loops over keyed contributions *)

(** A loop whose body, for an element [e], adds [v] under key [k] when
    [c e = Some (k, v)] and does nothing when [c e = None]. *)
Definition incr_with {A : Type} (c : A → option (Z * Z)) (m : gmap Z Z) (e : A)
    : gmap Z Z :=
  match c e with Some (k, v) => incr m k v | None => m end.
Definition raise_with {A : Type} (c : A → option (Z * Z)) (m : gmap Z Z) (e : A)
    : gmap Z Z :=
  match c e with Some (k, v) => raise m k v | None => m end.

(** What [e] contributes to key [n]. *)
Definition at_key {A : Type} (c : A → option (Z * Z)) (n : Z) (e : A) : option Z :=
  match c e with
  | Some (k, v) => if decide (k = n) then Some v else None
  | None => None
  end.

(** A loop that stores [v e] under key [k e] for each element [e]. *)
Definition insert_with {A B : Type} (k : A → Z) (v : A → B) (m : gmap Z B) (e : A)
    : gmap Z B :=
  <[k e := v e]> m.

(** What an entry of each map contributes, and under which key. *)
Definition processor_c (f : execinfrapb.ComponentStats → Z) (e : Z * processorStats)
    : option (Z * Z) :=
  s ← ps_stats e.2; Some (ps_nodeID e.2, f s).
Definition stream_c (pick : execinfrapb.ComponentStats → option Z) (e : Z * streamStats)
    : option (Z * Z) :=
  v ← ss_stats e.2; x ← pick v; Some (ss_originNodeID e.2, x).
Definition flow_c (e : Z * execinfrapb.ComponentStats) : option (Z * Z) :=
  x ← peak_memory e.2; Some (e.1, x).

(** The flow-level bags of a list of slots, each with its node. *)
Definition slot_bags (l : list (Z * flowStats)) : list (Z * execinfrapb.ComponentStats) :=
  l ≫= λ e, (λ v, (e.1, v)) <$> fs_stats e.2.

(** The errors of the streams of a list whose bag is present, in the
    order of the list. *)
Definition streams_errors (l : list (Z * streamStats)) : list error :=
  omap (λ e : Z * streamStats, ss_stats e.2) l ≫= stream_errors.

(** ** Outcomes of the topologies of a driver run *)

(** What the driver does with one topology. *)
Inductive outcome : Type :=
  | IngestionFailed (err : error)
  | ReductionFailed (discarded : QueryLevelStats) (err : error)
  | Succeeded (result : QueryLevelStats).

(** The scalars a topology hands to the driver, and the error it adds. *)
Definition result_of (o : outcome) : option QueryLevelStats :=
  match o with Succeeded q => Some q | _ => None end.
Definition failure_of (o : outcome) : option error :=
  match o with
  | IngestionFailed err => Some (Wrap err "error analyzing trace statistics")
  | ReductionFailed _ err => Some err
  | Succeeded _ => None
  end.

(** The result of the last topology that succeeded, the zero value when
    none did. *)
Definition last_success (os : list outcome) : QueryLevelStats :=
  default QueryLevelStats_zero (last (omap result_of os)).

Section outcomes.
Context {RecordedSpan : Type}.
Variable ExtractStatsFromSpans :
  list RecordedSpan → bool → gmap execinfrapb.ComponentID execinfrapb.ComponentStats.

(** Ingestion then reduction on a fresh analyzer over one topology. *)
Definition run_topology (trace : list RecordedSpan) (deterministicExplainAnalyze : bool)
    `{MapRange} (h : heap) (metadata : nat) : option (heap * outcome) :=
  match AddTrace ExtractStatsFromSpans h (MakeTraceAnalyzer metadata) trace
          deterministicExplainAnalyze with
  | None => None
  | Some (h', Some err) => Some (h', IngestionFailed err)
  | Some (h', None) =>
      match ProcessStats h' (MakeTraceAnalyzer metadata) with
      | None => None
      | Some (a', Some err) => Some (h', ReductionFailed (queryLevelStats a') err)
      | Some (a', None) => Some (h', Succeeded (queryLevelStats a'))
      end
  end.

(** The outcomes of the topologies of a list, run one after the other on
    the heap left by the previous ones. *)
Fixpoint run_topologies (trace : list RecordedSpan) (deterministicExplainAnalyze : bool)
    (orders : nat → MapRange) (i : nat) (h : heap)
    (flowMetadata : list nat) : option (heap * list outcome) :=
  match flowMetadata with
  | [] => Some (h, [])
  | metadata :: rest =>
      match run_topology trace deterministicExplainAnalyze (H := orders i) h metadata with
      | None => None
      | Some (h', o) =>
          match run_topologies trace deterministicExplainAnalyze orders (S i) h' rest with
          | None => None
          | Some (h'', os) => Some (h'', o :: os)
          end
      end
  end.

End outcomes.

(** ** Ranges, whole-topology bags and known references *)

(** [z] is a value of type [int64]. *)
Definition in_int64 (z : Z) : Prop := - 2 ^ 63 ≤ z < 2 ^ 63.

(** Every field of [q] is an [int64] and its peak memory is not
    negative. *)
Definition QueryLevelStats_in_range (q : QueryLevelStats) : Prop :=
  in_int64 (NetworkBytesSent q) ∧ 0 ≤ MaxMemUsage q < 2 ^ 63 ∧
  in_int64 (KVBytesRead q) ∧ in_int64 (KVRowsRead q) ∧ in_int64 (KVTime q) ∧
  in_int64 (NetworkMessages q) ∧ in_int64 (ContentionTime q).

(** The bags of all the processors of a topology that have one, and the
    entries of all its flow-slot lists. *)
Definition all_processor_bags (fm : FlowMetadata) : list execinfrapb.ComponentStats :=
  omap (λ e : Z * processorStats, ps_stats e.2) (map_to_list (fm_processorStats fm)).
Definition all_flow_bags (fm : FlowMetadata) : list execinfrapb.ComponentStats :=
  map_to_list (fm_flowStats fm) ≫= λ e, fs_stats e.2.

(** The component reference [c] resolves in the topology [fm]: its
    processor, stream or flow node is a key of the corresponding map; a
    reference of no kind resolves trivially. *)
Definition known (fm : FlowMetadata) (c : execinfrapb.ComponentID) : Prop :=
  match execinfrapb.cid_Type c with
  | execinfrapb.ComponentID_PROCESSOR => is_Some (fm_processorStats fm !! execinfrapb.ID c)
  | execinfrapb.ComponentID_STREAM => is_Some (fm_streamStats fm !! execinfrapb.ID c)
  | execinfrapb.ComponentID_FLOW => is_Some (fm_flowStats fm !! execinfrapb.NodeID c)
  | execinfrapb.ComponentID_UNSET => True
  end.

(** The error [AddTrace] returns for a reference that does not resolve. *)
Definition unknown_component (c : execinfrapb.ComponentID) : error :=
  match execinfrapb.cid_Type c with
  | execinfrapb.ComponentID_STREAM => unknown_stream (execinfrapb.ID c)
  | execinfrapb.ComponentID_FLOW =>
      unknown_flow (execinfrapb.FlowID c) (execinfrapb.NodeID c)
  | _ => unknown_processor (execinfrapb.ID c)
  end.

(** Two topologies have the same identities: the same keys in the three
    maps, and under each key the same owner node, resp. the same origin
    and destination. *)
Definition same_identities (fm fm' : FlowMetadata) : Prop :=
  (∀ id, ps_nodeID <$> fm_processorStats fm' !! id = ps_nodeID <$> fm_processorStats fm !! id) ∧
  (∀ id, (λ ss, (ss_originNodeID ss, ss_destinationNodeID ss)) <$> fm_streamStats fm' !! id
         = (λ ss, (ss_originNodeID ss, ss_destinationNodeID ss)) <$> fm_streamStats fm !! id) ∧
  (∀ n, is_Some (fm_flowStats fm' !! n) ↔ is_Some (fm_flowStats fm !! n)).

(** The slot lists of [fm'] extend those of [fm]. *)
Definition slots_extend (fm fm' : FlowMetadata) : Prop :=
  ∀ n fs, fm_flowStats fm !! n = Some fs →
    ∃ fs', fm_flowStats fm' !! n = Some fs' ∧ fs_stats fs `prefix_of` fs_stats fs'.

(** What the heap [h'] left by a run keeps of the heap [h]: every
    topology, with its identities and the entries of its flow-slot
    lists. *)
Definition heap_kept (h h' : heap) : Prop :=
  ∀ p fm, h !! p = Some fm →
    ∃ fm', h' !! p = Some fm' ∧ same_identities fm fm' ∧ slots_extend fm fm'.

(** The entries of kind [ty] of a list of trace entries; the bags and the
    ids of the references of kind [ty] of an extracted map. *)
Definition entries_of (ty : execinfrapb.ComponentID_Type)
    (l : list (execinfrapb.ComponentID * execinfrapb.ComponentStats))
    : list (execinfrapb.ComponentID * execinfrapb.ComponentStats) :=
  filter (λ e, execinfrapb.cid_Type e.1 = ty) l.
Definition trace_bags (ty : execinfrapb.ComponentID_Type)
    (m : gmap execinfrapb.ComponentID execinfrapb.ComponentStats)
    : list execinfrapb.ComponentStats :=
  (entries_of ty (map_to_list m)).*2.
Definition trace_ids (ty : execinfrapb.ComponentID_Type)
    (m : gmap execinfrapb.ComponentID execinfrapb.ComponentStats) : list Z :=
  (λ e, execinfrapb.ID e.1) <$> entries_of ty (map_to_list m).

(** No processor and no stream of [fm] has a bag and its flow-slot lists
    are empty. *)
Definition no_bags (fm : FlowMetadata) : Prop :=
  (∀ id ps, fm_processorStats fm !! id = Some ps → ps_stats ps = None) ∧
  (∀ id ss, fm_streamStats fm !! id = Some ss → ss_stats ss = None) ∧
  (∀ n fs, fm_flowStats fm !! n = Some fs → fs_stats fs = []).

(** ** Example plans, topologies and traces *)

Module Examples.

Definition bag_kv (bytesRead tuplesRead kvTime contentionTime : option Z)
    : execinfrapb.ComponentStats :=
  execinfrapb.mkComponentStats
    (execinfrapb.mkNetworkRxStats None None) (execinfrapb.mkNetworkTxStats None None)
    (execinfrapb.mkKVStats bytesRead tuplesRead kvTime contentionTime)
    (execinfrapb.mkFlowStatsBag None).

Definition bag_net (bytesReceived messagesReceived bytesSent messagesSent peak : option Z)
    : execinfrapb.ComponentStats :=
  execinfrapb.mkComponentStats
    (execinfrapb.mkNetworkRxStats bytesReceived messagesReceived)
    (execinfrapb.mkNetworkTxStats bytesSent messagesSent)
    (execinfrapb.mkKVStats None None None None)
    (execinfrapb.mkFlowStatsBag peak).

(** Three processors on node 1: kv-bytes-read 10 and 15, and one whose bag
    is absent. *)
Definition three_processors : FlowMetadata :=
  mkFlowMetadata
    {[ 1 := mkProcessorStats 1 (Some (bag_kv (Some 10) (Some 2) (Some 7) (Some 3)));
       2 := mkProcessorStats 1 (Some (bag_kv (Some 15) None None None));
       3 := mkProcessorStats 1 None ]}
    ∅ {[ 1 := mkFlowStats [] ]}.

(** A stream from node 1 whose flow sub-bag has peak memory 50 and whose
    byte counts are both present (a violation) while only its sent
    message count is; the flow-slot of node 1 holds a bag of peak 80. *)
Definition stream_and_slot : FlowMetadata :=
  mkFlowMetadata ∅
    {[ 7 := mkStreamStats 1 2
              (Some (bag_net (Some 30) None (Some 40) (Some 4) (Some 50))) ]}
    {[ 1 := mkFlowStats [bag_net None None None None (Some 80)];
       2 := mkFlowStats [] ]}.

(** A single processor (10) on node 1, with the flow-slot of node 1. *)
Definition one_processor : FlowMetadata :=
  mkFlowMetadata {[ 10 := mkProcessorStats 1 None ]} ∅ {[ 1 := mkFlowStats [] ]}.

(** Traces whose spans carry their component reference and bag: the
    extraction collects them in a map. *)
Definition extract (trace : list (execinfrapb.ComponentID * execinfrapb.ComponentStats))
    (makeDeterministic : bool)
    : gmap execinfrapb.ComponentID execinfrapb.ComponentStats :=
  list_to_map trace.

Definition processor_10 : execinfrapb.ComponentID :=
  execinfrapb.mkComponentID 0 execinfrapb.ComponentID_PROCESSOR 10 1.
Definition stream_99 : execinfrapb.ComponentID :=
  execinfrapb.mkComponentID 0 execinfrapb.ComponentID_STREAM 99 1.

(** A trace with a bag for processor 10 (kv-bytes-read 100) and a bag for
    a stream 99. *)
Definition trace_10_99 : list (execinfrapb.ComponentID * execinfrapb.ComponentStats) :=
  [(processor_10, bag_kv (Some 100) None None None);
   (stream_99, bag_net None None (Some 40) (Some 4) None)].

(** Processor 10 and the remote stream 99 (from node 1 to node 2). *)
Definition processor_and_stream : FlowMetadata :=
  mkFlowMetadata {[ 10 := mkProcessorStats 1 None ]} {[ 99 := mkStreamStats 1 2 None ]}
                 {[ 1 := mkFlowStats []; 2 := mkFlowStats [] ]}.

(** A trace whose bag for stream 99 has both byte counts present. *)
Definition trace_both_bytes : list (execinfrapb.ComponentID * execinfrapb.ComponentStats) :=
  [(processor_10, bag_kv (Some 100) None None None);
   (stream_99, bag_net (Some 30) None (Some 40) (Some 4) None)].

(** Two nodes, each with a processor of id 7 that has a remote stream of
    id 5 to the other node and a local stream of id 6. *)
Definition plan_duplicate_ids : gmap Z execinfrapb.FlowSpec :=
  {[ 1 := execinfrapb.mkFlowSpec
            [execinfrapb.mkProcessorSpec
               [execinfrapb.mkOutputRouterSpec
                  [execinfrapb.mkStreamEndpointSpec execinfrapb.StreamEndpointSpec_REMOTE 5 2;
                   execinfrapb.mkStreamEndpointSpec execinfrapb.StreamEndpointSpec_LOCAL 6 0]]
               7];
     2 := execinfrapb.mkFlowSpec
            [execinfrapb.mkProcessorSpec
               [execinfrapb.mkOutputRouterSpec
                  [execinfrapb.mkStreamEndpointSpec execinfrapb.StreamEndpointSpec_REMOTE 5 1]]
               7] ]}.

(** Two processors with distinct ids (7 on node 1, 8 on node 2), each
    with a remote stream of id 5 to the other node. *)
Definition plan_duplicate_stream_ids : gmap Z execinfrapb.FlowSpec :=
  {[ 1 := execinfrapb.mkFlowSpec
            [execinfrapb.mkProcessorSpec
               [execinfrapb.mkOutputRouterSpec
                  [execinfrapb.mkStreamEndpointSpec execinfrapb.StreamEndpointSpec_REMOTE 5 2]]
               7];
     2 := execinfrapb.mkFlowSpec
            [execinfrapb.mkProcessorSpec
               [execinfrapb.mkOutputRouterSpec
                  [execinfrapb.mkStreamEndpointSpec execinfrapb.StreamEndpointSpec_REMOTE 5 1]]
               8] ]}.

(** Node 1 with processor 10, which has a remote stream 99 to node 2 and
    a local stream 98; node 2 with processor 11. *)
Definition plan_two_nodes : gmap Z execinfrapb.FlowSpec :=
  {[ 1 := execinfrapb.mkFlowSpec
            [execinfrapb.mkProcessorSpec
               [execinfrapb.mkOutputRouterSpec
                  [execinfrapb.mkStreamEndpointSpec execinfrapb.StreamEndpointSpec_REMOTE 99 2;
                   execinfrapb.mkStreamEndpointSpec execinfrapb.StreamEndpointSpec_LOCAL 98 0]]
               10];
     2 := execinfrapb.mkFlowSpec [execinfrapb.mkProcessorSpec [] 11] ]}.

End Examples.

(** * Properties *)

(** ** Arithmetic of [int64] *)

Lemma int64_range z : - 2 ^ 63 ≤ int64 z < 2 ^ 63.
Proof.
  unfold int64. pose proof (Z.mod_pos_bound (z + 2 ^ 63) (2 ^ 64)). lia.
Qed.

Lemma int64_small z : - 2 ^ 63 ≤ z < 2 ^ 63 → int64 z = z.
Proof.
  intros Hz. unfold int64. rewrite Z.mod_small by lia. lia.
Qed.

Lemma int64_idemp z : int64 (int64 z) = int64 z.
Proof. apply int64_small, int64_range. Qed.

Lemma int64_add_l a b : int64 (int64 a + b) = int64 (a + b).
Proof.
  unfold int64.
  replace ((a + 2 ^ 63) `mod` 2 ^ 64 - 2 ^ 63 + b + 2 ^ 63)
    with ((a + 2 ^ 63) `mod` 2 ^ 64 + b) by lia.
  rewrite Zplus_mod_idemp_l. do 2 f_equal. lia.
Qed.

Lemma int64_add_r a b : int64 (a + int64 b) = int64 (a + b).
Proof. rewrite (Z.add_comm a), int64_add_l. f_equal. lia. Qed.

Lemma add64_comm a b : add64 a b = add64 b a.
Proof. unfold add64. f_equal. lia. Qed.

(** ** Sums and maxima of lists *)

Global Instance Zsum_Permutation : Proper ((≡ₚ) ==> (=)) Zsum.
Proof.
  intros l1 l2 Hl. unfold Zsum.
  induction Hl; simpl; [done | congruence | lia | congruence].
Qed.

Global Instance Zmax_from_Permutation base : Proper ((≡ₚ) ==> (=)) (Zmax_from base).
Proof.
  intros l1 l2 Hl. unfold Zmax_from.
  induction Hl; simpl; [done | congruence | lia | congruence].
Qed.

Lemma Zsum_cons x l : Zsum (x :: l) = x + Zsum l.
Proof. reflexivity. Qed.

Lemma Zmax_from_cons base x l : Zmax_from base (x :: l) = Z.max x (Zmax_from base l).
Proof. reflexivity. Qed.

Lemma Zsum_app l1 l2 : Zsum (l1 ++ l2) = Zsum l1 + Zsum l2.
Proof. unfold Zsum. induction l1; simpl; lia. Qed.

Lemma Zmax_from_app base l1 l2 :
  Zmax_from base (l1 ++ l2) = Zmax_from (Zmax_from base l2) l1.
Proof. unfold Zmax_from. by rewrite foldr_app. Qed.

Lemma Zmax_from_max base x l : Zmax_from (Z.max base x) l = Z.max (Zmax_from base l) x.
Proof. unfold Zmax_from. induction l; simpl; lia. Qed.

Lemma Zmax_from_ge base l : base ≤ Zmax_from base l.
Proof. unfold Zmax_from. induction l; simpl; lia. Qed.

Lemma Zmax_from_upper base l x : x ∈ l → x ≤ Zmax_from base l.
Proof.
  unfold Zmax_from. induction 1; simpl; lia.
Qed.

Lemma Zmax_from_attained base l : Zmax_from base l = base ∨ Zmax_from base l ∈ l.
Proof.
  unfold Zmax_from. induction l as [|x l IH]; simpl; [by left |].
  destruct (Z.max_spec x (foldr Z.max base l)) as [[_ ->] | [_ ->]].
  - destruct IH as [-> | IH]; [by left | right; by constructor].
  - right. by constructor.
Qed.

Lemma omap_cons_eq {A B} (f : A → option B) (x : A) (l : list A) :
  omap f (x :: l) = match f x with Some y => y :: omap f l | None => omap f l end.
Proof. reflexivity. Qed.

(** The two query-level loops, on any list of entries. *)
Lemma sum_loop_spec l : sum_loop l = int64 (Zsum l.*2).
Proof.
  unfold sum_loop.
  enough (∀ acc, int64 acc = acc →
            foldl (λ acc e, add64 acc e.2) acc l = int64 (acc + Zsum l.*2)) as ->
    by done.
  induction l as [|e l IH]; intros acc Hacc.
  - simpl. by rewrite Z.add_0_r.
  - rewrite fmap_cons, Zsum_cons. cbn [foldl]. rewrite IH by apply int64_idemp.
    unfold add64. rewrite int64_add_l. f_equal. lia.
Qed.

Lemma max_loop_spec l : max_loop l = Zmax_from 0 l.*2.
Proof.
  unfold max_loop. generalize 0.
  induction l as [|e l IH]; intros acc; [done |].
  rewrite fmap_cons, Zmax_from_cons. cbn [foldl]. rewrite IH.
  replace (if e.2 >? acc then e.2 else acc) with (Z.max acc e.2)
    by (destruct (Z.gtb_spec e.2 acc); lia).
  rewrite Zmax_from_max. lia.
Qed.

Lemma range_values `{MapRange} site (m : gmap Z Z) : (range site m).*2 ≡ₚ values m.
Proof. unfold range, values. by rewrite range_order_perm. Qed.

Lemma sum_loop_range `{MapRange} site (m : gmap Z Z) :
  sum_loop (range site m) = int64 (Zsum (values m)).
Proof. by rewrite sum_loop_spec, range_values. Qed.

Lemma max_loop_range `{MapRange} site (m : gmap Z Z) :
  max_loop (range site m) = Zmax_from 0 (values m).
Proof. by rewrite max_loop_spec, range_values. Qed.

(** ** Maps of counters: [incr] and [raise] *)

Lemma get_insert m k v n : get (<[k := v]> m) n = if decide (k = n) then v else get m n.
Proof.
  unfold get. rewrite lookup_insert. by destruct (decide (k = n)).
Qed.

Lemma get_empty n : get ∅ n = 0.
Proof. unfold get. by rewrite lookup_empty. Qed.

Lemma get_incr m k v n :
  get (incr m k v) n = if decide (k = n) then add64 (get m k) v else get m n.
Proof. apply get_insert. Qed.

Lemma get_raise m k v n :
  get (raise m k v) n = if decide (k = n) then Z.max (get m k) v else get m n.
Proof.
  unfold raise. destruct (Z.gtb_spec v (get m k)).
  - rewrite get_insert. destruct (decide (k = n)); [lia | done].
  - destruct (decide (k = n)) as [<- |]; [lia | done].
Qed.

(** What a loop of [incr_with] or [raise_with] leaves under a key. *)
Section keyed_loops.
Context {A : Type} (c : A → option (Z * Z)).

Lemma get_incr_with m l n :
  int64 (get m n) = get m n →
  get (foldl (incr_with c) m l) n = int64 (get m n + Zsum (omap (at_key c n) l)).
Proof.
  revert m. induction l as [|e l IH]; intros m Hm.
  - simpl. by rewrite Z.add_0_r.
  - rewrite omap_cons_eq. cbn [foldl].
    unfold incr_with at 2, at_key at 1. destruct (c e) as [[k v]|]; [|by apply IH].
    rewrite IH; rewrite get_incr; destruct (decide (k = n)) as [-> |];
      try done; try apply int64_idemp.
    unfold add64. rewrite int64_add_l, Zsum_cons. f_equal. lia.
Qed.

Lemma lookup_incr_with_is_Some m l n :
  is_Some (foldl (incr_with c) m l !! n) ↔ is_Some (m !! n) ∨ ∃ e, e ∈ l ∧ is_Some (at_key c n e).
Proof.
  revert m. induction l as [|e l IH]; intros m; simpl.
  - split; [by left | intros [? | (e & He & _)]; [done | by apply elem_of_nil in He]].
  - rewrite IH. unfold incr_with. split.
    + intros [Hm | (e' & He' & Hc)].
      * destruct (c e) as [[k v]|] eqn:Hce; [| by left].
        unfold incr in Hm. rewrite lookup_insert in Hm.
        destruct (decide (k = n)) as [-> |]; [| by left].
        right. exists e. split; [by left |]. unfold at_key. rewrite Hce.
        by rewrite decide_True.
      * right. exists e'. split; [by right | done].
    + intros [Hm | (e' & He' & Hc)].
      * left. destruct (c e) as [[k v]|]; [| done].
        unfold incr. rewrite lookup_insert. by destruct (decide (k = n)).
      * apply elem_of_cons in He' as [-> | He']; [| right; by exists e'].
        left. unfold at_key in Hc. destruct (c e) as [[k v]|]; [| by destruct Hc].
        destruct (decide (k = n)) as [-> |]; [| by destruct Hc].
        unfold incr. rewrite lookup_insert_eq. by eexists.
Qed.

Lemma get_raise_with m l n :
  get (foldl (raise_with c) m l) n = Zmax_from (get m n) (omap (at_key c n) l).
Proof.
  revert m. induction l as [|e l IH]; intros m; [done |].
  rewrite omap_cons_eq. cbn [foldl].
  unfold raise_with at 2, at_key at 1. destruct (c e) as [[k v]|]; [| by apply IH].
  rewrite IH, get_raise. destruct (decide (k = n)) as [-> |]; [| done].
  rewrite Zmax_from_max, Zmax_from_cons. lia.
Qed.

(** Entries written by [raise] are positive when the map starts with
    positive entries: an entry is written only above the value read. *)
Lemma raise_with_positive m l :
  map_Forall (λ _ v, 0 < v) m → map_Forall (λ _ v, 0 < v) (foldl (raise_with c) m l).
Proof.
  revert m. induction l as [|e l IH]; intros m Hm; simpl; [done |].
  apply IH. unfold raise_with. destruct (c e) as [[k v]|]; [| done].
  unfold raise. destruct (Z.gtb_spec v (get m k)); [| done].
  apply map_Forall_insert_2; [| done].
  unfold get in *. destruct (m !! k) as [w|] eqn:Hw; simpl in *; [| lia].
  apply Hm in Hw. lia.
Qed.
End keyed_loops.

(** ** Topology construction *)

Lemma insert_with_dom {A B} (k : A → Z) (v : A → B) m l :
  dom (foldl (insert_with k v) m l) = dom m ∪ list_to_set (k <$> l).
Proof.
  revert m. induction l as [|e l IH]; intros m.
  - cbn. by rewrite union_empty_r_L.
  - cbn [foldl]. rewrite IH. unfold insert_with. rewrite dom_insert_L.
    rewrite fmap_cons, list_to_set_cons.
    rewrite (union_comm_L {[k e]} (dom m)). by rewrite union_assoc_L.
Qed.

Lemma insert_with_lookup {A B} (k : A → Z) (v : A → B) m l i x :
  foldl (insert_with k v) m l !! i = Some x →
  m !! i = Some x ∨ ∃ e, e ∈ l ∧ k e = i ∧ x = v e.
Proof.
  revert m. induction l as [|e l IH]; intros m Hx; [by left |].
  cbn [foldl] in Hx. apply IH in Hx as [Hx | (e' & He' & Hk & Hv)].
  - unfold insert_with in Hx. rewrite lookup_insert in Hx.
    destruct (decide (k e = i)) as [Hk |]; [| by left].
    right. exists e. split; [by left |]. split; [done | congruence].
  - right. exists e'. split; [by right | done].
Qed.

Lemma insert_with_lookup_NoDup {A B} (k : A → Z) (v : A → B) m l e :
  NoDup (k <$> l) → e ∈ l → foldl (insert_with k v) m l !! k e = Some (v e).
Proof.
  revert m. induction l as [|e' l IH]; intros m Hnd He; [by apply elem_of_nil in He |].
  rewrite fmap_cons in Hnd. apply NoDup_cons in Hnd as [Hk Hnd].
  cbn [foldl]. apply elem_of_cons in He as [-> | He]; [| by apply IH].
  destruct (foldl (insert_with k v) (insert_with k v m e') l !! k e') as [x|] eqn:Hx.
  - apply insert_with_lookup in Hx as [Hx | (e'' & He'' & Hke & _)].
    + unfold insert_with in Hx. by rewrite lookup_insert_eq in Hx.
    + destruct Hk. rewrite <-Hke. apply list_elem_of_fmap. by exists e''.
  - apply not_elem_of_dom in Hx. rewrite insert_with_dom in Hx.
    unfold insert_with in Hx. rewrite dom_insert_L in Hx. set_solver.
Qed.

Lemma insert_with_size {A B} (k : A → Z) (v : A → B) l :
  NoDup (k <$> l) → size (foldl (insert_with k v) ∅ l) = length l.
Proof.
  intros Hnd. rewrite <-size_dom, insert_with_dom, dom_empty_L, union_empty_l_L.
  rewrite size_list_to_set by done. by rewrite length_fmap.
Qed.

Lemma NewFlowMetadata_stream_loop nodeID a streams :
  foldl (NewFlowMetadata_stream nodeID) a streams =
    mkFlowMetadata (fm_processorStats a)
      (foldl (insert_with stream_key stream_entry) (fm_streamStats a)
         (filter (λ e, is_remote e = true) ((λ stream, (nodeID, stream)) <$> streams)))
      (fm_flowStats a).
Proof.
  revert a. induction streams as [|stream streams IH]; intros a; [by destruct a |].
  cbn [foldl]. rewrite IH, fmap_cons. unfold NewFlowMetadata_stream.
  rewrite filter_cons.
  destruct (execinfrapb.ses_Type stream) eqn:Hty;
    cbn [fm_processorStats fm_streamStats fm_flowStats].
  - rewrite decide_False by (unfold is_remote; cbn; by rewrite Hty). reflexivity.
  - rewrite decide_True by (unfold is_remote; cbn; by rewrite Hty). reflexivity.
  - rewrite decide_False by (unfold is_remote; cbn; by rewrite Hty). reflexivity.
Qed.

Lemma NewFlowMetadata_output_loop nodeID a outputs :
  foldl (NewFlowMetadata_output nodeID) a outputs =
    mkFlowMetadata (fm_processorStats a)
      (foldl (insert_with stream_key stream_entry) (fm_streamStats a)
         (filter (λ e, is_remote e = true)
            (outputs ≫= λ output, (λ stream, (nodeID, stream)) <$> execinfrapb.Streams output)))
      (fm_flowStats a).
Proof.
  revert a. induction outputs as [|output outputs IH]; intros a; [by destruct a |].
  cbn [foldl]. rewrite IH. unfold NewFlowMetadata_output.
  rewrite NewFlowMetadata_stream_loop. cbn [fm_processorStats fm_streamStats fm_flowStats].
  by rewrite bind_cons, filter_app, foldl_app.
Qed.

Lemma NewFlowMetadata_proc_loop nodeID a procs :
  foldl (NewFlowMetadata_proc nodeID) a procs =
    mkFlowMetadata
      (foldl (insert_with processor_key processor_entry) (fm_processorStats a)
         ((λ proc, (nodeID, proc)) <$> procs))
      (foldl (insert_with stream_key stream_entry) (fm_streamStats a)
         (filter (λ e, is_remote e = true)
            (((λ proc, (nodeID, proc)) <$> procs) ≫= processor_streams)))
      (fm_flowStats a).
Proof.
  revert a. induction procs as [|proc procs IH]; intros a; [by destruct a |].
  cbn [foldl]. rewrite IH. unfold NewFlowMetadata_proc.
  rewrite NewFlowMetadata_output_loop. cbn [fm_processorStats fm_streamStats fm_flowStats].
  by rewrite fmap_cons, bind_cons, filter_app, foldl_app.
Qed.

Lemma NewFlowMetadata_flow_loop a l :
  foldl NewFlowMetadata_flow a l =
    mkFlowMetadata
      (foldl (insert_with processor_key processor_entry) (fm_processorStats a)
         (plan_processors l))
      (foldl (insert_with stream_key stream_entry) (fm_streamStats a)
         (plan_remote_streams l))
      (foldl (insert_with fst (λ _ : Z * execinfrapb.FlowSpec, mkFlowStats []))
         (fm_flowStats a) l).
Proof.
  revert a. induction l as [|[nodeID flow] l IH]; intros a; [by destruct a |].
  cbn [foldl]. rewrite IH. unfold NewFlowMetadata_flow.
  rewrite NewFlowMetadata_proc_loop. cbn [fm_processorStats fm_streamStats fm_flowStats].
  unfold plan_remote_streams, plan_processors.
  by rewrite !bind_cons, bind_app, filter_app, !foldl_app.
Qed.

Lemma NewFlowMetadata_loops `{MapRange} flows :
  NewFlowMetadata flows =
    mkFlowMetadata
      (foldl (insert_with processor_key processor_entry) ∅
         (plan_processors (range 65 flows)))
      (foldl (insert_with stream_key stream_entry) ∅
         (plan_remote_streams (range 65 flows)))
      (foldl (insert_with fst (λ _ : Z * execinfrapb.FlowSpec, mkFlowStats [])) ∅
         (range 65 flows)).
Proof. unfold NewFlowMetadata. by rewrite NewFlowMetadata_flow_loop. Qed.

Lemma plan_processors_range `{MapRange} flows :
  plan_processors (range 65 flows) ≡ₚ processors_of_plan flows.
Proof.
  unfold processors_of_plan, plan_processors, range. by rewrite range_order_perm.
Qed.

Lemma plan_remote_streams_range `{MapRange} flows :
  plan_remote_streams (range 65 flows) ≡ₚ remote_streams_of_plan flows.
Proof.
  unfold remote_streams_of_plan, plan_remote_streams.
  by rewrite plan_processors_range.
Qed.

Lemma is_remote_filter (l : list (Z * execinfrapb.StreamEndpointSpec)) e :
  e ∈ filter (λ e, is_remote e = true) l →
  execinfrapb.ses_Type e.2 = execinfrapb.StreamEndpointSpec_REMOTE.
Proof.
  intros [Hr _]%list_elem_of_filter. unfold is_remote in Hr.
  by destruct (execinfrapb.ses_Type e.2).
Qed.

(** C6 (as amended): for every plan whose processor ids are pairwise
    distinct and whose remote-stream ids are pairwise distinct,
    [NewFlowMetadata] registers one flow-slot per node of the plan, one
    processor identity per processor, owned by its node, and one stream
    identity per remote stream (origin: the node of the processor;
    destination: the declared target node) and none for a local stream;
    every bag starts absent.  The function returns a topology for every
    plan: it has no error result. *)
Theorem NewFlowMetadata_registers `{MapRange} (flows : gmap Z execinfrapb.FlowSpec) :
  NoDup (processor_key <$> processors_of_plan flows) →
  NoDup (stream_key <$> remote_streams_of_plan flows) →
  one_identity_per_component (NewFlowMetadata flows) flows.
Proof.
  intros Hprocs Hstreams.
  rewrite NewFlowMetadata_loops. unfold one_identity_per_component.
  cbn [fm_processorStats fm_streamStats fm_flowStats].
  pose proof (plan_processors_range flows) as Hpp.
  pose proof (plan_remote_streams_range flows) as Hps.
  rewrite <-Hpp in Hprocs. rewrite <-Hps in Hstreams.
  assert (dom (foldl (insert_with fst (λ _ : Z * execinfrapb.FlowSpec, mkFlowStats [])) ∅
                 (range 65 flows)) = dom flows) as Hdom.
  { rewrite insert_with_dom, dom_empty_L, union_empty_l_L.
    unfold range. rewrite range_order_perm. apply leibniz_equiv. by rewrite <-dom_alt. }
  split_and!.
  - done.
  - by rewrite <-!size_dom, Hdom.
  - intros n fs [Hfs | (e & _ & _ & ->)]%insert_with_lookup; [| done].
    by rewrite lookup_empty in Hfs.
  - rewrite insert_with_size by done. by rewrite Hpp.
  - intros n proc Hin. rewrite <-Hpp in Hin.
    by apply (insert_with_lookup_NoDup processor_key processor_entry ∅ _ (n, proc)).
  - intros id ps [Hps' | (e & He & Hk & ->)]%insert_with_lookup;
      [by rewrite lookup_empty in Hps' |].
    split; [done |]. exists e.2. split; [| done].
    rewrite <-Hpp. by destruct e.
  - rewrite insert_with_size by done. by rewrite Hps.
  - intros n stream Hin. rewrite <-Hps in Hin.
    by apply (insert_with_lookup_NoDup stream_key stream_entry ∅ _ (n, stream)).
  - intros id ss [Hss | (e & He & Hk & ->)]%insert_with_lookup;
      [by rewrite lookup_empty in Hss |].
    split; [done |]. exists e.2. split_and!; try done.
    + rewrite <-Hps. by destruct e.
    + by apply is_remote_filter in He.
Qed.

(** The plan of [Examples.plan_two_nodes]: two flow-slots, two processor
    identities and one stream identity, for the remote stream 99 from
    node 1 to node 2. *)
Lemma NewFlowMetadata_registers_witness :
  one_identity_per_component (NewFlowMetadata (H := reversed_range) Examples.plan_two_nodes)
    Examples.plan_two_nodes ∧
  size (fm_streamStats (NewFlowMetadata (H := reversed_range) Examples.plan_two_nodes)) = 1%nat ∧
  fm_streamStats (NewFlowMetadata (H := reversed_range) Examples.plan_two_nodes) !! 99
    = Some (mkStreamStats 1 2 None).
Proof.
  split; [| split; reflexivity].
  apply (NewFlowMetadata_registers (H := reversed_range) Examples.plan_two_nodes).
  - compute_done.
  - compute_done.
Defined.

(** C6 (as stated) fails for a plan in which two processors share an id:
    the two processors of [Examples.plan_duplicate_ids] get a single
    processor identity, and their two remote streams a single stream
    identity. *)
Lemma NewFlowMetadata_duplicate_ids :
  ¬ one_identity_per_component
      (NewFlowMetadata (H := canonical_range) Examples.plan_duplicate_ids)
      Examples.plan_duplicate_ids.
Proof.
  intros (_ & _ & _ & Hsize & _). vm_compute in Hsize. discriminate.
Qed.

(** Distinct processor ids do not suffice: two remote streams that share
    an id get a single stream identity. *)
Lemma NewFlowMetadata_duplicate_stream_ids :
  ¬ one_identity_per_component
      (NewFlowMetadata (H := canonical_range) Examples.plan_duplicate_stream_ids)
      Examples.plan_duplicate_stream_ids.
Proof.
  intros (_ & _ & _ & _ & _ & _ & Hsize & _). vm_compute in Hsize. discriminate.
Qed.

(** ** Trace ingestion *)

Lemma AddTrace_loop_app h p pre post :
  AddTrace_loop h p (pre ++ post) =
    match AddTrace_loop h p pre with
    | Some (h', None) => AddTrace_loop h' p post
    | r => r
    end.
Proof.
  revert h. induction pre as [|entry pre IH]; intros h; [done |].
  cbn [app AddTrace_loop].
  destruct (AddTrace_entry h p entry) as [[h' [err|]]|]; [done | apply IH | done].
Qed.

Lemma AddTrace_loop_cons h p entry post :
  AddTrace_loop h p (entry :: post) =
    match AddTrace_entry h p entry with
    | Some (h', None) => AddTrace_loop h' p post
    | r => r
    end.
Proof.
  cbn [AddTrace_loop]. by destruct (AddTrace_entry h p entry) as [[h' [err|]]|].
Qed.

(** C5: in a call of [AddTrace], let the loop have applied the entries
    [pre] without error and reach the entry [(c, bag)].  If [c] is a
    processor (resp. stream) reference found in the topology, its bag is
    attached in place of whatever bag was there (the owner node, resp.
    the origin and destination, are kept) and the call goes on with the
    rest; if [c] is a flow reference whose node has a flow-slot, the bag
    is appended to the slot's list and the call goes on.  If the
    processor, stream or flow node is absent from the topology, the call
    returns at once with the descriptive error, the entries after it are
    not visited, and the heap is the one left by [pre]: what was applied
    earlier in the call stays applied. *)
Theorem AddTrace_attach_or_abort {RecordedSpan : Type}
    (ExtractStatsFromSpans :
       list RecordedSpan → bool → gmap execinfrapb.ComponentID execinfrapb.ComponentStats)
    `{MapRange} (h h1 : heap) (a : TraceAnalyzer) (trace : list RecordedSpan)
    (makeDeterministic : bool)
    (pre post : list (execinfrapb.ComponentID * execinfrapb.ComponentStats))
    (c : execinfrapb.ComponentID) (bag : execinfrapb.ComponentStats) (fm : FlowMetadata) :
  range 154 (ExtractStatsFromSpans trace makeDeterministic) = pre ++ (c, bag) :: post →
  AddTrace_loop h (ta_FlowMetadata a) pre = Some (h1, None) →
  h1 !! ta_FlowMetadata a = Some fm →
  (∀ ps, execinfrapb.cid_Type c = execinfrapb.ComponentID_PROCESSOR →
         fm_processorStats fm !! execinfrapb.ID c = Some ps →
         AddTrace ExtractStatsFromSpans h a trace makeDeterministic =
           AddTrace_loop
             (<[ta_FlowMetadata a :=
                  mkFlowMetadata
                    (<[execinfrapb.ID c := mkProcessorStats (ps_nodeID ps) (Some bag)]>
                       (fm_processorStats fm))
                    (fm_streamStats fm) (fm_flowStats fm)]> h1)
             (ta_FlowMetadata a) post) ∧
  (∀ ss, execinfrapb.cid_Type c = execinfrapb.ComponentID_STREAM →
         fm_streamStats fm !! execinfrapb.ID c = Some ss →
         AddTrace ExtractStatsFromSpans h a trace makeDeterministic =
           AddTrace_loop
             (<[ta_FlowMetadata a :=
                  mkFlowMetadata (fm_processorStats fm)
                    (<[execinfrapb.ID c :=
                         mkStreamStats (ss_originNodeID ss) (ss_destinationNodeID ss)
                                       (Some bag)]> (fm_streamStats fm))
                    (fm_flowStats fm)]> h1)
             (ta_FlowMetadata a) post) ∧
  (∀ fs, execinfrapb.cid_Type c = execinfrapb.ComponentID_FLOW →
         fm_flowStats fm !! execinfrapb.NodeID c = Some fs →
         AddTrace ExtractStatsFromSpans h a trace makeDeterministic =
           AddTrace_loop
             (<[ta_FlowMetadata a :=
                  mkFlowMetadata (fm_processorStats fm) (fm_streamStats fm)
                    (<[execinfrapb.NodeID c := mkFlowStats (fs_stats fs ++ [bag])]>
                       (fm_flowStats fm))]> h1)
             (ta_FlowMetadata a) post) ∧
  (execinfrapb.cid_Type c = execinfrapb.ComponentID_PROCESSOR →
   fm_processorStats fm !! execinfrapb.ID c = None →
   AddTrace ExtractStatsFromSpans h a trace makeDeterministic =
     Some (h1, Some (unknown_processor (execinfrapb.ID c)))) ∧
  (execinfrapb.cid_Type c = execinfrapb.ComponentID_STREAM →
   fm_streamStats fm !! execinfrapb.ID c = None →
   AddTrace ExtractStatsFromSpans h a trace makeDeterministic =
     Some (h1, Some (unknown_stream (execinfrapb.ID c)))) ∧
  (execinfrapb.cid_Type c = execinfrapb.ComponentID_FLOW →
   fm_flowStats fm !! execinfrapb.NodeID c = None →
   AddTrace ExtractStatsFromSpans h a trace makeDeterministic =
     Some (h1, Some (unknown_flow (execinfrapb.FlowID c) (execinfrapb.NodeID c)))).
Proof.
  intros Hrange Hpre Hfm. unfold AddTrace.
  rewrite Hrange, AddTrace_loop_app, Hpre, AddTrace_loop_cons.
  unfold AddTrace_entry.
  split_and!.
  - intros ps -> Hps. rewrite Hfm. cbn. by rewrite Hps.
  - intros ss -> Hss. rewrite Hfm. cbn. by rewrite Hss.
  - intros fs -> Hfs. rewrite Hfm. cbn. by rewrite Hfs.
  - intros -> Hps. rewrite Hfm. cbn. by rewrite Hps.
  - intros -> Hss. rewrite Hfm. cbn. by rewrite Hss.
  - intros -> Hfs. rewrite Hfm. cbn. by rewrite Hfs.
Qed.

(** Processor 10 is in the topology and stream 99 is not; the loop visits
    the processor first: the call returns the error for the stream and
    processor 10 holds its bag in the heap returned. *)
Lemma AddTrace_attach_or_abort_witness :
  ∃ h1,
    AddTrace Examples.extract (H := reversed_range) {[ 0%nat := Examples.one_processor ]}
      (MakeTraceAnalyzer 0) Examples.trace_10_99 false
      = Some (h1, Some (unknown_stream 99)) ∧
    (h1 !! 0%nat ≫= λ fm, fm_processorStats fm !! 10 ≫= ps_stats)
      = Some (Examples.bag_kv (Some 100) None None None).
Proof.
  set (fm1 := mkFlowMetadata
                {[ 10 := mkProcessorStats 1 (Some (Examples.bag_kv (Some 100) None None None)) ]}
                ∅ {[ 1 := mkFlowStats [] ]}).
  exists (<[0%nat := fm1]> {[ 0%nat := Examples.one_processor ]}).
  assert (range (H := reversed_range) 154 (Examples.extract Examples.trace_10_99 false)
          = [(Examples.processor_10, Examples.bag_kv (Some 100) None None None)]
            ++ (Examples.stream_99, Examples.bag_net None None (Some 40) (Some 4) None) :: [])
    as Hrange by (vm_compute; reflexivity).
  assert (AddTrace_loop {[ 0%nat := Examples.one_processor ]} 0
            [(Examples.processor_10, Examples.bag_kv (Some 100) None None None)]
          = Some (<[0%nat := fm1]> {[ 0%nat := Examples.one_processor ]}, None))
    as Hpre by reflexivity.
  assert ((<[0%nat := fm1]> {[ 0%nat := Examples.one_processor ]} : heap) !! 0%nat = Some fm1)
    as Hfm by reflexivity.
  destruct (AddTrace_attach_or_abort Examples.extract (H := reversed_range)
              _ _ (MakeTraceAnalyzer 0) Examples.trace_10_99 false _ _ _ _ fm1
              Hrange Hpre Hfm) as (_ & _ & _ & _ & Hstream & _).
  split; [apply Hstream; reflexivity | reflexivity].
Defined.

(** ** The two helpers of the stream loop *)

Lemma getNetworkBytesFromComponentStats_spec v :
  getNetworkBytesFromComponentStats v =
    match network_bytes v with
    | Some x => (x, None)
    | None =>
        (0, Some (Errorf
           (if optional.HasValue (execinfrapb.BytesReceived (execinfrapb.NetRx v))
            then "could not get network bytes; both BytesReceived and BytesSent are set"
            else "could not get network bytes; neither BytesReceived and BytesSent is set")
           []))
    end.
Proof.
  unfold getNetworkBytesFromComponentStats, network_bytes, exactly_one.
  destruct (execinfrapb.BytesReceived _), (execinfrapb.BytesSent _); reflexivity.
Qed.

Lemma getNumNetworkMessagesFromComponentsStats_spec v :
  getNumNetworkMessagesFromComponentsStats v =
    match network_messages v with
    | Some x => (x, None)
    | None =>
        (0, Some (Errorf
           (if optional.HasValue (execinfrapb.MessagesReceived (execinfrapb.NetRx v))
            then "could not get network messages; both MessagesReceived and MessagesSent are set"
            else "could not get network messages; neither MessagesReceived and MessagesSent is set")
           []))
    end.
Proof.
  unfold getNumNetworkMessagesFromComponentsStats, network_messages, exactly_one.
  destruct (execinfrapb.MessagesReceived _), (execinfrapb.MessagesSent _); reflexivity.
Qed.

(** ** Closed forms of the three node-level loops *)

Lemma ProcessStats_processor_loop nls l :
  foldl ProcessStats_processor nls l =
    mkNodeLevelStats
      (NetworkBytesSentGroupedByNode nls)
      (MaxMemoryUsageGroupedByNode nls)
      (foldl (incr_with (processor_c kv_bytes_read)) (KVBytesReadGroupedByNode nls) l)
      (foldl (incr_with (processor_c kv_rows_read)) (KVRowsReadGroupedByNode nls) l)
      (foldl (incr_with (processor_c kv_time)) (KVTimeGroupedByNode nls) l)
      (NetworkMessagesGroupedByNode nls)
      (foldl (incr_with (processor_c contention_time)) (ContentionTimeGroupedByNode nls) l).
Proof.
  revert nls. induction l as [|[k [n [s|]]] l IH]; intros nls.
  - by destruct nls.
  - cbn [foldl]. rewrite IH. reflexivity.
  - cbn [foldl]. rewrite IH. reflexivity.
Qed.

Lemma ProcessStats_maxMemUsage_spec node v nls :
  ProcessStats_maxMemUsage node v nls =
    mkNodeLevelStats
      (NetworkBytesSentGroupedByNode nls)
      (raise_with flow_c (MaxMemoryUsageGroupedByNode nls) (node, v))
      (KVBytesReadGroupedByNode nls) (KVRowsReadGroupedByNode nls)
      (KVTimeGroupedByNode nls) (NetworkMessagesGroupedByNode nls)
      (ContentionTimeGroupedByNode nls).
Proof.
  unfold ProcessStats_maxMemUsage, raise_with, flow_c, peak_memory.
  destruct nls. simpl. by destruct (execinfrapb.MaxMemUsage _).
Qed.

Lemma ProcessStats_stream_step nls errs (e : Z * streamStats) :
  ProcessStats_stream (nls, errs) e =
    (mkNodeLevelStats
       (incr_with (stream_c network_bytes) (NetworkBytesSentGroupedByNode nls) e)
       (raise_with (stream_c peak_memory) (MaxMemoryUsageGroupedByNode nls) e)
       (KVBytesReadGroupedByNode nls) (KVRowsReadGroupedByNode nls)
       (KVTimeGroupedByNode nls)
       (incr_with (stream_c network_messages) (NetworkMessagesGroupedByNode nls) e)
       (ContentionTimeGroupedByNode nls),
     combine_all errs (default [] (stream_errors <$> ss_stats e.2))).
Proof.
  destruct e as [k [o d [v|]]], nls; [| reflexivity].
  unfold ProcessStats_stream, ProcessStats_stream_bytes, ProcessStats_stream_messages,
    stream_errors, incr_with, raise_with, stream_c.
  cbn [snd fst ss_stats ss_originNodeID mbind option_bind default fmap option_fmap option_map].
  rewrite ProcessStats_maxMemUsage_spec.
  rewrite getNetworkBytesFromComponentStats_spec, getNumNetworkMessagesFromComponentsStats_spec.
  unfold raise_with, flow_c. cbn [snd fst].
  destruct (network_bytes v), (network_messages v), (peak_memory v); reflexivity.
Qed.

Lemma combine_all_app errs l1 l2 :
  combine_all errs (l1 ++ l2) = combine_all (combine_all errs l1) l2.
Proof. apply foldl_app. Qed.

Lemma ProcessStats_stream_loop nls errs l :
  foldl ProcessStats_stream (nls, errs) l =
    (mkNodeLevelStats
       (foldl (incr_with (stream_c network_bytes)) (NetworkBytesSentGroupedByNode nls) l)
       (foldl (raise_with (stream_c peak_memory)) (MaxMemoryUsageGroupedByNode nls) l)
       (KVBytesReadGroupedByNode nls) (KVRowsReadGroupedByNode nls)
       (KVTimeGroupedByNode nls)
       (foldl (incr_with (stream_c network_messages)) (NetworkMessagesGroupedByNode nls) l)
       (ContentionTimeGroupedByNode nls),
     combine_all errs (streams_errors l)).
Proof.
  revert nls errs. induction l as [|e l IH]; intros nls errs.
  - by destruct nls.
  - cbn [foldl]. rewrite ProcessStats_stream_step, IH. cbn [NetworkBytesSentGroupedByNode
      MaxMemoryUsageGroupedByNode KVBytesReadGroupedByNode KVRowsReadGroupedByNode
      KVTimeGroupedByNode NetworkMessagesGroupedByNode ContentionTimeGroupedByNode].
    f_equal. unfold streams_errors. rewrite omap_cons_eq.
    destruct (ss_stats e.2) as [v|]; [| reflexivity].
    cbn [fmap option_fmap option_map default]. rewrite bind_cons.
    by rewrite combine_all_app.
Qed.

Lemma ProcessStats_maxMemUsage_loop nodeID bags nls :
  foldl (λ nls v, ProcessStats_maxMemUsage nodeID v nls) nls bags =
    mkNodeLevelStats
      (NetworkBytesSentGroupedByNode nls)
      (foldl (raise_with flow_c) (MaxMemoryUsageGroupedByNode nls)
             ((λ v, (nodeID, v)) <$> bags))
      (KVBytesReadGroupedByNode nls) (KVRowsReadGroupedByNode nls)
      (KVTimeGroupedByNode nls) (NetworkMessagesGroupedByNode nls)
      (ContentionTimeGroupedByNode nls).
Proof.
  revert nls. induction bags as [|v bags IH]; intros nls.
  - by destruct nls.
  - cbn [foldl]. rewrite IH, ProcessStats_maxMemUsage_spec. reflexivity.
Qed.

Lemma ProcessStats_flow_loop nls l :
  foldl ProcessStats_flow nls l =
    mkNodeLevelStats
      (NetworkBytesSentGroupedByNode nls)
      (foldl (raise_with flow_c) (MaxMemoryUsageGroupedByNode nls) (slot_bags l))
      (KVBytesReadGroupedByNode nls) (KVRowsReadGroupedByNode nls)
      (KVTimeGroupedByNode nls) (NetworkMessagesGroupedByNode nls)
      (ContentionTimeGroupedByNode nls).
Proof.
  revert nls. induction l as [|[nodeID [bags]] l IH]; intros nls.
  - by destruct nls.
  - cbn [foldl]. rewrite IH. unfold ProcessStats_flow. cbn [fs_stats].
    rewrite ProcessStats_maxMemUsage_loop.
    unfold slot_bags. rewrite bind_cons, foldl_app. reflexivity.
Qed.

(** The node-level series and error of a topology, loop by loop. *)
Lemma ProcessStats_node_loops `{MapRange} fm :
  ProcessStats_node fm =
    (mkNodeLevelStats
       (foldl (incr_with (stream_c network_bytes)) ∅ (range 216 (fm_streamStats fm)))
       (foldl (raise_with flow_c)
          (foldl (raise_with (stream_c peak_memory)) ∅ (range 216 (fm_streamStats fm)))
          (slot_bags (range 251 (fm_flowStats fm))))
       (foldl (incr_with (processor_c kv_bytes_read)) ∅ (range 205 (fm_processorStats fm)))
       (foldl (incr_with (processor_c kv_rows_read)) ∅ (range 205 (fm_processorStats fm)))
       (foldl (incr_with (processor_c kv_time)) ∅ (range 205 (fm_processorStats fm)))
       (foldl (incr_with (stream_c network_messages)) ∅ (range 216 (fm_streamStats fm)))
       (foldl (incr_with (processor_c contention_time)) ∅ (range 205 (fm_processorStats fm))),
     combine_all None (streams_errors (range 216 (fm_streamStats fm)))).
Proof.
  unfold ProcessStats_node.
  rewrite ProcessStats_processor_loop, ProcessStats_stream_loop, ProcessStats_flow_loop.
  reflexivity.
Qed.

(** ** From the loops to the bags of a node *)

Lemma omap_ext_eq {A B} (f g : A → option B) (l : list A) :
  (∀ x, f x = g x) → omap f l = omap g l.
Proof.
  intros Hfg. induction l as [|x l IH]; [done |].
  by rewrite !omap_cons_eq, Hfg, IH.
Qed.

Lemma omap_omap {A B C} (f : A → option B) (g : B → option C) (l : list A) :
  omap g (omap f l) = omap (λ x, f x ≫= g) l.
Proof.
  induction l as [|x l IH]; [done |].
  rewrite !omap_cons_eq. destruct (f x); [rewrite omap_cons_eq |]; by rewrite IH.
Qed.

Lemma at_key_processor f n (l : list (Z * processorStats)) :
  omap (at_key (processor_c f) n) l =
    f <$> omap (λ e : Z * processorStats,
                  if decide (ps_nodeID e.2 = n) then ps_stats e.2 else None) l.
Proof.
  rewrite list_fmap_omap. apply omap_ext_eq. intros [k [o [s|]]];
    unfold at_key, processor_c; cbn; by destruct (decide (o = n)).
Qed.

Lemma at_key_stream pick n (l : list (Z * streamStats)) :
  omap (at_key (stream_c pick) n) l =
    omap pick (omap (λ e : Z * streamStats,
                       if decide (ss_originNodeID e.2 = n) then ss_stats e.2 else None) l).
Proof.
  rewrite omap_omap. apply omap_ext_eq. intros [k [o d [v|]]];
    unfold at_key, stream_c; cbn; [| by destruct (decide (o = n))].
  destruct (decide (o = n)); cbn; destruct (pick v); cbn; [by rewrite decide_True | done | |done].
  by rewrite decide_False.
Qed.

Lemma at_key_slot n k (bags : list execinfrapb.ComponentStats) :
  omap (at_key flow_c n) ((λ v, (k, v)) <$> bags) =
    omap peak_memory (if decide (k = n) then bags else []).
Proof.
  destruct (decide (k = n)) as [Hk | Hk]; induction bags as [|v bags IH]; try done.
  - rewrite fmap_cons, !omap_cons_eq, IH. unfold at_key, flow_c. cbn.
    destruct (peak_memory v); cbn; [by rewrite decide_True | done].
  - rewrite fmap_cons, !omap_cons_eq, IH. unfold at_key, flow_c. cbn.
    destruct (peak_memory v); cbn; [by rewrite decide_False | done].
Qed.

Lemma at_key_flow n (l : list (Z * flowStats)) :
  omap (at_key flow_c n) (slot_bags l) =
    omap peak_memory (l ≫= λ e, if decide (e.1 = n) then fs_stats e.2 else []).
Proof.
  induction l as [|[k [bags]] l IH]; [done |].
  unfold slot_bags in *. rewrite !bind_cons, !omap_app, IH. f_equal.
  apply at_key_slot.
Qed.

(** In an enumeration of a map, the entries under key [n] are the one
    the map holds there. *)
Lemma slot_of_enumeration (m : gmap Z flowStats) (l : list (Z * flowStats)) n :
  l ≡ₚ map_to_list m →
  (l ≫= λ e, if decide (e.1 = n) then fs_stats e.2 else []) =
    default [] (fs_stats <$> m !! n).
Proof.
  intros Hl.
  assert (NoDup l.*1) as Hnd by (rewrite Hl; apply NoDup_fst_map_to_list).
  assert (∀ k s, (k, s) ∈ l ↔ m !! k = Some s) as Hin
    by (intros k s; rewrite Hl; apply elem_of_map_to_list).
  clear Hl. revert m Hin. induction l as [|[k s] l IH]; intros m Hin.
  - destruct (m !! n) as [s|] eqn:Hs; [| done].
    apply Hin in Hs. by apply elem_of_nil in Hs.
  - rewrite bind_cons. cbn [fst snd]. apply NoDup_cons in Hnd as [Hk Hnd].
    specialize (IH Hnd (delete k m)).
    rewrite IH.
    + destruct (decide (k = n)) as [-> |].
      * rewrite lookup_delete_eq. rewrite (proj1 (Hin n s)) by left.
        simpl. by rewrite app_nil_r.
      * by rewrite lookup_delete_ne.
    + intros k' s'. rewrite lookup_delete_Some, <-Hin, elem_of_cons. split.
      * intros Hks. split; [| by right].
        intros ->. apply Hk. apply list_elem_of_fmap. by exists (k', s').
      * intros [Hne [[= -> ->] | Hks]]; done.
Qed.

(** ** Combined errors *)

Lemma combine_all_Some_keeps e0 c l :
  occurs_in e0 c → ∃ e, combine_all (Some e0) l = Some e ∧ occurs_in e c.
Proof.
  revert e0. induction l as [|x l IH]; intros e0 Hc.
  - by exists e0.
  - cbn. apply IH. by apply occurs_primary.
Qed.

Lemma combine_all_records errs l c :
  c ∈ l → ∃ e, combine_all errs l = Some e ∧ occurs_in e c.
Proof.
  revert errs. induction l as [|x l IH]; intros errs Hc.
  - by apply elem_of_nil in Hc.
  - apply elem_of_cons in Hc as [-> | Hc]; [| by apply IH].
    cbn. destruct errs as [e0|]; cbn.
    + apply combine_all_Some_keeps. apply occurs_secondary, occurs_refl.
    + apply combine_all_Some_keeps, occurs_refl.
Qed.

Lemma combine_all_None errs l : combine_all errs l = None ↔ errs = None ∧ l = [].
Proof.
  split; [| by intros [-> ->]].
  destruct l as [|x l]; [by intros Hn |].
  intros Hn. destruct (combine_all_records errs (x :: l) x) as (e & He & _); [by left |].
  congruence.
Qed.

Lemma stream_errors_nil v :
  stream_errors v = [] ↔ is_Some (network_bytes v) ∧ is_Some (network_messages v).
Proof.
  unfold stream_errors.
  rewrite getNetworkBytesFromComponentStats_spec, getNumNetworkMessagesFromComponentsStats_spec.
  destruct (network_bytes v), (network_messages v); cbn; split;
    try done; intros [[? ?] [? ?]]; done.
Qed.

(** ** The node-level series of a topology *)

Section node_level.
Context `{MapRange}.
Implicit Types (fm : FlowMetadata) (n : Z).

Lemma int64_get_empty n : int64 (get ∅ n) = get ∅ n.
Proof. by rewrite get_empty. Qed.

Lemma processor_series f fm n :
  get (foldl (incr_with (processor_c f)) ∅ (range 205 (fm_processorStats fm))) n =
    int64 (Zsum (f <$> processor_bags fm n)).
Proof.
  rewrite get_incr_with by apply int64_get_empty.
  rewrite get_empty, Z.add_0_l, at_key_processor. f_equal.
  unfold processor_bags, range. by rewrite range_order_perm.
Qed.

Lemma processor_series_dom f fm n :
  is_Some (foldl (incr_with (processor_c f)) ∅ (range 205 (fm_processorStats fm)) !! n)
  ↔ processor_bags fm n ≠ [].
Proof.
  rewrite lookup_incr_with_is_Some, lookup_empty. split.
  - intros [[? [=]] | (e & He & Hc)] Hnil.
    unfold range in He. rewrite range_order_perm in He.
    unfold at_key, processor_c in Hc.
    destruct (ps_stats e.2) as [s|] eqn:Hs; cbn in Hc; [| by destruct Hc].
    destruct (decide (ps_nodeID e.2 = n)) as [Hn|]; [| by destruct Hc].
    assert (s ∈ processor_bags fm n) as Hin.
    { apply list_elem_of_omap. exists e. split; [done |]. by rewrite decide_True. }
    rewrite Hnil in Hin. by apply elem_of_nil in Hin.
  - intros Hne. right.
    destruct (processor_bags fm n) as [|s l] eqn:Hb; [done |].
    assert (s ∈ processor_bags fm n) as Hin by (rewrite Hb; left).
    apply list_elem_of_omap in Hin as (e & He & Hs).
    exists e. split; [unfold range; by rewrite range_order_perm |].
    unfold at_key, processor_c.
    destruct (decide (ps_nodeID e.2 = n)) as [Hn|]; [| done].
    rewrite Hs. cbn. by rewrite decide_True.
Qed.

Lemma stream_series pick fm n :
  get (foldl (incr_with (stream_c pick)) ∅ (range 216 (fm_streamStats fm))) n =
    int64 (Zsum (omap pick (stream_bags fm n))).
Proof.
  rewrite get_incr_with by apply int64_get_empty.
  rewrite get_empty, Z.add_0_l, at_key_stream. f_equal.
  unfold stream_bags, range. by rewrite range_order_perm.
Qed.

Lemma max_memory_series fm n :
  get (foldl (raise_with flow_c)
         (foldl (raise_with (stream_c peak_memory)) ∅ (range 216 (fm_streamStats fm)))
         (slot_bags (range 251 (fm_flowStats fm)))) n =
    Zmax_from 0 (omap peak_memory (stream_bags fm n ++ flow_bags fm n)).
Proof.
  rewrite !get_raise_with, get_empty, at_key_stream, at_key_flow.
  rewrite (slot_of_enumeration (fm_flowStats fm)) by apply range_order_perm.
  rewrite <-Zmax_from_app, omap_app.
  unfold stream_bags, flow_bags, range.
  rewrite range_order_perm. apply Zmax_from_Permutation, Permutation_app_comm.
Qed.

Lemma max_memory_series_positive fm :
  map_Forall (λ _ v, 0 < v)
    (foldl (raise_with flow_c)
       (foldl (raise_with (stream_c peak_memory)) ∅ (range 216 (fm_streamStats fm)))
       (slot_bags (range 251 (fm_flowStats fm)))).
Proof. do 2 apply raise_with_positive. apply map_Forall_empty. Qed.

Lemma node_errors fm :
  (ProcessStats_node fm).2 = None ↔
    ∀ v, v ∈ present_stream_bags fm →
         is_Some (network_bytes v) ∧ is_Some (network_messages v).
Proof.
  rewrite ProcessStats_node_loops. cbn [snd]. rewrite combine_all_None.
  unfold streams_errors, present_stream_bags, range. split.
  - intros [_ Hnil] v Hv. apply stream_errors_nil.
    rewrite <-(range_order_perm 216) in Hv.
    destruct (stream_errors v) as [|x l] eqn:Hx; [done |].
    assert (x ∈ @nil error) as Hin; [| by apply elem_of_nil in Hin].
    rewrite <-Hnil. apply list_elem_of_bind. exists v. split; [| done].
    rewrite Hx. by left.
  - intros Hall. split; [done |].
    destruct (_ ≫= stream_errors) as [|x l] eqn:Hx; [done |].
    assert (x ∈ x :: l) as Hin by left. rewrite <-Hx in Hin.
    apply list_elem_of_bind in Hin as (v & Hxv & Hv).
    rewrite (range_order_perm 216) in Hv.
    apply Hall, stream_errors_nil in Hv. rewrite Hv in Hxv.
    by apply elem_of_nil in Hxv.
Qed.

Lemma node_error_recorded fm v c :
  v ∈ present_stream_bags fm → c ∈ stream_errors v →
  ∃ e, (ProcessStats_node fm).2 = Some e ∧ occurs_in e c.
Proof.
  intros Hv Hc. rewrite ProcessStats_node_loops. cbn [snd].
  apply combine_all_records. unfold streams_errors.
  apply list_elem_of_bind. exists v. split; [done |].
  unfold range. by rewrite range_order_perm.
Qed.

(** [ProcessStats] on a valid topology pointer. *)
Lemma ProcessStats_valid h a fm :
  h !! ta_FlowMetadata a = Some fm →
  ProcessStats h a =
    Some (mkTraceAnalyzer (ta_FlowMetadata a) (ProcessStats_node fm).1
            (ProcessStats_query (ProcessStats_node fm).1),
          (ProcessStats_node fm).2).
Proof.
  intros Hfm. unfold ProcessStats. rewrite Hfm. cbn.
  by destruct (ProcessStats_node fm).
Qed.
End node_level.

(** ** Node-level aggregation *)

(** A count below [2^63] is read unchanged by the conversion to [int64]:
    the values summed and compared are then the values of the bags. *)
Lemma peak_memory_small v x :
  execinfrapb.MaxMemUsage (execinfrapb.FlowStats v) = Some x →
  0 ≤ x < 2 ^ 63 → peak_memory v = Some x.
Proof.
  intros Hx Hrange. unfold peak_memory. rewrite Hx. cbn. f_equal. apply int64_small. lia.
Qed.

Lemma exactly_one_small received sent x :
  exactly_one received sent = Some x →
  (∀ y, received = Some y → 0 ≤ y < 2 ^ 63) →
  (∀ y, sent = Some y → 0 ≤ y < 2 ^ 63) →
  (received = Some x ∧ sent = None) ∨ (received = None ∧ sent = Some x).
Proof.
  intros Hx Hr Hs. destruct received as [r|], sent as [t|]; try done;
    injection Hx as <-; [left | right]; rewrite int64_small; auto;
    [specialize (Hr r eq_refl) | specialize (Hs t eq_refl)]; lia.
Qed.

(** C7: for every node, each of the four processor-sourced series
    (kv-bytes-read, kv-rows-read, kv-time, contention-time) holds the sum
    (an [int64] sum) of that field over the processors owned by the node
    whose bag is present; a processor with an absent bag is skipped: it
    adds no entry for its node (the node is a key of the series only when
    one of its processors has a bag), and it is not an error (with no
    stream bag the returned error is nil). *)
Theorem ProcessStats_processor_sums `{MapRange} (h : heap) (a : TraceAnalyzer)
    (fm : FlowMetadata) (n : Z) :
  h !! ta_FlowMetadata a = Some fm →
  ∃ a' errs, ProcessStats h a = Some (a', errs) ∧
    get (KVBytesReadGroupedByNode (nodeLevelStats a')) n
      = int64 (Zsum (kv_bytes_read <$> processor_bags fm n)) ∧
    get (KVRowsReadGroupedByNode (nodeLevelStats a')) n
      = int64 (Zsum (kv_rows_read <$> processor_bags fm n)) ∧
    get (KVTimeGroupedByNode (nodeLevelStats a')) n
      = int64 (Zsum (kv_time <$> processor_bags fm n)) ∧
    get (ContentionTimeGroupedByNode (nodeLevelStats a')) n
      = int64 (Zsum (contention_time <$> processor_bags fm n)) ∧
    (is_Some (KVBytesReadGroupedByNode (nodeLevelStats a') !! n)
       ↔ processor_bags fm n ≠ []) ∧
    (is_Some (KVRowsReadGroupedByNode (nodeLevelStats a') !! n)
       ↔ processor_bags fm n ≠ []) ∧
    (is_Some (KVTimeGroupedByNode (nodeLevelStats a') !! n)
       ↔ processor_bags fm n ≠ []) ∧
    (is_Some (ContentionTimeGroupedByNode (nodeLevelStats a') !! n)
       ↔ processor_bags fm n ≠ []) ∧
    (present_stream_bags fm = [] → errs = None).
Proof.
  intros Hfm. eexists _, _. split; [by apply ProcessStats_valid |].
  pose proof (node_errors fm) as Herrs.
  cbn [nodeLevelStats]. rewrite ProcessStats_node_loops in *. cbn [fst snd
    KVBytesReadGroupedByNode KVRowsReadGroupedByNode KVTimeGroupedByNode
    ContentionTimeGroupedByNode] in *.
  rewrite !processor_series, !processor_series_dom.
  repeat split; try done.
  intros Hnone. apply Herrs.
  intros v Hv. rewrite Hnone in Hv. by apply elem_of_nil in Hv.
Qed.

(** Processors with kv-bytes-read 10 and 15 and a third with an absent
    bag, all on node 1: the node total is 25, and no error. *)
Lemma ProcessStats_processor_sums_witness :
  ∃ a' errs,
    ProcessStats (H := canonical_range) {[ 0%nat := Examples.three_processors ]}
      (MakeTraceAnalyzer 0) = Some (a', errs) ∧
    get (KVBytesReadGroupedByNode (nodeLevelStats a')) 1 = 25 ∧
    KVBytesReadGroupedByNode (nodeLevelStats a') !! 2 = None ∧
    errs = None.
Proof.
  destruct (ProcessStats_processor_sums (H := canonical_range)
              {[ 0%nat := Examples.three_processors ]} (MakeTraceAnalyzer 0)
              Examples.three_processors 1 (lookup_singleton_eq _ _))
    as (a' & errs & Hrun & Hbytes & _ & _ & _ & _ & _ & _ & _ & Herrs).
  exists a', errs. split; [exact Hrun |]. split; [rewrite Hbytes; reflexivity |].
  split; [| apply Herrs; reflexivity].
  vm_compute in Hrun. injection Hrun as <- _. reflexivity.
Defined.

(** C3: for every stream bag processed by the node-level aggregation,
    when exactly one of bytesReceived and bytesSent is present its value
    is added to the network-bytes-sent total of the origin node (the
    total of a node is the [int64] sum over the bags of its streams that
    satisfy the rule); when both or neither are present the bag adds
    nothing to that total and an error is recorded in the returned error.
    The same holds, independently, for messagesReceived and messagesSent
    and the network-messages total.  The pass always completes:
    [ProcessStats] returns the populated analyzer together with the
    error, which is nil exactly when every stream bag satisfies both
    rules. *)
Theorem ProcessStats_network_exclusivity `{MapRange} (h : heap) (a : TraceAnalyzer)
    (fm : FlowMetadata) :
  h !! ta_FlowMetadata a = Some fm →
  ∃ a' errs, ProcessStats h a = Some (a', errs) ∧
    (∀ n, get (NetworkBytesSentGroupedByNode (nodeLevelStats a')) n
            = int64 (Zsum (omap network_bytes (stream_bags fm n)))) ∧
    (∀ n, get (NetworkMessagesGroupedByNode (nodeLevelStats a')) n
            = int64 (Zsum (omap network_messages (stream_bags fm n)))) ∧
    (∀ v, v ∈ present_stream_bags fm → network_bytes v = None →
          ∃ err e, (getNetworkBytesFromComponentStats v).2 = Some err ∧
                   errs = Some e ∧
                   occurs_in e (Wrap err "error calculating network bytes sent")) ∧
    (∀ v, v ∈ present_stream_bags fm → network_messages v = None →
          ∃ err e, (getNumNetworkMessagesFromComponentsStats v).2 = Some err ∧
                   errs = Some e ∧
                   occurs_in e (Wrap err "error calculating number of network messages")) ∧
    (errs = None ↔
       ∀ v, v ∈ present_stream_bags fm →
            is_Some (network_bytes v) ∧ is_Some (network_messages v)) ∧
    queryLevelStats a' = ProcessStats_query (nodeLevelStats a').
Proof.
  intros Hfm. eexists _, _. split; [by apply ProcessStats_valid |].
  cbn [nodeLevelStats queryLevelStats].
  split_and!; [| | | | apply node_errors | done].
  - intros n. rewrite ProcessStats_node_loops. apply stream_series.
  - intros n. rewrite ProcessStats_node_loops. apply stream_series.
  - intros v Hv Hbytes.
    pose proof (getNetworkBytesFromComponentStats_spec v) as Hspec.
    rewrite Hbytes in Hspec.
    destruct (node_error_recorded fm v
                (Wrap (Errorf
                   (if optional.HasValue (execinfrapb.BytesReceived (execinfrapb.NetRx v))
                    then "could not get network bytes; both BytesReceived and BytesSent are set"
                    else "could not get network bytes; neither BytesReceived and BytesSent is set")
                   []) "error calculating network bytes sent")) as (e & He & Hocc);
      [done | unfold stream_errors; rewrite Hspec; cbn; by left |].
    eexists _, e. by rewrite Hspec.
  - intros v Hv Hmsgs.
    pose proof (getNumNetworkMessagesFromComponentsStats_spec v) as Hspec.
    rewrite Hmsgs in Hspec.
    destruct (node_error_recorded fm v
                (Wrap (Errorf
                   (if optional.HasValue (execinfrapb.MessagesReceived (execinfrapb.NetRx v))
                    then "could not get network messages; both MessagesReceived and MessagesSent are set"
                    else "could not get network messages; neither MessagesReceived and MessagesSent is set")
                   []) "error calculating number of network messages")) as (e & He & Hocc);
      [done | unfold stream_errors; rewrite Hspec; cbn | ].
    + apply elem_of_app. right. by left.
    + eexists _, e. by rewrite Hspec.
Qed.

(** A stream from node 1 with both byte counts present and only the sent
    message count (4): nothing is added to the bytes of node 1, the 4
    messages are, and the returned error is not nil. *)
Lemma ProcessStats_network_exclusivity_witness :
  ∃ a' errs,
    ProcessStats (H := canonical_range) {[ 0%nat := Examples.stream_and_slot ]}
      (MakeTraceAnalyzer 0) = Some (a', errs) ∧
    get (NetworkBytesSentGroupedByNode (nodeLevelStats a')) 1 = 0 ∧
    get (NetworkMessagesGroupedByNode (nodeLevelStats a')) 1 = 4 ∧
    errs ≠ None.
Proof.
  destruct (ProcessStats_network_exclusivity (H := canonical_range)
              {[ 0%nat := Examples.stream_and_slot ]} (MakeTraceAnalyzer 0)
              Examples.stream_and_slot (lookup_singleton_eq _ _))
    as (a' & errs & Hrun & Hbytes & Hmsgs & _ & _ & Herrs & _).
  exists a', errs. split; [exact Hrun |].
  split; [rewrite Hbytes; reflexivity |]. split; [rewrite Hmsgs; reflexivity |].
  vm_compute in Hrun. injection Hrun as _ <-. discriminate.
Defined.

(** C4: for every node, the max-memory-usage value is the maximum, from
    zero, of the present peak-memory values (read as [int64]) of both
    sources: the flow sub-bags of the streams originating at the node and
    the entries of the node's flow-slot list.  It bounds each of them and
    is one of them unless all are negative or none is present, when it is
    zero. *)
Theorem ProcessStats_max_memory `{MapRange} (h : heap) (a : TraceAnalyzer)
    (fm : FlowMetadata) (n : Z) :
  h !! ta_FlowMetadata a = Some fm →
  ∃ a' errs, ProcessStats h a = Some (a', errs) ∧
    get (MaxMemoryUsageGroupedByNode (nodeLevelStats a')) n
      = Zmax_from 0 (omap peak_memory (stream_bags fm n ++ flow_bags fm n)) ∧
    (∀ x, x ∈ omap peak_memory (stream_bags fm n ++ flow_bags fm n) →
          x ≤ get (MaxMemoryUsageGroupedByNode (nodeLevelStats a')) n) ∧
    (get (MaxMemoryUsageGroupedByNode (nodeLevelStats a')) n
       ∈ omap peak_memory (stream_bags fm n ++ flow_bags fm n)
     ∨ get (MaxMemoryUsageGroupedByNode (nodeLevelStats a')) n = 0).
Proof.
  intros Hfm. eexists _, _. split; [by apply ProcessStats_valid |].
  cbn [nodeLevelStats]. rewrite ProcessStats_node_loops.
  cbn [fst MaxMemoryUsageGroupedByNode]. rewrite max_memory_series.
  split_and!; [done | apply Zmax_from_upper |].
  destruct (Zmax_from_attained 0 (omap peak_memory (stream_bags fm n ++ flow_bags fm n)));
    [by right | by left].
Qed.

(** A stream sub-bag of peak 50 and a flow-slot entry of peak 80 on node 1
    give 80 (and not 130). *)
Lemma ProcessStats_max_memory_witness :
  ∃ a' errs,
    ProcessStats (H := canonical_range) {[ 0%nat := Examples.stream_and_slot ]}
      (MakeTraceAnalyzer 0) = Some (a', errs) ∧
    get (MaxMemoryUsageGroupedByNode (nodeLevelStats a')) 1 = 80.
Proof.
  destruct (ProcessStats_max_memory (H := canonical_range)
              {[ 0%nat := Examples.stream_and_slot ]} (MakeTraceAnalyzer 0)
              Examples.stream_and_slot 1 (lookup_singleton_eq _ _))
    as (a' & errs & Hrun & Hmax & _).
  exists a', errs. split; [exact Hrun |]. rewrite Hmax. reflexivity.
Defined.

(** C9: the three per-stream metrics are computed independently.  In the
    body of the stream loop, for a stream whose bag is present, each
    series changes according to its own fields only: the bytes are added
    when exactly one byte count is present, whatever the message counts
    are; the messages are added when exactly one message count is
    present, whatever the byte counts are; and the peak memory of the
    flow sub-bag, when present, raises the node's maximum whatever the
    byte and message counts are.  Over a whole pass, every stream bag
    that satisfies one rule has that value among those summed for its
    origin node, and its peak memory, when present, is bounded by the
    node's maximum. *)
Theorem ProcessStats_stream_metrics_independent :
  (∀ (nls : NodeLevelStats) (errs : option error) (k origin dest : Z)
     (v : execinfrapb.ComponentStats),
     let st := ProcessStats_stream (nls, errs) (k, mkStreamStats origin dest (Some v)) in
     NetworkBytesSentGroupedByNode st.1
       = match network_bytes v with
         | Some x => incr (NetworkBytesSentGroupedByNode nls) origin x
         | None => NetworkBytesSentGroupedByNode nls
         end ∧
     NetworkMessagesGroupedByNode st.1
       = match network_messages v with
         | Some x => incr (NetworkMessagesGroupedByNode nls) origin x
         | None => NetworkMessagesGroupedByNode nls
         end ∧
     MaxMemoryUsageGroupedByNode st.1
       = match peak_memory v with
         | Some x => raise (MaxMemoryUsageGroupedByNode nls) origin x
         | None => MaxMemoryUsageGroupedByNode nls
         end) ∧
  (∀ (R : MapRange) (h : heap) (a : TraceAnalyzer) (fm : FlowMetadata),
     h !! ta_FlowMetadata a = Some fm →
     ∃ a' errs, ProcessStats h a = Some (a', errs) ∧
       ∀ k s v, fm_streamStats fm !! k = Some s → ss_stats s = Some v →
         (∀ x, network_bytes v = Some x →
               x ∈ omap network_bytes (stream_bags fm (ss_originNodeID s)) ∧
               get (NetworkBytesSentGroupedByNode (nodeLevelStats a')) (ss_originNodeID s)
                 = int64 (Zsum (omap network_bytes (stream_bags fm (ss_originNodeID s))))) ∧
         (∀ x, network_messages v = Some x →
               x ∈ omap network_messages (stream_bags fm (ss_originNodeID s)) ∧
               get (NetworkMessagesGroupedByNode (nodeLevelStats a')) (ss_originNodeID s)
                 = int64 (Zsum (omap network_messages (stream_bags fm (ss_originNodeID s))))) ∧
         (∀ x, peak_memory v = Some x →
               x ≤ get (MaxMemoryUsageGroupedByNode (nodeLevelStats a')) (ss_originNodeID s))).
Proof.
  split.
  - intros nls errs k origin dest v st. subst st.
    rewrite ProcessStats_stream_step. cbn [fst NetworkBytesSentGroupedByNode
      NetworkMessagesGroupedByNode MaxMemoryUsageGroupedByNode].
    unfold incr_with, raise_with, stream_c. cbn [snd ss_stats ss_originNodeID mbind option_bind].
    by destruct (network_bytes v), (network_messages v), (peak_memory v).
  - intros R h a fm Hfm. eexists _, _. split; [by apply ProcessStats_valid |].
    intros k s v Hs Hv. cbn [nodeLevelStats]. rewrite ProcessStats_node_loops.
    cbn [fst NetworkBytesSentGroupedByNode NetworkMessagesGroupedByNode
      MaxMemoryUsageGroupedByNode].
    rewrite !stream_series, max_memory_series.
    assert (v ∈ stream_bags fm (ss_originNodeID s)) as Hin.
    { apply list_elem_of_omap. exists (k, s). split; [by apply elem_of_map_to_list |].
      cbn. by rewrite decide_True. }
    split_and!.
    + intros x Hx. split; [| done]. apply list_elem_of_omap. by exists v.
    + intros x Hx. split; [| done]. apply list_elem_of_omap. by exists v.
    + intros x Hx. apply Zmax_from_upper. rewrite omap_app. apply elem_of_app. left.
      apply list_elem_of_omap. by exists v.
Qed.

(** The stream of [Examples.stream_and_slot] violates the rule on bytes
    and satisfies the rule on messages: its 4 messages are counted and
    its peak memory (50) is bounded by the maximum of node 1. *)
Lemma ProcessStats_stream_metrics_independent_witness :
  ∃ a' errs,
    ProcessStats (H := canonical_range) {[ 0%nat := Examples.stream_and_slot ]}
      (MakeTraceAnalyzer 0) = Some (a', errs) ∧
    get (NetworkMessagesGroupedByNode (nodeLevelStats a')) 1 = 4 ∧
    50 ≤ get (MaxMemoryUsageGroupedByNode (nodeLevelStats a')) 1.
Proof.
  destruct (proj2 ProcessStats_stream_metrics_independent canonical_range
              {[ 0%nat := Examples.stream_and_slot ]} (MakeTraceAnalyzer 0)
              Examples.stream_and_slot (lookup_singleton_eq _ _))
    as (a' & errs & Hrun & Hall).
  exists a', errs. split; [exact Hrun |].
  destruct (Hall 7 _ _ (lookup_singleton_eq _ _) eq_refl) as (_ & Hmsgs & Hpeak).
  split.
  - destruct (Hmsgs 4 eq_refl) as [_ Hm]. exact (eq_trans Hm eq_refl).
  - exact (Hpeak 50 eq_refl).
Defined.

(** ** Query-level reduction *)

(** C1: the query-level scalars are reductions of the node-keyed series:
    NetworkBytesSent, KVBytesRead, KVRowsRead, KVTime and NetworkMessages
    are the ([int64]) sums of their series over all nodes; MaxMemUsage is
    the maximum of the max-memory series (it bounds every entry and, when
    the series is not empty, is one of its entries; it is zero when the
    series is empty); and ContentionTime is the sum of the kv-time
    series, hence equal to KVTime, not the sum of the contention-time
    series. *)
Theorem ProcessStats_query_level `{MapRange} (h : heap) (a : TraceAnalyzer)
    (fm : FlowMetadata) :
  h !! ta_FlowMetadata a = Some fm →
  ∃ a' errs, ProcessStats h a = Some (a', errs) ∧
    NetworkBytesSent (queryLevelStats a')
      = int64 (Zsum (values (NetworkBytesSentGroupedByNode (nodeLevelStats a')))) ∧
    KVBytesRead (queryLevelStats a')
      = int64 (Zsum (values (KVBytesReadGroupedByNode (nodeLevelStats a')))) ∧
    KVRowsRead (queryLevelStats a')
      = int64 (Zsum (values (KVRowsReadGroupedByNode (nodeLevelStats a')))) ∧
    KVTime (queryLevelStats a')
      = int64 (Zsum (values (KVTimeGroupedByNode (nodeLevelStats a')))) ∧
    NetworkMessages (queryLevelStats a')
      = int64 (Zsum (values (NetworkMessagesGroupedByNode (nodeLevelStats a')))) ∧
    MaxMemUsage (queryLevelStats a')
      = Zmax_from 0 (values (MaxMemoryUsageGroupedByNode (nodeLevelStats a'))) ∧
    (∀ n v, MaxMemoryUsageGroupedByNode (nodeLevelStats a') !! n = Some v →
            v ≤ MaxMemUsage (queryLevelStats a')) ∧
    (MaxMemoryUsageGroupedByNode (nodeLevelStats a') ≠ ∅ →
       ∃ n, MaxMemoryUsageGroupedByNode (nodeLevelStats a') !! n
              = Some (MaxMemUsage (queryLevelStats a'))) ∧
    (MaxMemoryUsageGroupedByNode (nodeLevelStats a') = ∅ →
       MaxMemUsage (queryLevelStats a') = 0) ∧
    ContentionTime (queryLevelStats a')
      = int64 (Zsum (values (KVTimeGroupedByNode (nodeLevelStats a')))) ∧
    ContentionTime (queryLevelStats a') = KVTime (queryLevelStats a').
Proof.
  intros Hfm. eexists _, _. split; [by apply ProcessStats_valid |].
  cbn [nodeLevelStats queryLevelStats ProcessStats_query NetworkBytesSent KVBytesRead
    KVRowsRead KVTime NetworkMessages MaxMemUsage ContentionTime].
  rewrite !sum_loop_range, !max_loop_range.
  set (nls := (ProcessStats_node fm).1).
  assert (map_Forall (λ _ v, 0 < v) (MaxMemoryUsageGroupedByNode nls)) as Hpos.
  { subst nls. rewrite ProcessStats_node_loops. apply max_memory_series_positive. }
  assert (∀ n v, MaxMemoryUsageGroupedByNode nls !! n = Some v →
                 v ∈ values (MaxMemoryUsageGroupedByNode nls)) as Hin.
  { intros n v Hv. unfold values. apply list_elem_of_fmap. exists (n, v).
    split; [done |]. by apply elem_of_map_to_list. }
  split_and!; try done.
  - intros n v Hv. by apply Zmax_from_upper, (Hin n).
  - intros Hne.
    destruct (Zmax_from_attained 0 (values (MaxMemoryUsageGroupedByNode nls)))
      as [H0 | Hatt].
    + apply map_choose in Hne as (n & v & Hv). pose proof (Hpos n v Hv) as Hv0.
      pose proof (Zmax_from_upper 0 _ v (Hin n v Hv)). cbn in Hv0. lia.
    + unfold values in *. apply list_elem_of_fmap in Hatt as ([n v] & Hv & Hnv).
      exists n. apply elem_of_map_to_list in Hnv. by rewrite Hv.
  - intros ->. unfold values. by rewrite map_to_list_empty.
Qed.

(** One processor with kv-time 7 and contention-time 3 (and another with
    none): the contention-time series sums to 3, the query-level
    ContentionTime is 7. *)
Lemma ProcessStats_query_level_witness :
  ∃ a' errs,
    ProcessStats (H := canonical_range) {[ 0%nat := Examples.three_processors ]}
      (MakeTraceAnalyzer 0) = Some (a', errs) ∧
    KVBytesRead (queryLevelStats a') = 25 ∧
    KVTime (queryLevelStats a') = 7 ∧
    ContentionTime (queryLevelStats a') = 7 ∧
    Zsum (values (ContentionTimeGroupedByNode (nodeLevelStats a'))) = 3.
Proof.
  destruct (ProcessStats_query_level (H := canonical_range)
              {[ 0%nat := Examples.three_processors ]} (MakeTraceAnalyzer 0)
              Examples.three_processors (lookup_singleton_eq _ _))
    as (a' & errs & Hrun & _ & Hb & _ & Ht & _ & _ & _ & _ & _ & Hc & _).
  exists a', errs. split; [exact Hrun |].
  rewrite Hb, Ht, Hc. vm_compute in Hrun. injection Hrun as <- _.
  vm_compute. repeat split.
Defined.

(** ** The fold on query-level scalars *)

(** C8: [Accumulate] sums each of the six additive fields of the two
    instances ([int64] sums) and takes the maximum of their MaxMemUsage
    fields. *)
Theorem Accumulate_sums_and_max (s other : QueryLevelStats) :
  NetworkBytesSent (Accumulate s other)
    = int64 (NetworkBytesSent s + NetworkBytesSent other) ∧
  KVBytesRead (Accumulate s other) = int64 (KVBytesRead s + KVBytesRead other) ∧
  KVRowsRead (Accumulate s other) = int64 (KVRowsRead s + KVRowsRead other) ∧
  KVTime (Accumulate s other) = int64 (KVTime s + KVTime other) ∧
  NetworkMessages (Accumulate s other)
    = int64 (NetworkMessages s + NetworkMessages other) ∧
  ContentionTime (Accumulate s other)
    = int64 (ContentionTime s + ContentionTime other) ∧
  MaxMemUsage (Accumulate s other) = Z.max (MaxMemUsage s) (MaxMemUsage other).
Proof.
  unfold Accumulate, add64. cbn. split_and!; try reflexivity.
  destruct (Z.gtb_spec (MaxMemUsage other) (MaxMemUsage s)); lia.
Qed.

(** ** The driver *)

Section driver_outcomes.
Context {RecordedSpan : Type}.
Variable ExtractStatsFromSpans :
  list RecordedSpan → bool → gmap execinfrapb.ComponentID execinfrapb.ComponentStats.
Variables (trace : list RecordedSpan) (deterministicExplainAnalyze : bool).

Lemma GetQueryLevelStats_body_outcome `{MapRange} h q errs metadata :
  GetQueryLevelStats_body ExtractStatsFromSpans trace deterministicExplainAnalyze
      (h, q, errs) metadata =
    match run_topology ExtractStatsFromSpans trace deterministicExplainAnalyze h metadata with
    | None => None
    | Some (h', o) =>
        Some (h', default q (result_of o), CombineErrors errs (failure_of o))
    end.
Proof.
  unfold GetQueryLevelStats_body, run_topology.
  destruct (AddTrace _ _ _ _ _) as [[h' [err|]]|]; [done | | done].
  destruct (ProcessStats _ _) as [[a' [err|]]|]; [done | | done].
  cbn. by destruct errs.
Qed.

Lemma GetQueryLevelStats_loop_outcomes orders i ptrs h q errs :
  GetQueryLevelStats_loop ExtractStatsFromSpans orders i trace deterministicExplainAnalyze
      ptrs (h, q, errs) =
    match run_topologies ExtractStatsFromSpans trace deterministicExplainAnalyze orders i h ptrs with
    | None => None
    | Some (h', os) =>
        Some (h', default q (last (omap result_of os)),
              combine_all errs (omap failure_of os))
    end.
Proof.
  revert i h q errs. induction ptrs as [|p ptrs IH]; intros i h q errs; [done |].
  cbn [GetQueryLevelStats_loop run_topologies].
  rewrite GetQueryLevelStats_body_outcome.
  destruct (run_topology ExtractStatsFromSpans trace deterministicExplainAnalyze h p) as [[h' o]|]; [| done]. cbn [mbind option_bind].
  rewrite IH. destruct (run_topologies ExtractStatsFromSpans trace deterministicExplainAnalyze orders (S i) h' ptrs) as [[h'' os]|]; [| done].
  rewrite !omap_cons_eq. f_equal. f_equal; [f_equal |].
  - destruct (result_of o) as [qo|]; [| done]. cbn [default].
    rewrite last_cons. by destruct (last (omap result_of os)).
  - destruct (failure_of o) as [e|]; [done |]. by destruct errs.
Qed.

(** The last iteration of the loop, on the state left by the others. *)
Lemma GetQueryLevelStats_loop_snoc orders i ptrs p st :
  GetQueryLevelStats_loop ExtractStatsFromSpans orders i trace deterministicExplainAnalyze
      (ptrs ++ [p]) st =
    GetQueryLevelStats_loop ExtractStatsFromSpans orders i trace deterministicExplainAnalyze
      ptrs st
    ≫= λ st', GetQueryLevelStats_body ExtractStatsFromSpans (H := orders (i + length ptrs)%nat)
                trace deterministicExplainAnalyze st' p.
Proof.
  revert i st. induction ptrs as [|p' ptrs IH]; intros i st.
  - cbn [app GetQueryLevelStats_loop length mbind option_bind]. rewrite Nat.add_0_r.
    by destruct (GetQueryLevelStats_body _ _ _ _ _).
  - cbn [app GetQueryLevelStats_loop length].
    destruct (GetQueryLevelStats_body _ _ _ _ _) as [st1|]; [| done].
    cbn [mbind option_bind]. rewrite IH. by rewrite Nat.add_succ_r.
Qed.

(** The driver returns (no dereference of a nil pointer) when every
    topology pointer is valid. *)
Lemma AddTrace_entry_total h p entry :
  is_Some (h !! p) →
  ∃ h' e, AddTrace_entry h p entry = Some (h', e) ∧ dom h' = dom h.
Proof.
  intros [fm Hfm]. destruct entry as [c bag]. unfold AddTrace_entry. rewrite Hfm. cbn.
  assert (∀ fm', dom (<[p := fm']> h) = dom h) as Hdom.
  { intros fm'. rewrite dom_insert_L. apply subseteq_union_1_L, singleton_subseteq_l.
    by apply elem_of_dom. }
  destruct (execinfrapb.cid_Type c).
  - by eexists _, _.
  - destruct (fm_processorStats fm !! _); by eexists _, _.
  - destruct (fm_streamStats fm !! _); by eexists _, _.
  - destruct (fm_flowStats fm !! _); by eexists _, _.
Qed.

Lemma AddTrace_loop_total h p l :
  is_Some (h !! p) →
  ∃ h' e, AddTrace_loop h p l = Some (h', e) ∧ dom h' = dom h.
Proof.
  revert h. induction l as [|entry l IH]; intros h Hp; [by eexists _, _ |].
  destruct (AddTrace_entry_total h p entry Hp) as (h1 & e1 & He1 & Hd1).
  cbn [AddTrace_loop]. rewrite He1. destruct e1 as [err|]; [by eexists _, _ |].
  destruct (IH h1) as (h2 & e2 & He2 & Hd2).
  { apply elem_of_dom. rewrite Hd1. by apply elem_of_dom. }
  exists h2, e2. split; [done | congruence].
Qed.

Lemma run_topology_total `{MapRange} h p :
  is_Some (h !! p) → ∃ h' o, run_topology ExtractStatsFromSpans trace deterministicExplainAnalyze h p = Some (h', o) ∧ dom h' = dom h.
Proof.
  intros Hp. unfold run_topology, AddTrace.
  destruct (AddTrace_loop_total h p
              (range 154 (ExtractStatsFromSpans trace deterministicExplainAnalyze)) Hp)
    as (h' & e & He & Hd).
  change (ta_FlowMetadata (MakeTraceAnalyzer p)) with p. rewrite He.
  destruct e as [err|]; [by eexists _, _ |].
  assert (is_Some (h' !! p)) as [fm Hfm]
    by (apply elem_of_dom; rewrite Hd; by apply elem_of_dom).
  rewrite (ProcessStats_valid h' (MakeTraceAnalyzer p) fm Hfm).
  destruct (ProcessStats_node fm).2; by eexists _, _.
Qed.

Lemma run_topologies_total orders i h ptrs :
  Forall (λ p, is_Some (h !! p)) ptrs →
  ∃ h' os, run_topologies ExtractStatsFromSpans trace deterministicExplainAnalyze orders i h ptrs = Some (h', os) ∧ length os = length ptrs.
Proof.
  revert i h. induction ptrs as [|p ptrs IH]; intros i h Hall; [by eexists _, _ |].
  apply Forall_cons in Hall as [Hp Hall].
  destruct (run_topology_total (H := orders i) h p Hp) as (h1 & o & Ho & Hd).
  destruct (IH (S i) h1) as (h2 & os & Hos & Hlen).
  { eapply Forall_impl; [exact Hall |]. intros p' Hp'. cbn in *.
    apply elem_of_dom. rewrite Hd. by apply elem_of_dom. }
  exists h2, (o :: os). cbn [run_topologies]. rewrite Ho, Hos. split; [done |].
  cbn. by rewrite Hlen.
Qed.

End driver_outcomes.

Lemma last_success_app_failed os1 os2 :
  Forall (λ o, result_of o = None) os2 → last_success (os1 ++ os2) = last_success os1.
Proof.
  intros Hfail. unfold last_success. rewrite omap_app.
  replace (omap result_of os2) with (@nil QueryLevelStats); [by rewrite app_nil_r |].
  induction Hfail as [|o os2 Ho _ IH]; [done |]. by rewrite omap_cons_eq, Ho.
Qed.

Lemma last_success_snoc os q : last_success (os ++ [Succeeded q]) = q.
Proof.
  unfold last_success. rewrite omap_app.
  change (omap result_of [Succeeded q]) with [q]. by rewrite last_snoc.
Qed.

(** C2: the driver runs the topologies in order on a shared trace.  After
    any list of topologies, one more topology whose ingestion and
    reduction both succeed replaces the scalars (they are not added to
    those kept so far) and leaves the error as it was; one whose
    ingestion fails leaves the scalars, has its error wrapped with "error
    analyzing trace statistics" and combined with the earlier ones, and
    the loop goes on.  Over any list of valid topology pointers the
    driver therefore returns the scalars of the last topology that
    succeeded together with the failures of all the others combined in
    order.  In particular, when the first of two topologies fails
    ingestion with [err] and the second succeeds with [q], the driver
    returns [q] and a non-nil error that wraps [err]. *)
Theorem GetQueryLevelStats_last_success {RecordedSpan : Type}
    (ExtractStatsFromSpans :
       list RecordedSpan → bool → gmap execinfrapb.ComponentID execinfrapb.ComponentStats)
    (orders : nat → MapRange) (h : heap) (trace : list RecordedSpan)
    (deterministicExplainAnalyze : bool) :
  (∀ flowMetadata metadata h1 q1 e1 h2 a',
     GetQueryLevelStats ExtractStatsFromSpans orders h trace deterministicExplainAnalyze
       flowMetadata = Some (h1, q1, e1) →
     AddTrace ExtractStatsFromSpans (H := orders (length flowMetadata)) h1
       (MakeTraceAnalyzer metadata) trace deterministicExplainAnalyze = Some (h2, None) →
     ProcessStats (H := orders (length flowMetadata)) h2 (MakeTraceAnalyzer metadata)
       = Some (a', None) →
     GetQueryLevelStats ExtractStatsFromSpans orders h trace deterministicExplainAnalyze
       (flowMetadata ++ [metadata]) = Some (h2, queryLevelStats a', e1)) ∧
  (∀ flowMetadata metadata h1 q1 e1 h2 err,
     GetQueryLevelStats ExtractStatsFromSpans orders h trace deterministicExplainAnalyze
       flowMetadata = Some (h1, q1, e1) →
     AddTrace ExtractStatsFromSpans (H := orders (length flowMetadata)) h1
       (MakeTraceAnalyzer metadata) trace deterministicExplainAnalyze = Some (h2, Some err) →
     GetQueryLevelStats ExtractStatsFromSpans orders h trace deterministicExplainAnalyze
       (flowMetadata ++ [metadata])
       = Some (h2, q1,
               CombineErrors e1 (Some (Wrap err "error analyzing trace statistics")))) ∧
  (∀ flowMetadata,
     Forall (λ p, is_Some (h !! p)) flowMetadata →
     ∃ h' os,
       run_topologies ExtractStatsFromSpans trace deterministicExplainAnalyze orders 0 h
         flowMetadata = Some (h', os) ∧
       length os = length flowMetadata ∧
       GetQueryLevelStats ExtractStatsFromSpans orders h trace deterministicExplainAnalyze
         flowMetadata = Some (h', last_success os, combine_all None (omap failure_of os)) ∧
       (∀ os' q, os = os' ++ [Succeeded q] → last_success os = q) ∧
       (∀ err q, os = [IngestionFailed err; Succeeded q] →
          GetQueryLevelStats ExtractStatsFromSpans orders h trace deterministicExplainAnalyze
            flowMetadata
            = Some (h', q, Some (Wrap err "error analyzing trace statistics")) ∧
          wraps (Wrap err "error analyzing trace statistics") err)).
Proof.
  split_and!.
  - intros ptrs p h1 q1 e1 h2 a' Hrun Hadd Hproc. unfold GetQueryLevelStats in *.
    rewrite GetQueryLevelStats_loop_snoc, Hrun. cbn [mbind option_bind].
    unfold GetQueryLevelStats_body. cbn [Nat.add]. by rewrite Hadd, Hproc.
  - intros ptrs p h1 q1 e1 h2 err Hrun Hadd. unfold GetQueryLevelStats in *.
    rewrite GetQueryLevelStats_loop_snoc, Hrun. cbn [mbind option_bind].
    unfold GetQueryLevelStats_body. cbn [Nat.add]. by rewrite Hadd.
  - intros flowMetadata Hvalid.
    destruct (run_topologies_total ExtractStatsFromSpans trace deterministicExplainAnalyze
                orders 0 h flowMetadata Hvalid) as (h' & os & Hrun & Hlen).
    assert (GetQueryLevelStats ExtractStatsFromSpans orders h trace
              deterministicExplainAnalyze flowMetadata
            = Some (h', last_success os, combine_all None (omap failure_of os))) as Hres.
    { unfold GetQueryLevelStats. by rewrite GetQueryLevelStats_loop_outcomes, Hrun. }
    exists h', os. split_and!; try done.
    + intros os' q ->. apply last_success_snoc.
    + intros err q ->. split; [by rewrite Hres |]. apply wraps_Wrap, wraps_refl.
Qed.

(** Topology 0 lacks stream 99, which the loop visits first, and fails
    ingestion; topology 1 has processor 10 and stream 99 and succeeds:
    the driver returns the scalars of topology 1 and the wrapped error of
    topology 0. *)
Lemma GetQueryLevelStats_last_success_witness :
  ∃ h',
    GetQueryLevelStats Examples.extract (λ _, canonical_range)
      {[ 0%nat := Examples.one_processor; 1%nat := Examples.processor_and_stream ]}
      Examples.trace_10_99 false [0%nat; 1%nat]
    = Some (h', mkQueryLevelStats 40 0 100 0 0 4 0,
            Some (Wrap (unknown_stream 99) "error analyzing trace statistics")).
Proof.
  assert (Forall (λ p, is_Some (({[ 0%nat := Examples.one_processor;
                                     1%nat := Examples.processor_and_stream ]} : heap) !! p))
                 [0%nat; 1%nat]) as Hvalid
    by (repeat (constructor; [eexists; reflexivity |]); constructor).
  destruct (proj2 (proj2 (GetQueryLevelStats_last_success Examples.extract
                           (λ _, canonical_range) _ Examples.trace_10_99 false))
              _ Hvalid)
    as (h' & os & Hrun & _ & _ & _ & Htwo).
  exists h'. vm_compute in Hrun. injection Hrun as _ <-.
  exact (proj1 (Htwo _ _ eq_refl)).
Defined.

(** C10: a topology whose reduction returns a non-nil error is passed
    over like one whose ingestion failed.  After any list of topologies,
    one more topology whose ingestion succeeds and whose reduction
    returns an error leaves the scalars kept so far (those it computed
    are discarded) and has its error combined with the earlier ones.
    Over any list of valid topology pointers, a topology that hands no
    result to the driver, whichever call failed, leaves the scalars
    selected before it; the returned scalars are those of the last
    topology for which ingestion and reduction both returned nil, and
    the zero value when there is none. *)
Theorem GetQueryLevelStats_discards_failed_reduction {RecordedSpan : Type}
    (ExtractStatsFromSpans :
       list RecordedSpan → bool → gmap execinfrapb.ComponentID execinfrapb.ComponentStats)
    (orders : nat → MapRange) (h : heap) (trace : list RecordedSpan)
    (deterministicExplainAnalyze : bool) :
  (∀ flowMetadata metadata h1 q1 e1 h2 a' err,
     GetQueryLevelStats ExtractStatsFromSpans orders h trace deterministicExplainAnalyze
       flowMetadata = Some (h1, q1, e1) →
     AddTrace ExtractStatsFromSpans (H := orders (length flowMetadata)) h1
       (MakeTraceAnalyzer metadata) trace deterministicExplainAnalyze = Some (h2, None) →
     ProcessStats (H := orders (length flowMetadata)) h2 (MakeTraceAnalyzer metadata)
       = Some (a', Some err) →
     GetQueryLevelStats ExtractStatsFromSpans orders h trace deterministicExplainAnalyze
       (flowMetadata ++ [metadata]) = Some (h2, q1, CombineErrors e1 (Some err))) ∧
  (∀ flowMetadata,
     Forall (λ p, is_Some (h !! p)) flowMetadata →
     ∃ h' os q errs,
       run_topologies ExtractStatsFromSpans trace deterministicExplainAnalyze orders 0 h
         flowMetadata = Some (h', os) ∧
       GetQueryLevelStats ExtractStatsFromSpans orders h trace deterministicExplainAnalyze
         flowMetadata = Some (h', q, errs) ∧
       (∀ os1 o os2,
          os = os1 ++ o :: os2 → result_of o = None →
          Forall (λ o, result_of o = None) os2 → q = last_success os1) ∧
       (∀ os1 discarded err os2,
          os = os1 ++ ReductionFailed discarded err :: os2 →
          result_of (ReductionFailed discarded err) = None ∧
          ∃ e, errs = Some e ∧ occurs_in e err) ∧
       (∀ os1 q' os2,
          os = os1 ++ Succeeded q' :: os2 →
          Forall (λ o, result_of o = None) os2 → q = q') ∧
       (Forall (λ o, result_of o = None) os → q = QueryLevelStats_zero)).
Proof.
  split.
  - intros ptrs p h1 q1 e1 h2 a' err Hrun Hadd Hproc. unfold GetQueryLevelStats in *.
    rewrite GetQueryLevelStats_loop_snoc, Hrun. cbn [mbind option_bind].
    unfold GetQueryLevelStats_body. cbn [Nat.add]. by rewrite Hadd, Hproc.
  - intros flowMetadata Hvalid.
    destruct (run_topologies_total ExtractStatsFromSpans trace deterministicExplainAnalyze
                orders 0 h flowMetadata Hvalid) as (h' & os & Hrun & Hlen).
    exists h', os, (last_success os), (combine_all None (omap failure_of os)).
    split_and!; [done | | | | |].
    + unfold GetQueryLevelStats. by rewrite GetQueryLevelStats_loop_outcomes, Hrun.
    + intros os1 o os2 -> Ho Hfail.
      apply (last_success_app_failed os1 (o :: os2)). by constructor.
    + intros os1 d err os2 ->. split; [done |].
      apply combine_all_records. apply list_elem_of_omap.
      exists (ReductionFailed d err). split; [| done].
      apply elem_of_app. right. by left.
    + intros os1 q' os2 -> Hfail.
      rewrite (cons_middle (Succeeded q')), app_assoc.
      rewrite last_success_app_failed by done. apply last_success_snoc.
    + intros Hfail. by rewrite <-(app_nil_l os), last_success_app_failed.
Qed.

(** The stream bag of the trace has both byte counts: ingestion into
    the topology succeeds, its reduction computes kv-bytes-read 100 and
    returns an error; the driver returns the zero value and the error. *)
Lemma GetQueryLevelStats_discards_failed_reduction_witness :
  ∃ h' err errs,
    run_topologies Examples.extract Examples.trace_both_bytes false (λ _, canonical_range) 0
      {[ 0%nat := Examples.processor_and_stream ]} [0%nat]
    = Some (h', [ReductionFailed (mkQueryLevelStats 0 0 100 0 0 4 0) err]) ∧
    GetQueryLevelStats Examples.extract (λ _, canonical_range)
      {[ 0%nat := Examples.processor_and_stream ]} Examples.trace_both_bytes false [0%nat]
    = Some (h', QueryLevelStats_zero, errs) ∧
    errs ≠ None.
Proof.
  assert (Forall (λ p, is_Some (({[ 0%nat := Examples.processor_and_stream ]} : heap) !! p))
                 [0%nat]) as Hvalid
    by (repeat (constructor; [eexists; reflexivity |]); constructor).
  destruct (proj2 (GetQueryLevelStats_discards_failed_reduction Examples.extract
                    (λ _, canonical_range) _ Examples.trace_both_bytes false)
              _ Hvalid)
    as (h' & os & q & errs & Hrun & Hres & _ & Hfailed & _ & Hzero).
  pose proof Hrun as Hos. vm_compute in Hos. injection Hos as _ <-.
  destruct (Hfailed [] _ _ [] eq_refl) as (_ & e & -> & _).
  rewrite Hzero in Hres by (repeat constructor).
  exists h'. eexists _, (Some e). split; [exact Hrun | ]. split; [exact Hres | discriminate].
Defined.

(** ** A run of the whole pipeline *)

(** Node 1 hosts processor 10 and the remote stream 99 to node 2; node 2
    hosts processor 11.  The trace has kv-bytes-read 100 for processor
    10, bytesSent 40 and messagesSent 4 for stream 99, and nothing for
    processor 11. *)
Example pipeline_two_nodes :
  let '(h, p) :=
    alloc_FlowMetadata ∅ (NewFlowMetadata (H := canonical_range) Examples.plan_two_nodes) in
  (GetQueryLevelStats Examples.extract (λ _, canonical_range) h Examples.trace_10_99 false [p]
     ≫= λ r, Some (r.1.2, r.2))
    = Some (mkQueryLevelStats 40 0 100 0 0 4 0, None) ∧
  (AddTrace Examples.extract (H := canonical_range) h (MakeTraceAnalyzer p)
     Examples.trace_10_99 false
     ≫= λ r, ProcessStats (H := canonical_range) r.1 (MakeTraceAnalyzer p)
     ≫= λ r, Some (map_to_list (KVBytesReadGroupedByNode (nodeLevelStats r.1)),
                   map_to_list (NetworkBytesSentGroupedByNode (nodeLevelStats r.1)),
                   map_to_list (NetworkMessagesGroupedByNode (nodeLevelStats r.1))))
    = Some ([(1, 100)], [(1, 40)], [(1, 4)]).
Proof. vm_compute. split; reflexivity. Qed.

(** * Further properties *)

(** ** The fold on query-level scalars, as an operation *)

Lemma in_int64_int64 z : in_int64 (int64 z).
Proof. apply int64_range. Qed.

Lemma QueryLevelStats_eq q1 q2 :
  NetworkBytesSent q1 = NetworkBytesSent q2 → MaxMemUsage q1 = MaxMemUsage q2 →
  KVBytesRead q1 = KVBytesRead q2 → KVRowsRead q1 = KVRowsRead q2 →
  KVTime q1 = KVTime q2 → NetworkMessages q1 = NetworkMessages q2 →
  ContentionTime q1 = ContentionTime q2 → q1 = q2.
Proof. destruct q1, q2. cbn. by intros -> -> -> -> -> -> ->. Qed.

Lemma add64_assoc a b c : add64 (add64 a b) c = add64 a (add64 b c).
Proof.
  unfold add64. rewrite int64_add_l, int64_add_r. f_equal. lia.
Qed.

(** X1: [Accumulate] is commutative and associative, wrap-around
    included: stats folded in any order and any grouping give the same
    totals. *)
Theorem Accumulate_comm_assoc :
  (∀ a b, Accumulate a b = Accumulate b a) ∧
  (∀ a b c, Accumulate (Accumulate a b) c = Accumulate a (Accumulate b c)).
Proof.
  split.
  - intros a b. apply QueryLevelStats_eq; cbn; try apply add64_comm.
    destruct (Z.gtb_spec (MaxMemUsage b) (MaxMemUsage a)),
             (Z.gtb_spec (MaxMemUsage a) (MaxMemUsage b)); lia.
  - intros a b c. apply QueryLevelStats_eq; cbn; try apply add64_assoc.
    destruct (Z.gtb_spec (MaxMemUsage b) (MaxMemUsage a)),
             (Z.gtb_spec (MaxMemUsage c) (MaxMemUsage b));
      repeat match goal with |- context [?x >? ?y] => destruct (Z.gtb_spec x y) end; lia.
Qed.

Lemma Accumulate_unit (q : QueryLevelStats) :
  QueryLevelStats_in_range q →
  Accumulate QueryLevelStats_zero q = q ∧ Accumulate q QueryLevelStats_zero = q.
Proof.
  intros (Hb & Hm & Hk & Hr & Ht & Hn & Hc). unfold in_int64 in *.
  split; apply QueryLevelStats_eq; cbn; unfold add64;
    rewrite ?Z.add_0_l, ?Z.add_0_r; try (apply int64_small; lia).
  - destruct (Z.gtb_spec (MaxMemUsage q) 0); lia.
  - destruct (Z.gtb_spec 0 (MaxMemUsage q)); lia.
Qed.

(** X2: the zero value is a unit of [Accumulate] on stats whose fields
    are [int64] values with a non-negative peak memory: accumulating such
    stats into a zero value, or a zero value into them, gives them back. *)
Theorem Accumulate_zero (q : QueryLevelStats) :
  QueryLevelStats_in_range q →
  Accumulate QueryLevelStats_zero q = q ∧ Accumulate q QueryLevelStats_zero = q.
Proof. apply Accumulate_unit. Qed.

Lemma Accumulate_zero_witness :
  Accumulate QueryLevelStats_zero (mkQueryLevelStats 40 80 100 0 7 4 7)
    = mkQueryLevelStats 40 80 100 0 7 4 7.
Proof.
  apply (Accumulate_zero (mkQueryLevelStats 40 80 100 0 7 4 7)).
  unfold QueryLevelStats_in_range, in_int64. cbn. lia.
Defined.

(** ** Reduction: invariants, iteration order, totals over the topology *)

(** A map of integers is determined by what [get] reads and by its
    keys. *)
Lemma gmap_eq_get (m1 m2 : gmap Z Z) :
  (∀ n, get m1 n = get m2 n) →
  (∀ n, is_Some (m1 !! n) ↔ is_Some (m2 !! n)) →
  m1 = m2.
Proof.
  intros Hget Hkeys. apply map_eq. intros n.
  specialize (Hget n). specialize (Hkeys n). unfold get in Hget.
  destruct (m1 !! n) as [x|], (m2 !! n) as [y|]; cbn in *.
  - by subst.
  - destruct Hkeys as [Hk _]. destruct Hk as [? [=]]. by eexists.
  - destruct Hkeys as [_ Hk]. destruct Hk as [? [=]]. by eexists.
  - done.
Qed.

Lemma positive_keys (m : gmap Z Z) n :
  map_Forall (λ _ v, 0 < v) m → is_Some (m !! n) ↔ 0 < get m n.
Proof.
  intros Hpos. unfold get. destruct (m !! n) as [v|] eqn:Hv; cbn.
  - apply Hpos in Hv. cbn in Hv. split; [done | by eexists].
  - split; [by intros [? [=]] | lia].
Qed.

Lemma values_insert (m : gmap Z Z) k x :
  values (<[k := x]> m) ≡ₚ x :: values (delete k m).
Proof.
  unfold values. rewrite <-insert_delete_eq.
  rewrite map_to_list_insert by apply lookup_delete_eq. done.
Qed.

Lemma values_lookup (m : gmap Z Z) k :
  values m ≡ₚ match m !! k with Some y => y :: values (delete k m) | None => values (delete k m) end.
Proof.
  destruct (m !! k) as [y|] eqn:Hk.
  - rewrite <-(insert_id m k y) at 1 by done. apply values_insert.
  - by rewrite delete_id.
Qed.

Lemma Zsum_values_insert (m : gmap Z Z) k x :
  Zsum (values (<[k := x]> m)) = Zsum (values m) - get m k + x.
Proof.
  rewrite values_insert, (values_lookup m k). unfold get.
  destruct (m !! k); simpl; rewrite !Zsum_cons; lia.
Qed.

Lemma Zmax_values_raise (m : gmap Z Z) k v :
  Zmax_from 0 (values (raise m k v)) = Z.max (Zmax_from 0 (values m)) v.
Proof.
  unfold raise. destruct (Z.gtb_spec v (get m k)) as [Hgt | Hle].
  - rewrite values_insert, (values_lookup m k). unfold get in Hgt.
    destruct (m !! k); simpl in Hgt; rewrite !Zmax_from_cons; lia.
  - pose proof (Zmax_from_ge 0 (values m)) as H0.
    rewrite (values_lookup m k) in *. unfold get in Hle.
    destruct (m !! k); simpl in Hle; rewrite ?Zmax_from_cons in *; lia.
Qed.

(** What a loop of [incr_with] or [raise_with] leaves in the whole map. *)
Lemma Zsum_values_incr_with {A} (c : A → option (Z * Z)) m l :
  int64 (Zsum (values (foldl (incr_with c) m l)))
    = int64 (Zsum (values m) + Zsum (omap (λ e, snd <$> c e) l)).
Proof.
  revert m. induction l as [|e l IH]; intros m.
  - cbn [foldl]. by rewrite Z.add_0_r.
  - cbn [foldl]. rewrite IH, omap_cons_eq. unfold incr_with.
    destruct (c e) as [[k v]|]; cbn [fmap option_fmap option_map snd]; [| done].
    unfold incr. rewrite Zsum_values_insert, Zsum_cons. unfold add64.
    replace (Zsum (values m) - get m k + int64 (get m k + v)
             + Zsum (omap (λ e0, snd <$> c e0) l))
      with (Zsum (values m) - get m k + Zsum (omap (λ e0, snd <$> c e0) l)
            + int64 (get m k + v)) by lia.
    rewrite int64_add_r. f_equal. lia.
Qed.

Lemma Zmax_values_raise_with {A} (c : A → option (Z * Z)) m l :
  Zmax_from 0 (values (foldl (raise_with c) m l))
    = Zmax_from (Zmax_from 0 (values m)) (omap (λ e, snd <$> c e) l).
Proof.
  revert m. induction l as [|e l IH]; intros m; [done |].
  cbn [foldl]. rewrite IH, omap_cons_eq. unfold raise_with.
  destruct (c e) as [[k v]|]; cbn [fmap option_fmap option_map snd]; [| done].
  rewrite Zmax_values_raise, Zmax_from_max, Zmax_from_cons. lia.
Qed.

Lemma incr_with_in_range {A} (c : A → option (Z * Z)) m l :
  map_Forall (λ _ v, in_int64 v) m → map_Forall (λ _ v, in_int64 v) (foldl (incr_with c) m l).
Proof.
  revert m. induction l as [|e l IH]; intros m Hm; [done |].
  cbn [foldl]. apply IH. unfold incr_with. destruct (c e) as [[k v]|]; [| done].
  apply map_Forall_insert_2; [apply in_int64_int64 | done].
Qed.

Lemma raise_with_in_range {A} (c : A → option (Z * Z)) m l :
  (∀ e k v, c e = Some (k, v) → in_int64 v) →
  map_Forall (λ _ v, in_int64 v) m → map_Forall (λ _ v, in_int64 v) (foldl (raise_with c) m l).
Proof.
  intros Hc. revert m. induction l as [|e l IH]; intros m Hm; [done |].
  cbn [foldl]. apply IH. unfold raise_with. destruct (c e) as [[k v]|] eqn:He; [| done].
  unfold raise. destruct (v >? get m k); [| done].
  apply map_Forall_insert_2; [by eapply Hc | done].
Qed.


Lemma incr_with_Permutation {A} (c : A → option (Z * Z)) l1 l2 :
  l1 ≡ₚ l2 → foldl (incr_with c) ∅ l1 = foldl (incr_with c) ∅ l2.
Proof.
  intros Hl. apply gmap_eq_get; intros n.
  - rewrite !get_incr_with by (by rewrite get_empty). by rewrite Hl.
  - rewrite !lookup_incr_with_is_Some. by setoid_rewrite Hl.
Qed.

Lemma ProcessStats_node_series_order (R1 R2 : MapRange) fm :
  (ProcessStats_node (H := R1) fm).1 = (ProcessStats_node (H := R2) fm).1.
Proof.
  rewrite !ProcessStats_node_loops. cbn [fst].
  assert (∀ site (K : Type) `{Countable K} (B : Type) (m : gmap K B),
            range (H := R1) site m ≡ₚ range (H := R2) site m) as Hr.
  { intros. unfold range. by rewrite !range_order_perm. }
  f_equal; try (apply incr_with_Permutation, Hr).
  apply gmap_eq_get; intros n.
  - by rewrite !max_memory_series.
  - rewrite !positive_keys by apply max_memory_series_positive.
    by rewrite !max_memory_series.
Qed.

Lemma ProcessStats_query_order (R1 R2 : MapRange) nls :
  ProcessStats_query (H := R1) nls = ProcessStats_query (H := R2) nls.
Proof.
  unfold ProcessStats_query. by rewrite !sum_loop_range, !max_loop_range.
Qed.

(** X3: the node-level series and the query-level scalars computed by
    [ProcessStats] do not depend on the order in which the map loops
    visit their entries, and neither does whether the returned error is
    nil (only the nesting of the combined error does); the call panics
    for one order exactly when it does for the other. *)
Theorem ProcessStats_order_independent (R1 R2 : MapRange) (h : heap) (a : TraceAnalyzer) :
  match ProcessStats (H := R1) h a, ProcessStats (H := R2) h a with
  | Some (a1, errs1), Some (a2, errs2) => a1 = a2 ∧ (errs1 = None ↔ errs2 = None)
  | None, None => True
  | _, _ => False
  end.
Proof.
  destruct (h !! ta_FlowMetadata a) as [fm|] eqn:Hfm.
  - rewrite (ProcessStats_valid (H := R1) h a fm Hfm),
      (ProcessStats_valid (H := R2) h a fm Hfm).
    rewrite (ProcessStats_node_series_order R1 R2 fm).
    rewrite (ProcessStats_query_order R1 R2). split; [done |].
    by rewrite !node_errors.
  - unfold ProcessStats. by rewrite Hfm.
Qed.

Lemma ProcessStats_node_in_range `{MapRange} fm :
  let nls := (ProcessStats_node fm).1 in
  map_Forall (λ _ v, in_int64 v) (NetworkBytesSentGroupedByNode nls) ∧
  map_Forall (λ _ v, in_int64 v) (MaxMemoryUsageGroupedByNode nls) ∧
  map_Forall (λ _ v, in_int64 v) (KVBytesReadGroupedByNode nls) ∧
  map_Forall (λ _ v, in_int64 v) (KVRowsReadGroupedByNode nls) ∧
  map_Forall (λ _ v, in_int64 v) (KVTimeGroupedByNode nls) ∧
  map_Forall (λ _ v, in_int64 v) (NetworkMessagesGroupedByNode nls) ∧
  map_Forall (λ _ v, in_int64 v) (ContentionTimeGroupedByNode nls).
Proof.
  intros nls. subst nls. rewrite ProcessStats_node_loops. cbn [fst
    NetworkBytesSentGroupedByNode MaxMemoryUsageGroupedByNode KVBytesReadGroupedByNode
    KVRowsReadGroupedByNode KVTimeGroupedByNode NetworkMessagesGroupedByNode
    ContentionTimeGroupedByNode].
  assert (∀ v x, peak_memory v = Some x → in_int64 x) as Hpeak.
  { intros v x. unfold peak_memory. destruct (execinfrapb.MaxMemUsage _); [| done].
    intros [= <-]. apply in_int64_int64. }
  split_and!; try (apply incr_with_in_range, map_Forall_empty).
  apply raise_with_in_range.
  { intros [n v] k x. unfold flow_c. cbn. destruct (peak_memory v) eqn:Hv; [| done].
    intros [= _ <-]. by eapply Hpeak. }
  apply raise_with_in_range; [| apply map_Forall_empty].
  intros [id [o d [v|]]] k x; unfold stream_c; cbn; [| done].
  destruct (peak_memory v) eqn:Hv; [| done]. intros [= _ <-]. by eapply Hpeak.
Qed.

Lemma ProcessStats_query_in_range `{MapRange} nls :
  map_Forall (λ _ v, in_int64 v) (MaxMemoryUsageGroupedByNode nls) →
  QueryLevelStats_in_range (ProcessStats_query nls).
Proof.
  intros Hmax. unfold QueryLevelStats_in_range, ProcessStats_query. cbn.
  rewrite !sum_loop_range, max_loop_range.
  split_and!; try apply in_int64_int64.
  - apply Zmax_from_ge.
  - remember (values (MaxMemoryUsageGroupedByNode nls)) as l eqn:Hl.
    destruct (Zmax_from_attained 0 l) as [H0 | Hin]; [lia |].
    rewrite Hl in Hin at 2. unfold values in Hin.
    apply list_elem_of_fmap in Hin as ([n v] & Hv & Hnv).
    apply elem_of_map_to_list in Hnv. apply Hmax in Hnv. rewrite Hv. apply Hnv.
Qed.

(** X4: whatever the bags hold, every entry of the seven node-level
    series that [ProcessStats] computes is an [int64], every entry of the
    max-memory series is positive, the query-level scalars are [int64]
    values with a non-negative peak memory, and accumulating them into a
    zero value gives them back. *)
Theorem ProcessStats_in_range `{MapRange} (h : heap) (a a' : TraceAnalyzer)
    (errs : option error) :
  ProcessStats h a = Some (a', errs) →
  map_Forall (λ _ v, in_int64 v) (NetworkBytesSentGroupedByNode (nodeLevelStats a')) ∧
  map_Forall (λ _ v, in_int64 v ∧ 0 < v) (MaxMemoryUsageGroupedByNode (nodeLevelStats a')) ∧
  map_Forall (λ _ v, in_int64 v) (KVBytesReadGroupedByNode (nodeLevelStats a')) ∧
  map_Forall (λ _ v, in_int64 v) (KVRowsReadGroupedByNode (nodeLevelStats a')) ∧
  map_Forall (λ _ v, in_int64 v) (KVTimeGroupedByNode (nodeLevelStats a')) ∧
  map_Forall (λ _ v, in_int64 v) (NetworkMessagesGroupedByNode (nodeLevelStats a')) ∧
  map_Forall (λ _ v, in_int64 v) (ContentionTimeGroupedByNode (nodeLevelStats a')) ∧
  QueryLevelStats_in_range (queryLevelStats a') ∧
  Accumulate QueryLevelStats_zero (queryLevelStats a') = queryLevelStats a'.
Proof.
  intros Hrun. destruct (h !! ta_FlowMetadata a) as [fm|] eqn:Hfm;
    [| unfold ProcessStats in Hrun; by rewrite Hfm in Hrun].
  rewrite (ProcessStats_valid h a fm Hfm) in Hrun. injection Hrun as <- _.
  cbn [nodeLevelStats queryLevelStats].
  destruct (ProcessStats_node_in_range fm) as (Hb & Hm & Hk & Hr & Ht & Hn & Hc).
  assert (QueryLevelStats_in_range (ProcessStats_query (ProcessStats_node fm).1)) as Hq
    by by apply ProcessStats_query_in_range.
  assert (map_Forall (λ _ v, 0 < v) (MaxMemoryUsageGroupedByNode (ProcessStats_node fm).1))
    as Hpos by (rewrite ProcessStats_node_loops; apply max_memory_series_positive).
  split_and!; try done.
  - intros n v Hv. split; [by apply (Hm n) | by apply (Hpos n)].
  - by apply Accumulate_unit.
Qed.

Lemma ProcessStats_in_range_witness :
  QueryLevelStats_in_range
    (ProcessStats_query (H := canonical_range)
       (ProcessStats_node (H := canonical_range) Examples.stream_and_slot).1) ∧
  map_Forall (λ _ v, in_int64 v ∧ 0 < v)
    (MaxMemoryUsageGroupedByNode
       (ProcessStats_node (H := canonical_range) Examples.stream_and_slot).1).
Proof.
  destruct (ProcessStats_in_range (H := canonical_range)
              {[ 0%nat := Examples.stream_and_slot ]} (MakeTraceAnalyzer 0) _ _
              (ProcessStats_valid (H := canonical_range) _ (MakeTraceAnalyzer 0)
                 Examples.stream_and_slot (lookup_singleton_eq _ _)))
    as (_ & Hmax & _ & _ & _ & _ & _ & Hq & _).
  split; [exact Hq | exact Hmax].
Defined.

Lemma all_of_processor f (l : list (Z * processorStats)) :
  omap (λ e, snd <$> processor_c f e) l = f <$> omap (λ e : Z * processorStats, ps_stats e.2) l.
Proof.
  rewrite list_fmap_omap. apply omap_ext_eq.
  intros [k [o [s|]]]; unfold processor_c; by cbn.
Qed.

Lemma all_of_stream pick (l : list (Z * streamStats)) :
  omap (λ e, snd <$> stream_c pick e) l
    = omap pick (omap (λ e : Z * streamStats, ss_stats e.2) l).
Proof.
  rewrite omap_omap. apply omap_ext_eq.
  intros [k [o d [v|]]]; unfold stream_c; cbn; [| done]. by destruct (pick v).
Qed.

Lemma all_of_flow (l : list (Z * flowStats)) :
  omap (λ e, snd <$> flow_c e) (slot_bags l) = omap peak_memory (l ≫= λ e, fs_stats e.2).
Proof.
  induction l as [|[k [bags]] l IH]; [done |].
  unfold slot_bags in *. rewrite !bind_cons, !omap_app, IH. f_equal.
  cbn [fst snd fs_stats]. clear IH. induction bags as [|v bags IHb]; [done |].
  rewrite fmap_cons, !omap_cons_eq, IHb. unfold flow_c. cbn.
  by destruct (peak_memory v).
Qed.

(** The scalars computed from the node-level series of a topology, as
    totals over its bags. *)
Lemma ProcessStats_query_totals `{MapRange} (fm : FlowMetadata) :
  KVBytesRead (ProcessStats_query (ProcessStats_node fm).1)
    = int64 (Zsum (kv_bytes_read <$> all_processor_bags fm)) ∧
  KVRowsRead (ProcessStats_query (ProcessStats_node fm).1)
    = int64 (Zsum (kv_rows_read <$> all_processor_bags fm)) ∧
  KVTime (ProcessStats_query (ProcessStats_node fm).1)
    = int64 (Zsum (kv_time <$> all_processor_bags fm)) ∧
  ContentionTime (ProcessStats_query (ProcessStats_node fm).1)
    = int64 (Zsum (kv_time <$> all_processor_bags fm)) ∧
  NetworkBytesSent (ProcessStats_query (ProcessStats_node fm).1)
    = int64 (Zsum (omap network_bytes (present_stream_bags fm))) ∧
  NetworkMessages (ProcessStats_query (ProcessStats_node fm).1)
    = int64 (Zsum (omap network_messages (present_stream_bags fm))) ∧
  MaxMemUsage (ProcessStats_query (ProcessStats_node fm).1)
    = Zmax_from 0 (omap peak_memory (present_stream_bags fm ++ all_flow_bags fm)).
Proof.
  cbn [queryLevelStats ProcessStats_query KVBytesRead KVRowsRead KVTime ContentionTime
    NetworkBytesSent NetworkMessages MaxMemUsage].
  rewrite !sum_loop_range, max_loop_range, ProcessStats_node_loops.
  cbn [fst NetworkBytesSentGroupedByNode MaxMemoryUsageGroupedByNode
    KVBytesReadGroupedByNode KVRowsReadGroupedByNode KVTimeGroupedByNode
    NetworkMessagesGroupedByNode].
  rewrite !Zsum_values_incr_with, !Zmax_values_raise_with.
  rewrite !all_of_processor, !all_of_stream, all_of_flow.
  unfold values, all_processor_bags, present_stream_bags, all_flow_bags, range.
  rewrite !range_order_perm, map_to_list_empty.
  change (Zsum ([] : list (Z * Z)).*2) with 0. change (Zmax_from 0 ([] : list (Z * Z)).*2) with 0.
  rewrite !Z.add_0_l. split_and!; try done.
  rewrite <-Zmax_from_app, omap_app. apply Zmax_from_Permutation, Permutation_app_comm.
Qed.

(** X5: the query-level scalars are totals over the whole topology, the
    grouping by node playing no part: the four processor-sourced scalars
    are the sums over all present processor bags (ContentionTime being
    that of the kv-time field), the two network scalars are the sums over
    all stream bags that satisfy the exclusivity rule, and MaxMemUsage is
    the maximum, from zero, of all present peak-memory values of stream
    bags and flow-slot entries. *)
Theorem ProcessStats_totals `{MapRange} (h : heap) (a : TraceAnalyzer) (fm : FlowMetadata) :
  h !! ta_FlowMetadata a = Some fm →
  ∃ a' errs, ProcessStats h a = Some (a', errs) ∧
    KVBytesRead (queryLevelStats a')
      = int64 (Zsum (kv_bytes_read <$> all_processor_bags fm)) ∧
    KVRowsRead (queryLevelStats a')
      = int64 (Zsum (kv_rows_read <$> all_processor_bags fm)) ∧
    KVTime (queryLevelStats a') = int64 (Zsum (kv_time <$> all_processor_bags fm)) ∧
    ContentionTime (queryLevelStats a')
      = int64 (Zsum (kv_time <$> all_processor_bags fm)) ∧
    NetworkBytesSent (queryLevelStats a')
      = int64 (Zsum (omap network_bytes (present_stream_bags fm))) ∧
    NetworkMessages (queryLevelStats a')
      = int64 (Zsum (omap network_messages (present_stream_bags fm))) ∧
    MaxMemUsage (queryLevelStats a')
      = Zmax_from 0 (omap peak_memory (present_stream_bags fm ++ all_flow_bags fm)).
Proof.
  intros Hfm. eexists _, _. split; [by apply ProcessStats_valid |].
  cbn [queryLevelStats]. apply ProcessStats_query_totals.
Qed.

(** In [Examples.stream_and_slot] the stream bag has peak 50 and the
    slot of node 1 a bag of peak 80; the stream violates the rule on
    bytes and has 4 messages. *)
Lemma ProcessStats_totals_witness :
  ∃ a' errs,
    ProcessStats (H := reversed_range) {[ 0%nat := Examples.stream_and_slot ]}
      (MakeTraceAnalyzer 0) = Some (a', errs) ∧
    MaxMemUsage (queryLevelStats a') = 80 ∧
    NetworkBytesSent (queryLevelStats a') = 0 ∧
    NetworkMessages (queryLevelStats a') = 4.
Proof.
  destruct (ProcessStats_totals (H := reversed_range)
              {[ 0%nat := Examples.stream_and_slot ]} (MakeTraceAnalyzer 0)
              Examples.stream_and_slot (lookup_singleton_eq _ _))
    as (a' & errs & Hrun & _ & _ & _ & _ & Hb & Hm & Hmax).
  exists a', errs. split; [exact Hrun |]. rewrite Hb, Hm, Hmax. by vm_compute.
Defined.

(** ** Reduction of a topology without bags *)

Lemma incr_with_none {A} (c : A → option (Z * Z)) m l :
  Forall (λ e, c e = None) l → foldl (incr_with c) m l = m.
Proof.
  induction 1 as [|e l He _ IH]; [done |]. cbn [foldl]. unfold incr_with at 2.
  by rewrite He.
Qed.

Lemma raise_with_none {A} (c : A → option (Z * Z)) m l :
  Forall (λ e, c e = None) l → foldl (raise_with c) m l = m.
Proof.
  induction 1 as [|e l He _ IH]; [done |]. cbn [foldl]. unfold raise_with at 2.
  by rewrite He.
Qed.

Lemma range_empty `{MapRange} site {K : Type} `{Countable K} {B : Type} :
  range site (∅ : gmap K B) = [].
Proof.
  apply Permutation_nil_r. unfold range. by rewrite range_order_perm, map_to_list_empty.
Qed.

Lemma slot_bags_nil (l : list (Z * flowStats)) :
  Forall (λ e, fs_stats e.2 = []) l → slot_bags l = [].
Proof.
  induction 1 as [|e l He _ IH]; [done |].
  unfold slot_bags in *. by rewrite bind_cons, He, IH.
Qed.

(** All the bags of a topology are absent. *)
Lemma ProcessStats_node_no_bags `{MapRange} fm :
  (∀ id ps, fm_processorStats fm !! id = Some ps → ps_stats ps = None) →
  (∀ id ss, fm_streamStats fm !! id = Some ss → ss_stats ss = None) →
  (∀ n fs, fm_flowStats fm !! n = Some fs → fs_stats fs = []) →
  ProcessStats_node fm = (NodeLevelStats_zero, None).
Proof.
  intros Hps Hss Hfs. rewrite ProcessStats_node_loops.
  assert (∀ f, Forall (λ e, processor_c f e = None) (range 205 (fm_processorStats fm))) as Hp.
  { intros f. apply Forall_forall. intros [id ps] Hin.
    unfold range in Hin. rewrite range_order_perm in Hin.
    apply elem_of_map_to_list, Hps in Hin. unfold processor_c. cbn. by rewrite Hin. }
  assert (Forall (λ e : Z * streamStats, ss_stats e.2 = None)
            (range 216 (fm_streamStats fm))) as Hs.
  { apply Forall_forall. intros [id ss] Hin.
    unfold range in Hin. rewrite range_order_perm in Hin.
    by apply elem_of_map_to_list, Hss in Hin. }
  assert (∀ pick, Forall (λ e, stream_c pick e = None) (range 216 (fm_streamStats fm)))
    as Hs'.
  { intros pick. eapply Forall_impl; [exact Hs |]. intros e He. unfold stream_c.
    by rewrite He. }
  assert (slot_bags (range 251 (fm_flowStats fm)) = []) as ->.
  { apply slot_bags_nil, Forall_forall. intros [n fs] Hin.
    unfold range in Hin. rewrite range_order_perm in Hin.
    by apply elem_of_map_to_list, Hfs in Hin. }
  cbn [foldl].
  rewrite !(incr_with_none _ _ _ (Hp _)), !(incr_with_none _ _ _ (Hs' _)),
    (raise_with_none _ _ _ (Hs' _)).
  f_equal. unfold streams_errors.
  replace (omap (λ e : Z * streamStats, ss_stats e.2) (range 216 (fm_streamStats fm)))
    with (@nil execinfrapb.ComponentStats).
  - reflexivity.
  - symmetry. clear Hs'. induction Hs as [|e l He _ IH]; [done |].
    rewrite omap_cons_eq. cbn beta. by rewrite He.
Qed.

Lemma ProcessStats_query_zero `{MapRange} :
  ProcessStats_query NodeLevelStats_zero = QueryLevelStats_zero.
Proof.
  unfold ProcessStats_query, NodeLevelStats_zero. cbn. by rewrite !range_empty.
Qed.

(** X6: on a topology as [NewFlowMetadata] builds it, before any trace
    is added, [ProcessStats] returns empty node-level series, zero
    query-level scalars and a nil error, for every plan and every
    iteration order. *)
Theorem ProcessStats_fresh_topology (R R' : MapRange) (flows : gmap Z execinfrapb.FlowSpec)
    (h : heap) (a : TraceAnalyzer) :
  h !! ta_FlowMetadata a = Some (NewFlowMetadata (H := R) flows) →
  ProcessStats (H := R') h a
    = Some (mkTraceAnalyzer (ta_FlowMetadata a) NodeLevelStats_zero QueryLevelStats_zero,
            None).
Proof.
  intros Hfm. rewrite (ProcessStats_valid (H := R') h a _ Hfm).
  rewrite ProcessStats_node_no_bags; [by rewrite ProcessStats_query_zero | | |];
    rewrite NewFlowMetadata_loops; cbn [fm_processorStats fm_streamStats fm_flowStats].
  - intros id ps [Hps | (e & _ & _ & ->)]%insert_with_lookup; [| done].
    by rewrite lookup_empty in Hps.
  - intros id ss [Hss | (e & _ & _ & ->)]%insert_with_lookup; [| done].
    by rewrite lookup_empty in Hss.
  - intros n fs [Hfs | (e & _ & _ & ->)]%insert_with_lookup; [| done].
    by rewrite lookup_empty in Hfs.
Qed.

Lemma ProcessStats_fresh_topology_witness :
  ProcessStats (H := reversed_range)
    {[ 3%nat := NewFlowMetadata (H := canonical_range) Examples.plan_two_nodes ]}
    (MakeTraceAnalyzer 3)
  = Some (mkTraceAnalyzer 3 NodeLevelStats_zero QueryLevelStats_zero, None).
Proof.
  apply (ProcessStats_fresh_topology canonical_range reversed_range Examples.plan_two_nodes
           _ (MakeTraceAnalyzer 3)).
  apply lookup_singleton_eq.
Defined.

(** ** Ingestion: what it keeps and when it succeeds *)

Lemma same_identities_refl fm : same_identities fm fm.
Proof. by split_and!. Qed.

Lemma same_identities_trans fm1 fm2 fm3 :
  same_identities fm1 fm2 → same_identities fm2 fm3 → same_identities fm1 fm3.
Proof.
  intros (Hp & Hs & Hf) (Hp' & Hs' & Hf'). split_and!; intros id.
  - by rewrite Hp', Hp.
  - by rewrite Hs', Hs.
  - by rewrite Hf', Hf.
Qed.

Lemma same_identities_known fm fm' c :
  same_identities fm fm' → known fm' c ↔ known fm c.
Proof.
  intros (Hp & Hs & Hf). unfold known. destruct (execinfrapb.cid_Type c); [done | | |].
  - rewrite <-!(fmap_is_Some ps_nodeID). by rewrite Hp.
  - rewrite <-!(fmap_is_Some (λ ss, (ss_originNodeID ss, ss_destinationNodeID ss))).
    by rewrite Hs.
  - apply Hf.
Qed.

Lemma slots_extend_refl fm : slots_extend fm fm.
Proof. intros n fs Hfs. by exists fs. Qed.

Lemma slots_extend_trans fm1 fm2 fm3 :
  slots_extend fm1 fm2 → slots_extend fm2 fm3 → slots_extend fm1 fm3.
Proof.
  intros H12 H23 n fs Hfs. destruct (H12 n fs Hfs) as (fs2 & Hfs2 & Hpre2).
  destruct (H23 n fs2 Hfs2) as (fs3 & Hfs3 & Hpre3). exists fs3. split; [done |].
  by etrans.
Qed.

Local Ltac heap_unchanged :=
  split; [done |]; split; [done |]; split; [done |];
  split; [apply same_identities_refl |]; split; [apply slots_extend_refl |]; split.

Local Ltac heap_updated :=
  split; [done |];
  split; [by intros ? ?; rewrite lookup_insert_ne |];
  split; [apply lookup_insert_eq |].

Lemma AddTrace_entry_effect h p entry fm :
  h !! p = Some fm →
  ∃ h' e fm',
    AddTrace_entry h p entry = Some (h', e) ∧
    (∀ p', p' ≠ p → h' !! p' = h !! p') ∧
    h' !! p = Some fm' ∧ same_identities fm fm' ∧ slots_extend fm fm' ∧
    (e = None ↔ known fm entry.1) ∧
    (∀ err, e = Some err → err = unknown_component entry.1 ∧ h' = h).
Proof.
  intros Hfm. destruct entry as [c bag]. unfold AddTrace_entry, known, unknown_component.
  cbn [fst]. rewrite Hfm. cbn [mbind option_bind].
  destruct (execinfrapb.cid_Type c).
  - exists h, None, fm. heap_unchanged; done.
  - destruct (fm_processorStats fm !! execinfrapb.ID c) as [ps|] eqn:Hps.
    + eexists _, None, _. heap_updated.
      split; [| split; [by intros n fs0 ?; exists fs0 | done]].
      split; [| done]. intros id. cbn. rewrite lookup_insert.
      destruct (decide (execinfrapb.ID c = id)) as [<- |]; [| done]. by rewrite Hps.
    + exists h, (Some (unknown_processor (execinfrapb.ID c))), fm. heap_unchanged.
      * split; [done | by intros [? [=]]].
      * by intros err [= <-].
  - destruct (fm_streamStats fm !! execinfrapb.ID c) as [ss|] eqn:Hss.
    + eexists _, None, _. heap_updated.
      split; [| split; [by intros n fs0 ?; exists fs0 | done]].
      split; [done |]. split; [| done]. intros id. cbn. rewrite lookup_insert.
      destruct (decide (execinfrapb.ID c = id)) as [<- |]; [| done]. by rewrite Hss.
    + exists h, (Some (unknown_stream (execinfrapb.ID c))), fm. heap_unchanged.
      * split; [done | by intros [? [=]]].
      * by intros err [= <-].
  - destruct (fm_flowStats fm !! execinfrapb.NodeID c) as [fs|] eqn:Hfs.
    + eexists _, None, _. heap_updated.
      split; [| split; [| done]].
      * split; [done |]. split; [done |]. intros n. cbn. rewrite lookup_insert.
        destruct (decide (execinfrapb.NodeID c = n)) as [<- |]; [| done].
        split; intros _; by eexists.
      * intros n fs0 Hfs0. cbn. rewrite lookup_insert.
        destruct (decide (execinfrapb.NodeID c = n)) as [<- |].
        -- eexists. split; [done |]. cbn. rewrite Hfs in Hfs0. injection Hfs0 as <-.
           by apply prefix_app_r.
        -- by exists fs0.
    + exists h, (Some (unknown_flow (execinfrapb.FlowID c) (execinfrapb.NodeID c))), fm.
      heap_unchanged.
      * split; [done | by intros [? [=]]].
      * by intros err [= <-].
Qed.

Lemma AddTrace_loop_effect h p l fm :
  h !! p = Some fm →
  ∃ h' e fm',
    AddTrace_loop h p l = Some (h', e) ∧
    (∀ p', p' ≠ p → h' !! p' = h !! p') ∧
    h' !! p = Some fm' ∧ same_identities fm fm' ∧ slots_extend fm fm' ∧
    (e = None ↔ Forall (λ entry, known fm entry.1) l) ∧
    (∀ err, e = Some err →
       ∃ entry, entry ∈ l ∧ ¬ known fm entry.1 ∧ err = unknown_component entry.1).
Proof.
  revert h fm. induction l as [|entry l IH]; intros h fm Hfm.
  - exists h, None, fm. heap_unchanged; [done | done].
  - destruct (AddTrace_entry_effect h p entry fm Hfm)
      as (h1 & e1 & fm1 & Hrun1 & Hframe1 & Hfm1 & Hid1 & Hext1 & Hok1 & Herr1).
    cbn [AddTrace_loop]. rewrite Hrun1. destruct e1 as [err1|].
    + destruct (Herr1 err1 eq_refl) as [-> ->].
      exists h, (Some (unknown_component entry.1)), fm. heap_unchanged.
      * split; [done |]. intros [Hk _]%Forall_cons. by apply Hok1 in Hk.
      * intros err [= <-]. exists entry. split_and!; [by left | | done].
        intros Hk. by apply Hok1 in Hk.
    + destruct (IH h1 fm1 Hfm1)
        as (h2 & e2 & fm2 & Hrun2 & Hframe2 & Hfm2 & Hid2 & Hext2 & Hok2 & Herr2).
      exists h2, e2, fm2.
      split; [done |]. split; [by intros p' Hp'; rewrite Hframe2, Hframe1 |].
      split; [done |]. split; [by eapply same_identities_trans |].
      split; [by eapply slots_extend_trans |]. split.
      * rewrite Hok2, Forall_cons. split.
        -- intros Hall. split; [by apply Hok1 |].
           eapply Forall_impl; [exact Hall |]. intros x Hx.
           by apply (same_identities_known fm fm1).
        -- intros [_ Hall]. eapply Forall_impl; [exact Hall |]. intros x Hx.
           by apply (same_identities_known fm fm1).
      * intros err He. destruct (Herr2 err He) as (x & Hx & Hnk & ->).
        exists x. split_and!; [by right | | done].
        intros Hk. apply Hnk. by apply (same_identities_known fm fm1).
Qed.

(** X7: a call of [AddTrace] on an analyzer whose topology pointer is
    valid always returns, whether with an error or not, and it writes
    only bags of that one topology: every other cell of the heap is
    untouched, the topology keeps its identities (the same processor ids
    with the same owner node, the same stream ids with the same origin and
    destination, the same flow-slot nodes), and each flow-slot list is
    only extended at its end. *)
Theorem AddTrace_keeps_identities {RecordedSpan : Type}
    (ExtractStatsFromSpans :
       list RecordedSpan → bool → gmap execinfrapb.ComponentID execinfrapb.ComponentStats)
    `{MapRange} (h : heap) (a : TraceAnalyzer) (trace : list RecordedSpan)
    (makeDeterministic : bool) (fm : FlowMetadata) :
  h !! ta_FlowMetadata a = Some fm →
  ∃ h' e fm',
    AddTrace ExtractStatsFromSpans h a trace makeDeterministic = Some (h', e) ∧
    (∀ p, p ≠ ta_FlowMetadata a → h' !! p = h !! p) ∧
    h' !! ta_FlowMetadata a = Some fm' ∧
    same_identities fm fm' ∧ slots_extend fm fm'.
Proof.
  intros Hfm. unfold AddTrace.
  destruct (AddTrace_loop_effect h (ta_FlowMetadata a)
              (range 154 (ExtractStatsFromSpans trace makeDeterministic)) fm Hfm)
    as (h' & e & fm' & Hrun & Hframe & Hfm' & Hid & Hext & _).
  by exists h', e, fm'.
Qed.

Lemma AddTrace_keeps_identities_witness :
  ∃ h' e fm',
    AddTrace Examples.extract (H := reversed_range)
      {[ 0%nat := Examples.one_processor; 1%nat := Examples.stream_and_slot ]}
      (MakeTraceAnalyzer 0) Examples.trace_10_99 false = Some (h', e) ∧
    h' !! 1%nat = Some Examples.stream_and_slot ∧
    h' !! 0%nat = Some fm' ∧
    same_identities Examples.one_processor fm'.
Proof.
  assert (Hfm : ({[ 0%nat := Examples.one_processor; 1%nat := Examples.stream_and_slot ]} : heap)
                  !! ta_FlowMetadata (MakeTraceAnalyzer 0) = Some Examples.one_processor)
    by reflexivity.
  destruct (AddTrace_keeps_identities Examples.extract (H := reversed_range) _
              (MakeTraceAnalyzer 0) Examples.trace_10_99 false _ Hfm)
    as (h' & e & fm' & Hrun & Hframe & Hfm' & Hid & _).
  exists h', e, fm'. split; [exact Hrun |]. split; [| split; [exact Hfm' | exact Hid]].
  rewrite (Hframe 1%nat); [reflexivity | discriminate].
Defined.

(** X8: a call of [AddTrace] returns a nil error exactly when every
    component reference of the extracted map resolves in the topology,
    whatever the order in which the map is visited; and an error it
    returns is the descriptive error of one of the map's references that
    does not resolve. *)
Theorem AddTrace_nil_iff_all_known {RecordedSpan : Type}
    (ExtractStatsFromSpans :
       list RecordedSpan → bool → gmap execinfrapb.ComponentID execinfrapb.ComponentStats)
    `{MapRange} (h : heap) (a : TraceAnalyzer) (trace : list RecordedSpan)
    (makeDeterministic : bool) (fm : FlowMetadata) :
  h !! ta_FlowMetadata a = Some fm →
  ∃ h' e,
    AddTrace ExtractStatsFromSpans h a trace makeDeterministic = Some (h', e) ∧
    (e = None ↔
       ∀ c, is_Some (ExtractStatsFromSpans trace makeDeterministic !! c) → known fm c) ∧
    (∀ err, e = Some err →
       ∃ c, is_Some (ExtractStatsFromSpans trace makeDeterministic !! c) ∧
            ¬ known fm c ∧ err = unknown_component c).
Proof.
  intros Hfm. unfold AddTrace.
  destruct (AddTrace_loop_effect h (ta_FlowMetadata a)
              (range 154 (ExtractStatsFromSpans trace makeDeterministic)) fm Hfm)
    as (h' & e & fm' & Hrun & _ & _ & _ & _ & Hok & Herr).
  assert (Hin : ∀ c bag, (c, bag) ∈ range 154 (ExtractStatsFromSpans trace makeDeterministic)
                  ↔ ExtractStatsFromSpans trace makeDeterministic !! c = Some bag).
  { intros c bag. unfold range. rewrite (range_order_perm 154). apply elem_of_map_to_list. }
  exists h', e. split; [exact Hrun |]. split.
  - rewrite Hok, Forall_forall. split.
    + intros Hall c [bag Hc]. by apply (Hall (c, bag)), Hin.
    + intros Hall [c bag] Hc%Hin. apply Hall. by exists bag.
  - intros err He. destruct (Herr err He) as ([c bag] & Hc%Hin & Hnk & ->).
    exists c. split; [by exists bag | done].
Qed.

Lemma AddTrace_nil_iff_all_known_witness :
  ∃ h' err,
    AddTrace Examples.extract (H := reversed_range) {[ 0%nat := Examples.one_processor ]}
      (MakeTraceAnalyzer 0) Examples.trace_10_99 false
    = Some (h', Some err).
Proof.
  destruct (AddTrace_nil_iff_all_known Examples.extract (H := reversed_range)
              {[ 0%nat := Examples.one_processor ]} (MakeTraceAnalyzer 0)
              Examples.trace_10_99 false _ (lookup_singleton_eq _ _))
    as (h' & e & Hrun & Hok & _).
  destruct e as [err|]; [by exists h', err |].
  exfalso. destruct Hok as [Hok _]. specialize (Hok eq_refl Examples.stream_99).
  destruct Hok as [ss Hss].
  - eexists. vm_compute. reflexivity.
  - vm_compute in Hss. discriminate.
Defined.

(** ** Topology construction for every plan *)

Lemma insert_with_Permutation {A B} (k : A → Z) (v : A → B) (l l' : list A) :
  NoDup (k <$> l) → l ≡ₚ l' →
  foldl (insert_with k v) ∅ l = foldl (insert_with k v) ∅ l'.
Proof.
  intros Hnd Hperm. assert (Hnd' : NoDup (k <$> l')) by by rewrite <-Hperm.
  apply map_eq. intros i.
  destruct (foldl (insert_with k v) ∅ l !! i) as [x|] eqn:Hx.
  - apply insert_with_lookup in Hx as [Hx | (e & He & <- & ->)];
      [by rewrite lookup_empty in Hx |].
    symmetry. apply insert_with_lookup_NoDup; [done | by rewrite <-Hperm].
  - symmetry. apply not_elem_of_dom. apply not_elem_of_dom in Hx.
    rewrite insert_with_dom in *. by rewrite <-Hperm.
Qed.

Lemma insert_with_size_from {A B} (k : A → Z) (v : A → B) (m : gmap Z B) l :
  (size (foldl (insert_with k v) m l) ≤ size m + length l)%nat.
Proof.
  revert m. induction l as [|e l IH]; intros m; [cbn; lia |].
  cbn [foldl length]. etrans; [apply IH |]. unfold insert_with.
  destruct (m !! k e) eqn:He.
  - rewrite map_size_insert_Some by done. lia.
  - rewrite map_size_insert_None by done. lia.
Qed.

Lemma insert_with_size_le {A B} (k : A → Z) (v : A → B) l :
  (size (foldl (insert_with k v) (∅ : gmap Z B) l) ≤ length l)%nat.
Proof. etrans; [apply insert_with_size_from |]. by rewrite map_size_empty. Qed.

(** X9: for every plan, also one in which ids repeat, and whatever the
    order in which the plan is visited, the topology built by
    [NewFlowMetadata] has exactly the nodes of the plan as flow-slots,
    exactly the processor ids of the plan as processor identities and
    exactly the ids of its remote streams as stream identities; every
    identity it holds is that of a component of the plan (a processor with
    its node; a remote stream with the node of its processor and its
    target node) and has no bag; every flow-slot list is empty; and there
    are never more identities than components. *)
Theorem NewFlowMetadata_identities `{MapRange} (flows : gmap Z execinfrapb.FlowSpec) :
  dom (fm_flowStats (NewFlowMetadata flows)) = dom flows ∧
  dom (fm_processorStats (NewFlowMetadata flows))
    = list_to_set (processor_key <$> processors_of_plan flows) ∧
  dom (fm_streamStats (NewFlowMetadata flows))
    = list_to_set (stream_key <$> remote_streams_of_plan flows) ∧
  (∀ n fs, fm_flowStats (NewFlowMetadata flows) !! n = Some fs → fs_stats fs = []) ∧
  (∀ id ps, fm_processorStats (NewFlowMetadata flows) !! id = Some ps →
     ps_stats ps = None ∧
     ∃ proc, (ps_nodeID ps, proc) ∈ processors_of_plan flows ∧
             execinfrapb.ProcessorID proc = id) ∧
  (∀ id ss, fm_streamStats (NewFlowMetadata flows) !! id = Some ss →
     ss_stats ss = None ∧
     ∃ stream, (ss_originNodeID ss, stream) ∈ remote_streams_of_plan flows ∧
               execinfrapb.StreamID stream = id ∧
               execinfrapb.TargetNodeID stream = ss_destinationNodeID ss ∧
               execinfrapb.ses_Type stream = execinfrapb.StreamEndpointSpec_REMOTE) ∧
  (size (fm_processorStats (NewFlowMetadata flows)) ≤ length (processors_of_plan flows))%nat ∧
  (size (fm_streamStats (NewFlowMetadata flows)) ≤ length (remote_streams_of_plan flows))%nat.
Proof.
  rewrite NewFlowMetadata_loops. cbn [fm_processorStats fm_streamStats fm_flowStats].
  pose proof (plan_processors_range flows) as Hpp.
  pose proof (plan_remote_streams_range flows) as Hps.
  split_and!.
  - rewrite insert_with_dom, dom_empty_L, union_empty_l_L.
    unfold range. rewrite range_order_perm. apply leibniz_equiv. by rewrite <-dom_alt.
  - rewrite insert_with_dom, dom_empty_L, union_empty_l_L. apply leibniz_equiv.
    by rewrite Hpp.
  - rewrite insert_with_dom, dom_empty_L, union_empty_l_L. apply leibniz_equiv.
    by rewrite Hps.
  - intros n fs [Hfs | (e & _ & _ & ->)]%insert_with_lookup; [| done].
    by rewrite lookup_empty in Hfs.
  - intros id ps [Hps' | (e & He & Hk & ->)]%insert_with_lookup;
      [by rewrite lookup_empty in Hps' |].
    split; [done |]. exists e.2. split; [| done].
    rewrite <-Hpp. by destruct e.
  - intros id ss [Hss | (e & He & Hk & ->)]%insert_with_lookup;
      [by rewrite lookup_empty in Hss |].
    split; [done |]. exists e.2. split_and!; try done.
    + rewrite <-Hps. by destruct e.
    + by apply is_remote_filter in He.
  - rewrite <-Hpp. apply insert_with_size_le.
  - rewrite <-Hps. apply insert_with_size_le.
Qed.

(** X10: for a plan whose processor ids are pairwise distinct and whose
    remote-stream ids are pairwise distinct, the topology built by
    [NewFlowMetadata] does not depend on the order in which the plan is
    visited. *)
Theorem NewFlowMetadata_order_independent (R1 R2 : MapRange)
    (flows : gmap Z execinfrapb.FlowSpec) :
  NoDup (processor_key <$> processors_of_plan flows) →
  NoDup (stream_key <$> remote_streams_of_plan flows) →
  NewFlowMetadata (H := R1) flows = NewFlowMetadata (H := R2) flows.
Proof.
  intros Hprocs Hstreams. rewrite !NewFlowMetadata_loops. f_equal.
  - apply insert_with_Permutation.
    + by rewrite (plan_processors_range (H := R1)).
    + by rewrite (plan_processors_range (H := R1)), (plan_processors_range (H := R2)).
  - apply insert_with_Permutation.
    + by rewrite (plan_remote_streams_range (H := R1)).
    + by rewrite (plan_remote_streams_range (H := R1)), (plan_remote_streams_range (H := R2)).
  - apply insert_with_Permutation.
    + unfold range. rewrite range_order_perm. apply NoDup_fst_map_to_list.
    + unfold range. by rewrite !range_order_perm.
Qed.

Lemma NewFlowMetadata_order_independent_witness :
  NewFlowMetadata (H := canonical_range) Examples.plan_two_nodes
    = NewFlowMetadata (H := reversed_range) Examples.plan_two_nodes.
Proof.
  apply (NewFlowMetadata_order_independent canonical_range reversed_range
           Examples.plan_two_nodes).
  - compute_done.
  - compute_done.
Defined.

(** ** From the trace to the totals *)

Lemma omap_map_to_list_insert {B C} (f : Z * B → option C) (m : gmap Z B) k x y :
  m !! k = Some x →
  omap f (map_to_list (<[k := y]> m)) ≡ₚ
    option_list (f (k, y)) ++ omap f (map_to_list (delete k m)) ∧
  omap f (map_to_list m) ≡ₚ option_list (f (k, x)) ++ omap f (map_to_list (delete k m)).
Proof.
  intros Hk. split.
  - rewrite <-insert_delete_eq, map_to_list_insert by apply lookup_delete_eq.
    rewrite omap_cons_eq. by destruct (f (k, y)).
  - rewrite <-(map_to_list_delete m k x Hk), omap_cons_eq. by destruct (f (k, x)).
Qed.

Lemma bind_map_to_list_insert {B C} (f : Z * B → list C) (m : gmap Z B) k x y :
  m !! k = Some x →
  map_to_list (<[k := y]> m) ≫= f ≡ₚ f (k, y) ++ (map_to_list (delete k m) ≫= f) ∧
  map_to_list m ≫= f ≡ₚ f (k, x) ++ (map_to_list (delete k m) ≫= f).
Proof.
  intros Hk. split.
  - rewrite <-insert_delete_eq, map_to_list_insert by apply lookup_delete_eq.
    by rewrite bind_cons.
  - by rewrite <-(map_to_list_delete m k x Hk), bind_cons.
Qed.

Lemma entries_of_cons ty e l :
  entries_of ty (e :: l) =
    if decide (execinfrapb.cid_Type e.1 = ty) then e :: entries_of ty l else entries_of ty l.
Proof. unfold entries_of. by rewrite filter_cons. Qed.

Lemma omap_none {A B} (f : A → option B) l : Forall (λ e, f e = None) l → omap f l = [].
Proof. induction 1 as [|e l He _ IH]; [done |]. by rewrite omap_cons_eq, He. Qed.

Lemma bind_nil_all {A B} (f : A → list B) l : Forall (λ e, f e = []) l → l ≫= f = [].
Proof. induction 1 as [|e l He _ IH]; [done |]. by rewrite bind_cons, He, IH. Qed.

Lemma no_bags_lists fm :
  no_bags fm →
  all_processor_bags fm = [] ∧ present_stream_bags fm = [] ∧ all_flow_bags fm = [].
Proof.
  intros (Hp & Hs & Hf). split_and!.
  - apply omap_none, Forall_forall. intros [id ps] Hin%elem_of_map_to_list. by eapply Hp.
  - apply omap_none, Forall_forall. intros [id ss] Hin%elem_of_map_to_list. by eapply Hs.
  - apply bind_nil_all, Forall_forall. intros [n fs] Hin%elem_of_map_to_list. by eapply Hf.
Qed.

Lemma known_mono fm fm' c :
  (∀ id, is_Some (fm_processorStats fm !! id) → is_Some (fm_processorStats fm' !! id)) →
  (∀ id, is_Some (fm_streamStats fm !! id) → is_Some (fm_streamStats fm' !! id)) →
  (∀ n, is_Some (fm_flowStats fm !! n) → is_Some (fm_flowStats fm' !! n)) →
  known fm c → known fm' c.
Proof. intros Hp Hs Hf. unfold known. destruct (execinfrapb.cid_Type c); auto. Qed.

Lemma is_Some_insert {B} (m : gmap Z B) k y id :
  is_Some (m !! id) → is_Some (<[k := y]> m !! id).
Proof. intros Hid. apply lookup_insert_is_Some'. by right. Qed.

Lemma all_processor_bags_attach fm id ps bag streams flows :
  fm_processorStats fm !! id = Some ps → ps_stats ps = None →
  all_processor_bags
    (mkFlowMetadata (<[id := mkProcessorStats (ps_nodeID ps) (Some bag)]> (fm_processorStats fm))
       streams flows)
  ≡ₚ bag :: all_processor_bags fm.
Proof.
  intros Hps Hnone. unfold all_processor_bags. cbn [fm_processorStats].
  destruct (omap_map_to_list_insert (λ e : Z * processorStats, ps_stats e.2)
              (fm_processorStats fm) id ps (mkProcessorStats (ps_nodeID ps) (Some bag)) Hps)
    as [Hnew Hold].
  rewrite Hnew, Hold. cbn [snd ps_stats]. by rewrite Hnone.
Qed.

Lemma present_stream_bags_attach fm id ss bag procs flows :
  fm_streamStats fm !! id = Some ss → ss_stats ss = None →
  present_stream_bags
    (mkFlowMetadata procs
       (<[id := mkStreamStats (ss_originNodeID ss) (ss_destinationNodeID ss) (Some bag)]>
          (fm_streamStats fm)) flows)
  ≡ₚ bag :: present_stream_bags fm.
Proof.
  intros Hss Hnone. unfold present_stream_bags. cbn [fm_streamStats].
  destruct (omap_map_to_list_insert (λ e : Z * streamStats, ss_stats e.2)
              (fm_streamStats fm) id ss
              (mkStreamStats (ss_originNodeID ss) (ss_destinationNodeID ss) (Some bag)) Hss)
    as [Hnew Hold].
  rewrite Hnew, Hold. cbn [snd ss_stats]. by rewrite Hnone.
Qed.

Lemma all_flow_bags_append fm n fs bag procs streams :
  fm_flowStats fm !! n = Some fs →
  all_flow_bags
    (mkFlowMetadata procs streams
       (<[n := mkFlowStats (fs_stats fs ++ [bag])]> (fm_flowStats fm)))
  ≡ₚ all_flow_bags fm ++ [bag].
Proof.
  intros Hfs. unfold all_flow_bags. cbn [fm_flowStats].
  destruct (bind_map_to_list_insert (λ e : Z * flowStats, fs_stats e.2)
              (fm_flowStats fm) n fs (mkFlowStats (fs_stats fs ++ [bag])) Hfs)
    as [Hnew Hold].
  rewrite Hnew, Hold. cbn [snd fs_stats].
  rewrite <-!app_assoc. apply Permutation_app_head, Permutation_app_comm.
Qed.

(** The bags of a topology after a successful ingestion of the entries
    [l]: those it had and those of [l], when the processors and streams
    that [l] refers to have no bag yet and are referred to once. *)
Lemma AddTrace_loop_bags h p l fm :
  h !! p = Some fm →
  Forall (λ e, known fm e.1) l →
  NoDup ((λ e, execinfrapb.ID e.1) <$> entries_of execinfrapb.ComponentID_PROCESSOR l) →
  NoDup ((λ e, execinfrapb.ID e.1) <$> entries_of execinfrapb.ComponentID_STREAM l) →
  (∀ e ps, e ∈ entries_of execinfrapb.ComponentID_PROCESSOR l →
     fm_processorStats fm !! execinfrapb.ID e.1 = Some ps → ps_stats ps = None) →
  (∀ e ss, e ∈ entries_of execinfrapb.ComponentID_STREAM l →
     fm_streamStats fm !! execinfrapb.ID e.1 = Some ss → ss_stats ss = None) →
  ∃ h' fm',
    AddTrace_loop h p l = Some (h', None) ∧ h' !! p = Some fm' ∧
    all_processor_bags fm' ≡ₚ
      all_processor_bags fm ++ (entries_of execinfrapb.ComponentID_PROCESSOR l).*2 ∧
    present_stream_bags fm' ≡ₚ
      present_stream_bags fm ++ (entries_of execinfrapb.ComponentID_STREAM l).*2 ∧
    all_flow_bags fm' ≡ₚ
      all_flow_bags fm ++ (entries_of execinfrapb.ComponentID_FLOW l).*2.
Proof.
  revert h fm. induction l as [|[c bag] l IH]; intros h fm Hfm Hknown Hndp Hnds Hp Hs.
  - exists h, fm. split_and!; try done; by rewrite app_nil_r.
  - apply Forall_cons in Hknown as [Hc Hknown]. cbn [fst] in Hc.
    rewrite !entries_of_cons in *. cbn [fst] in *.
    cbn [AddTrace_loop]. unfold AddTrace_entry, known in Hc |- *.
    destruct (execinfrapb.cid_Type c) eqn:Hty.
    + rewrite !decide_False in * by done.
      destruct (IH h fm) as (h' & fm' & Hrun & Hfm' & Hpb & Hsb & Hfb); try done.
      by exists h', fm'.
    + rewrite decide_True in Hndp, Hp |- * by done.
      rewrite !decide_False in * by done.
      destruct Hc as [ps Hps]. rewrite Hfm. cbn [mbind option_bind]. rewrite Hps.
      rewrite fmap_cons in Hndp. apply NoDup_cons in Hndp as [Hfresh Hndp]. cbn [fst] in Hfresh.
      assert (ps_stats ps = None) as Hnone by (apply (Hp (c, bag)); [by left | done]).
      set (fm1 := mkFlowMetadata _ _ _).
      destruct (IH (<[p := fm1]> h) fm1) as (h' & fm' & Hrun & Hfm' & Hpb & Hsb & Hfb);
        [apply lookup_insert_eq | | done | done | | done |].
      * eapply Forall_impl; [exact Hknown |]. intros e. apply known_mono; [| done | done].
        intros id. apply is_Some_insert.
      * intros e ps' He. subst fm1. cbn [fm_processorStats].
        rewrite lookup_insert_ne.
        -- apply Hp. by right.
        -- intros Heq. apply Hfresh. rewrite Heq. apply list_elem_of_fmap. by exists e.
      * exists h', fm'. split_and!; try done.
        rewrite Hpb. subst fm1. rewrite all_processor_bags_attach by done.
        rewrite fmap_cons. cbn [snd]. apply Permutation_middle.
    + rewrite (decide_True (P := execinfrapb.ComponentID_STREAM = execinfrapb.ComponentID_STREAM))
        in Hnds, Hs |- * by done.
      rewrite !decide_False in * by done.
      destruct Hc as [ss Hss]. rewrite Hfm. cbn [mbind option_bind]. rewrite Hss.
      rewrite fmap_cons in Hnds. apply NoDup_cons in Hnds as [Hfresh Hnds]. cbn [fst] in Hfresh.
      assert (ss_stats ss = None) as Hnone by (apply (Hs (c, bag)); [by left | done]).
      set (fm1 := mkFlowMetadata _ _ _).
      destruct (IH (<[p := fm1]> h) fm1) as (h' & fm' & Hrun & Hfm' & Hpb & Hsb & Hfb);
        [apply lookup_insert_eq | | done | done | done | |].
      * eapply Forall_impl; [exact Hknown |]. intros e. apply known_mono; [done | | done].
        intros id. apply is_Some_insert.
      * intros e ss' He. subst fm1. cbn [fm_streamStats].
        rewrite lookup_insert_ne.
        -- apply Hs. by right.
        -- intros Heq. apply Hfresh. rewrite Heq. apply list_elem_of_fmap. by exists e.
      * exists h', fm'. split_and!; try done.
        rewrite Hsb. subst fm1. rewrite present_stream_bags_attach by done.
        rewrite fmap_cons. cbn [snd]. apply Permutation_middle.
    + rewrite (decide_True (P := execinfrapb.ComponentID_FLOW = execinfrapb.ComponentID_FLOW))
        by done.
      rewrite !decide_False in * by done.
      destruct Hc as [fs Hfs]. rewrite Hfm. cbn [mbind option_bind]. rewrite Hfs.
      set (fm1 := mkFlowMetadata _ _ _).
      destruct (IH (<[p := fm1]> h) fm1) as (h' & fm' & Hrun & Hfm' & Hpb & Hsb & Hfb);
        [apply lookup_insert_eq | | done | done | done | done |].
      * eapply Forall_impl; [exact Hknown |]. intros e. apply known_mono; [done | done |].
        intros n. apply is_Some_insert.
      * exists h', fm'. split_and!; try done.
        rewrite Hfb. subst fm1. rewrite all_flow_bags_append by done.
        rewrite fmap_cons. cbn [snd]. by rewrite <-app_assoc.
Qed.

Lemma NewFlowMetadata_no_bags `{MapRange} flows : no_bags (NewFlowMetadata flows).
Proof.
  rewrite NewFlowMetadata_loops. unfold no_bags.
  cbn [fm_processorStats fm_streamStats fm_flowStats]. split_and!.
  - intros id ps [Hps | (e & _ & _ & ->)]%insert_with_lookup; [| done].
    by rewrite lookup_empty in Hps.
  - intros id ss [Hss | (e & _ & _ & ->)]%insert_with_lookup; [| done].
    by rewrite lookup_empty in Hss.
  - intros n fs [Hfs | (e & _ & _ & ->)]%insert_with_lookup; [| done].
    by rewrite lookup_empty in Hfs.
Qed.

Lemma entries_of_range `{MapRange} ty
    (m : gmap execinfrapb.ComponentID execinfrapb.ComponentStats) :
  entries_of ty (range 154 m) ≡ₚ entries_of ty (map_to_list m).
Proof. unfold entries_of, range. by rewrite range_order_perm. Qed.

(** X11: ingestion followed by reduction, on a topology without bags (as
    [NewFlowMetadata] builds it).  When every reference of the extracted
    map resolves in the topology, and no two processor references of the
    map share an id, nor two stream references, [AddTrace] returns nil
    and [ProcessStats] then computes the totals of the bags of the trace:
    the processor-sourced scalars are the sums over the bags of the
    processor references (ContentionTime being that of the kv-time
    field), the network scalars the sums over the bags of the stream
    references that satisfy the exclusivity rule, MaxMemUsage the maximum
    of the peak-memory values of the bags of the stream and flow
    references; the error of [ProcessStats] is nil exactly when every bag
    of a stream reference satisfies both rules.  The order in which the
    maps are visited plays no part. *)
Theorem AddTrace_ProcessStats_totals {RecordedSpan : Type}
    (ExtractStatsFromSpans :
       list RecordedSpan → bool → gmap execinfrapb.ComponentID execinfrapb.ComponentStats)
    `{MapRange} (h : heap) (a : TraceAnalyzer) (trace : list RecordedSpan)
    (makeDeterministic : bool) (fm : FlowMetadata) :
  h !! ta_FlowMetadata a = Some fm →
  no_bags fm →
  (∀ c, is_Some (ExtractStatsFromSpans trace makeDeterministic !! c) → known fm c) →
  NoDup (trace_ids execinfrapb.ComponentID_PROCESSOR
           (ExtractStatsFromSpans trace makeDeterministic)) →
  NoDup (trace_ids execinfrapb.ComponentID_STREAM
           (ExtractStatsFromSpans trace makeDeterministic)) →
  ∃ h' a' errs,
    AddTrace ExtractStatsFromSpans h a trace makeDeterministic = Some (h', None) ∧
    ProcessStats h' a = Some (a', errs) ∧
    KVBytesRead (queryLevelStats a')
      = int64 (Zsum (kv_bytes_read <$>
                       trace_bags execinfrapb.ComponentID_PROCESSOR
                         (ExtractStatsFromSpans trace makeDeterministic))) ∧
    KVRowsRead (queryLevelStats a')
      = int64 (Zsum (kv_rows_read <$>
                       trace_bags execinfrapb.ComponentID_PROCESSOR
                         (ExtractStatsFromSpans trace makeDeterministic))) ∧
    KVTime (queryLevelStats a')
      = int64 (Zsum (kv_time <$>
                       trace_bags execinfrapb.ComponentID_PROCESSOR
                         (ExtractStatsFromSpans trace makeDeterministic))) ∧
    ContentionTime (queryLevelStats a')
      = int64 (Zsum (kv_time <$>
                       trace_bags execinfrapb.ComponentID_PROCESSOR
                         (ExtractStatsFromSpans trace makeDeterministic))) ∧
    NetworkBytesSent (queryLevelStats a')
      = int64 (Zsum (omap network_bytes
                       (trace_bags execinfrapb.ComponentID_STREAM
                          (ExtractStatsFromSpans trace makeDeterministic)))) ∧
    NetworkMessages (queryLevelStats a')
      = int64 (Zsum (omap network_messages
                       (trace_bags execinfrapb.ComponentID_STREAM
                          (ExtractStatsFromSpans trace makeDeterministic)))) ∧
    MaxMemUsage (queryLevelStats a')
      = Zmax_from 0 (omap peak_memory
                       (trace_bags execinfrapb.ComponentID_STREAM
                          (ExtractStatsFromSpans trace makeDeterministic) ++
                        trace_bags execinfrapb.ComponentID_FLOW
                          (ExtractStatsFromSpans trace makeDeterministic))) ∧
    (errs = None ↔
       ∀ v, v ∈ trace_bags execinfrapb.ComponentID_STREAM
                  (ExtractStatsFromSpans trace makeDeterministic) →
            is_Some (network_bytes v) ∧ is_Some (network_messages v)).
Proof.
  intros Hfm Hnone Hknown Hndp Hnds.
  set (m := ExtractStatsFromSpans trace makeDeterministic) in *.
  destruct (no_bags_lists fm Hnone) as (Hp0 & Hs0 & Hf0).
  destruct Hnone as (Hp & Hs & _).
  destruct (AddTrace_loop_bags h (ta_FlowMetadata a) (range 154 m) fm Hfm)
    as (h' & fm' & Hrun & Hfm' & Hpb & Hsb & Hfb).
  - apply Forall_forall. intros [c bag] Hin. apply Hknown. exists bag.
    unfold range in Hin. rewrite range_order_perm in Hin. by apply elem_of_map_to_list.
  - unfold trace_ids in Hndp. by rewrite entries_of_range.
  - unfold trace_ids in Hnds. by rewrite entries_of_range.
  - intros e ps _. apply Hp.
  - intros e ss _. apply Hs.
  - rewrite Hp0, entries_of_range in Hpb. rewrite Hs0, entries_of_range in Hsb.
    rewrite Hf0, entries_of_range in Hfb. cbn [app] in Hpb, Hsb, Hfb.
    fold (trace_bags execinfrapb.ComponentID_PROCESSOR m) in Hpb.
    fold (trace_bags execinfrapb.ComponentID_STREAM m) in Hsb.
    fold (trace_bags execinfrapb.ComponentID_FLOW m) in Hfb.
    eexists h', _, _. split; [exact Hrun |]. split; [by apply ProcessStats_valid |].
    cbn [queryLevelStats].
    destruct (ProcessStats_query_totals fm') as (H1 & H2 & H3 & H4 & H5 & H6 & H7).
    rewrite H1, H2, H3, H4, H5, H6, H7, Hpb, Hsb, Hfb.
    split_and!; try done.
    rewrite node_errors. by setoid_rewrite Hsb.
Qed.

(** The plan of node 1 (processor 10, remote stream 99 to node 2) and
    node 2 (processor 11), and the trace with kv-bytes-read 100 for
    processor 10 and bytesSent 40, messagesSent 4 for stream 99. *)
Lemma AddTrace_ProcessStats_totals_witness :
  ∃ h' a',
    AddTrace Examples.extract (H := reversed_range)
      {[ 0%nat := NewFlowMetadata (H := canonical_range) Examples.plan_two_nodes ]}
      (MakeTraceAnalyzer 0) Examples.trace_10_99 false = Some (h', None) ∧
    ProcessStats (H := reversed_range) h' (MakeTraceAnalyzer 0) = Some (a', None) ∧
    KVBytesRead (queryLevelStats a') = 100 ∧
    NetworkBytesSent (queryLevelStats a') = 40 ∧
    NetworkMessages (queryLevelStats a') = 4 ∧
    MaxMemUsage (queryLevelStats a') = 0.
Proof.
  destruct (AddTrace_ProcessStats_totals Examples.extract (H := reversed_range)
              {[ 0%nat := NewFlowMetadata (H := canonical_range) Examples.plan_two_nodes ]}
              (MakeTraceAnalyzer 0) Examples.trace_10_99 false _ (lookup_singleton_eq _ _))
    as (h' & a' & errs & Hadd & Hproc & Hb & _ & _ & _ & Hn & Hm & Hmax & Herrs).
  - apply NewFlowMetadata_no_bags.
  - intros c [bag Hc]. apply elem_of_list_to_map_2 in Hc.
    apply elem_of_cons in Hc as [Hc | Hc]; [injection Hc as -> _; vm_compute; eexists; reflexivity |].
    apply elem_of_cons in Hc as [Hc | Hc]; [injection Hc as -> _; vm_compute; eexists; reflexivity |].
    by apply elem_of_nil in Hc.
  - vm_compute. repeat constructor; set_solver.
  - vm_compute. repeat constructor; set_solver.
  - exists h', a'. split; [exact Hadd |].
    assert (trace_bags execinfrapb.ComponentID_STREAM
              (Examples.extract Examples.trace_10_99 false)
            = [Examples.bag_net None None (Some 40) (Some 4) None]) as Hbags
      by (vm_compute; reflexivity).
    assert (errs = None) as Hnil.
    { apply Herrs. intros v Hv. rewrite Hbags in Hv.
      apply list_elem_of_singleton in Hv as ->.
      split; eexists; reflexivity. }
    subst errs. split; [exact Hproc |]. rewrite Hb, Hn, Hm, Hmax.
    vm_compute. repeat split.
Defined.

(** ** The driver and the heap *)

Lemma AddTrace_loop_nil_pointer h p l :
  h !! p = None → AddTrace_loop h p l = None ∨ AddTrace_loop h p l = Some (h, None).
Proof.
  intros Hp. induction l as [|[c bag] l IH]; [by right |].
  cbn [AddTrace_loop]. unfold AddTrace_entry. rewrite Hp. cbn [mbind option_bind].
  destruct (execinfrapb.cid_Type c); [exact IH | by left | by left | by left].
Qed.

Section driver_heap.
Context {RecordedSpan : Type}.
Variable ExtractStatsFromSpans :
  list RecordedSpan → bool → gmap execinfrapb.ComponentID execinfrapb.ComponentStats.
Variables (trace : list RecordedSpan) (deterministicExplainAnalyze : bool).

Lemma run_topology_heap `{MapRange} h p h' o :
  run_topology ExtractStatsFromSpans trace deterministicExplainAnalyze h p = Some (h', o) →
  is_Some (h !! p) ∧ (∀ p', p' ≠ p → h' !! p' = h !! p') ∧ heap_kept h h' ∧
  (∀ p', h !! p' = None → h' !! p' = None).
Proof.
  unfold run_topology, AddTrace.
  change (ta_FlowMetadata (MakeTraceAnalyzer p)) with p.
  destruct (h !! p) as [fm|] eqn:Hfm.
  - destruct (AddTrace_loop_effect h p
                (range 154 (ExtractStatsFromSpans trace deterministicExplainAnalyze)) fm Hfm)
      as (h1 & e & fm1 & Hrun & Hframe & Hfm1 & Hid & Hext & _).
    rewrite Hrun. intros Hres.
    assert (h' = h1) as ->.
    { destruct e; [by injection Hres as -> _ |].
      destruct (ProcessStats h1 (MakeTraceAnalyzer p)) as [[a' [err|]]|];
        [by injection Hres as -> _ | by injection Hres as -> _ | done]. }
    split; [done |]. split; [done |]. split.
    + intros p' fm' Hp'. destruct (decide (p' = p)) as [-> |].
      * exists fm1. rewrite Hfm in Hp'. by injection Hp' as <-.
      * exists fm'. rewrite Hframe by done. split; [done |].
        split; [apply same_identities_refl | apply slots_extend_refl].
    + intros p' Hp'. rewrite Hframe; [done |]. intros ->. by rewrite Hfm in Hp'.
  - destruct (AddTrace_loop_nil_pointer h p
                (range 154 (ExtractStatsFromSpans trace deterministicExplainAnalyze)) Hfm)
      as [-> | ->]; [done |].
    unfold ProcessStats. change (ta_FlowMetadata (MakeTraceAnalyzer p)) with p.
    by rewrite Hfm.
Qed.

Lemma heap_kept_trans h1 h2 h3 : heap_kept h1 h2 → heap_kept h2 h3 → heap_kept h1 h3.
Proof.
  intros H12 H23 p fm Hfm. destruct (H12 p fm Hfm) as (fm2 & Hfm2 & Hid2 & Hext2).
  destruct (H23 p fm2 Hfm2) as (fm3 & Hfm3 & Hid3 & Hext3). exists fm3. split; [done |].
  split; [by eapply same_identities_trans | by eapply slots_extend_trans].
Qed.

Lemma run_topologies_heap orders i h ptrs :
  match run_topologies ExtractStatsFromSpans trace deterministicExplainAnalyze orders i h ptrs with
  | Some (h', os) =>
      Forall (λ p, is_Some (h !! p)) ptrs ∧ length os = length ptrs ∧
      (∀ p, p ∉ ptrs → h' !! p = h !! p) ∧ heap_kept h h' ∧
      (∀ p, h !! p = None → h' !! p = None)
  | None => ¬ Forall (λ p, is_Some (h !! p)) ptrs
  end.
Proof.
  revert i h. induction ptrs as [|p ptrs IH]; intros i h.
  - cbn. split_and!; try done. intros p fm Hfm. exists fm. split; [done |].
    split; [apply same_identities_refl | apply slots_extend_refl].
  - cbn [run_topologies].
    destruct (run_topology ExtractStatsFromSpans trace deterministicExplainAnalyze
                (H := orders i) h p) as [[h1 o]|] eqn:Hrun.
    + apply run_topology_heap in Hrun as (Hp & Hframe1 & Hkept1 & Hnone1).
      specialize (IH (S i) h1).
      destruct (run_topologies ExtractStatsFromSpans trace deterministicExplainAnalyze
                  orders (S i) h1 ptrs) as [[h2 os]|].
      * destruct IH as (Hall & Hlen & Hframe2 & Hkept2 & Hnone2). split_and!.
        -- constructor; [done |]. eapply Forall_impl; [exact Hall |].
           intros p' [fm' Hp']. cbn beta.
           destruct (h !! p') eqn:Hh; [done |]. apply Hnone1 in Hh. congruence.
        -- cbn. by rewrite Hlen.
        -- intros p' [Hne Hnin]%not_elem_of_cons. by rewrite Hframe2, Hframe1.
        -- by eapply heap_kept_trans.
        -- intros p' Hp'. by apply Hnone2, Hnone1.
      * intros [_ Hall]%Forall_cons. apply IH. eapply Forall_impl; [exact Hall |].
        intros p' [fm' Hp']. cbn beta. destruct (Hkept1 p' fm' Hp') as (fm1 & -> & _). done.
    + intros [Hp _]%Forall_cons.
      destruct (run_topology_total ExtractStatsFromSpans trace deterministicExplainAnalyze
                  (H := orders i) h p Hp) as (h1 & o & Ho & _).
      congruence.
Qed.

End driver_heap.

(** X12: the driver returns, instead of stopping on the dereference of a
    nil topology pointer, exactly when every pointer of the list is
    valid.  When it returns, it has written bags only: the cells of the
    heap that the list does not point to are untouched, no cell is
    allocated, and every topology keeps its identities, its flow-slot
    lists being only extended at their end. *)
Theorem GetQueryLevelStats_returns_iff_valid {RecordedSpan : Type}
    (ExtractStatsFromSpans :
       list RecordedSpan → bool → gmap execinfrapb.ComponentID execinfrapb.ComponentStats)
    (orders : nat → MapRange) (h : heap) (trace : list RecordedSpan)
    (deterministicExplainAnalyze : bool) (flowMetadata : list nat) :
  match GetQueryLevelStats ExtractStatsFromSpans orders h trace deterministicExplainAnalyze
          flowMetadata with
  | Some (h', _, _) =>
      Forall (λ p, is_Some (h !! p)) flowMetadata ∧
      (∀ p, p ∉ flowMetadata → h' !! p = h !! p) ∧
      (∀ p, h !! p = None → h' !! p = None) ∧
      (∀ p fm, h !! p = Some fm →
         ∃ fm', h' !! p = Some fm' ∧ same_identities fm fm' ∧ slots_extend fm fm')
  | None => ¬ Forall (λ p, is_Some (h !! p)) flowMetadata
  end.
Proof.
  unfold GetQueryLevelStats. rewrite GetQueryLevelStats_loop_outcomes.
  pose proof (run_topologies_heap ExtractStatsFromSpans trace deterministicExplainAnalyze
                orders 0 h flowMetadata) as Hheap.
  destruct (run_topologies ExtractStatsFromSpans trace deterministicExplainAnalyze
              orders 0 h flowMetadata) as [[h' os]|]; [| done].
  destruct Hheap as (Hall & _ & Hframe & Hkept & Hnone). by split_and!.
Qed.

(** X13: over valid topology pointers, the error returned by the driver
    is nil exactly when the ingestion and the reduction of every topology
    returned nil; the scalars returned are then those of the last
    topology of the list. *)
Theorem GetQueryLevelStats_nil_error {RecordedSpan : Type}
    (ExtractStatsFromSpans :
       list RecordedSpan → bool → gmap execinfrapb.ComponentID execinfrapb.ComponentStats)
    (orders : nat → MapRange) (h : heap) (trace : list RecordedSpan)
    (deterministicExplainAnalyze : bool) (flowMetadata : list nat) :
  Forall (λ p, is_Some (h !! p)) flowMetadata →
  ∃ h' os q errs,
    run_topologies ExtractStatsFromSpans trace deterministicExplainAnalyze orders 0 h
      flowMetadata = Some (h', os) ∧
    length os = length flowMetadata ∧
    GetQueryLevelStats ExtractStatsFromSpans orders h trace deterministicExplainAnalyze
      flowMetadata = Some (h', q, errs) ∧
    (errs = None ↔ ∀ o, o ∈ os → ∃ q', o = Succeeded q') ∧
    (errs = None → ∀ o, last os = Some o → o = Succeeded q).
Proof.
  intros Hvalid.
  destruct (run_topologies_total ExtractStatsFromSpans trace deterministicExplainAnalyze
              orders 0 h flowMetadata Hvalid) as (h' & os & Hrun & Hlen).
  exists h', os, (last_success os), (combine_all None (omap failure_of os)).
  split; [done |]. split; [done |]. split.
  { unfold GetQueryLevelStats. by rewrite GetQueryLevelStats_loop_outcomes, Hrun. }
  assert (combine_all None (omap failure_of os) = None ↔ ∀ o, o ∈ os → ∃ q', o = Succeeded q')
    as Hnil.
  { rewrite combine_all_None. split.
    - intros [_ Hnone] o Ho. destruct o as [err|d err|q']; [| | by exists q'].
      + assert (Wrap err "error analyzing trace statistics" ∈ omap failure_of os) as Hin
          by (apply list_elem_of_omap; by exists (IngestionFailed err)).
        rewrite Hnone in Hin. by apply elem_of_nil in Hin.
      + assert (err ∈ omap failure_of os) as Hin
          by (apply list_elem_of_omap; by exists (ReductionFailed d err)).
        rewrite Hnone in Hin. by apply elem_of_nil in Hin.
    - intros Hall. split; [done |]. apply omap_none, Forall_forall.
      intros o Ho. by destruct (Hall o Ho) as [q' ->]. }
  split; [exact Hnil |].
  intros Hnone o Hlast. pose proof (proj1 Hnil Hnone) as Hall.
  apply last_Some in Hlast as [os' ->].
  destruct (Hall o) as [q' ->]; [apply elem_of_app; right; by left |].
  by rewrite last_success_snoc.
Qed.

(** One topology with processor 10 and stream 99: the ingestion of the
    trace and the reduction succeed, and the driver returns a nil
    error. *)
Lemma GetQueryLevelStats_nil_error_witness :
  ∃ h' q,
    GetQueryLevelStats Examples.extract (λ _, canonical_range)
      {[ 0%nat := Examples.processor_and_stream ]} Examples.trace_10_99 false [0%nat]
    = Some (h', q, None).
Proof.
  assert (Forall (λ p, is_Some (({[ 0%nat := Examples.processor_and_stream ]} : heap) !! p))
                 [0%nat]) as Hvalid
    by (repeat (constructor; [eexists; reflexivity |]); constructor).
  destruct (GetQueryLevelStats_nil_error Examples.extract (λ _, canonical_range) _
              Examples.trace_10_99 false _ Hvalid)
    as (h' & os & q & errs & Hrun & _ & Hres & Hnil & _).
  exists h', q. rewrite Hres. f_equal. f_equal. apply Hnil.
  vm_compute in Hrun. injection Hrun as _ <-.
  intros o Ho. apply list_elem_of_singleton in Ho as ->. by eexists.
Defined.
